(** * LinkedIn OAuth2 authorization-code flow: a shallow embedding

    The development embeds the two source files of the repository,

    - [src/lib/linkedin.ts]  (the authorization-URL builder), and
    - [src/app/api/linkedin/callback/route.ts]  (the callback handler),

    and proves the properties of the specification about them.

    JavaScript strings are sequences of UTF-16 code units, values returned by
    [response.json()] are JSON trees, the handler is a computation in a small
    state-and-exception monad whose state holds the [profiles] table and the
    trace of the outbound calls the handler makes. *)

From Stdlib Require Import ZArith NArith String Ascii DecimalString Lia.
From stdpp Require Import gmap list.

Local Open Scope Z_scope.
Local Set Warnings "-register-all".

(** ** JavaScript strings *)

Module JsString.

(** A JavaScript string is a finite sequence of 16-bit code units (numbers
    below 65536). *)
Definition jstring : Type := list N.

(** An ASCII literal of the source text, as a JavaScript string. *)
Definition lit (s : string) : jstring :=
  List.map N_of_ascii (list_ascii_of_string s).

(** Decimal text of an integer-valued number, as [Number::toString] prints it
    (integers of magnitude below 1e21 are printed without an exponent). *)
Definition dec (z : Z) : jstring :=
  lit (NilZero.string_of_int (Z.to_int z)).

(** The last [n] decimal digits of [z], zero padded. *)
Fixpoint pad (n : nat) (z : Z) : jstring :=
  match n with
  | O => []
  | S k => pad k (z / 10) ++ [Z.to_N (48 + z mod 10)]
  end.

Fixpoint is_prefix (p s : jstring) : bool :=
  match p, s with
  | [], _ => true
  | _ :: _, [] => false
  | a :: p', b :: s' => (a =? b)%N && is_prefix p' s'
  end.

(** [contains s sub]: [sub] occurs in [s] as a contiguous substring
    ([String.prototype.includes]). *)
Fixpoint contains (s sub : jstring) : bool :=
  is_prefix sub s ||
  match s with
  | [] => false
  | _ :: s' => contains s' sub
  end.

(** [String.prototype.substring(from, to)] for [0 <= from <= to]. *)
Definition substring (s : jstring) (from to : nat) : jstring :=
  take (to - from)%nat (drop from s).

(** Code units that are surrogates. *)
Definition is_lead_surrogate (c : N) : bool := ((55296 <=? c) && (c <=? 56319))%N.
Definition is_trail_surrogate (c : N) : bool := ((56320 <=? c) && (c <=? 57343))%N.

(** A well-formed string has no unpaired surrogate
    ([String.prototype.isWellFormed]). *)
Fixpoint well_formed (s : jstring) : bool :=
  match s with
  | [] => true
  | c :: rest =>
      if is_lead_surrogate c then
        match rest with
        | d :: rest' => is_trail_surrogate d && well_formed rest'
        | [] => false
        end
      else if is_trail_surrogate c then false
      else well_formed rest
  end.

End JsString.
Export JsString.

Arguments lit : simpl never.

(** ** JavaScript values *)

Module JsValue.

(** The value [response.json()] resolves to: a JSON tree.  [JNum] holds an
    integer-valued number (numbers with a fraction are outside the model); the
    fields of a [JObj] are the own properties of the parsed object, in order,
    each name once. *)
Inductive json : Type :=
| JNull
| JBool (b : bool)
| JNum (n : Z)
| JStr (s : jstring)
| JArr (items : list json)
| JObj (fields : list (jstring * json)).

(** The values an expression of the handler can have: [undefined], a JSON
    value, or a built-in function object (reached through a prototype). *)
Inductive jsval : Type :=
| JsUndefined
| JsJson (j : json)
| JsFunction (name : jstring).

(** A thrown value.  Everything the handler can catch is an object with a
    string [message]: an [Error] of the engine or of a library, or the error
    object of the store client. *)
Record JsError : Type := mkError { err_name : jstring; err_message : jstring }.

Definition Error (msg : jstring) : JsError := mkError (lit "Error") msg.
Definition TypeError (msg : jstring) : JsError := mkError (lit "TypeError") msg.
Definition RangeError (msg : jstring) : JsError := mkError (lit "RangeError") msg.
Definition URIError (msg : jstring) : JsError := mkError (lit "URIError") msg.

(** [ToString] on JSON values.  An array prints its elements separated by
    commas, [null] elements print as nothing ([Array.prototype.join]); a plain
    object prints as [[object Object]].  This is the text of the values that
    convert: on an object with an own [toString] member JavaScript throws
    instead (see [converts] below), and the statements that depend on a
    conversion having gone through assume [converts]. *)
Fixpoint ToString_json (j : json) : jstring :=
  match j with
  | JNull => lit "null"
  | JBool true => lit "true"
  | JBool false => lit "false"
  | JNum n => dec n
  | JStr s => s
  | JArr items =>
      (fix join (l : list json) : jstring :=
         match l with
         | [] => []
         | x :: rest =>
             let sx := match x with JNull => [] | _ => ToString_json x end in
             match rest with
             | [] => sx
             | _ :: _ => sx ++ lit "," ++ join rest
             end
         end) items
  | JObj _ => lit "[object Object]"
  end.

Definition ToString (v : jsval) : jstring :=
  match v with
  | JsUndefined => lit "undefined"
  | JsJson j => ToString_json j
  | JsFunction name => lit "function " ++ name ++ lit "() { [native code] }"
  end.

(** [ToBoolean]. *)
Definition truthy (v : jsval) : bool :=
  match v with
  | JsUndefined => false
  | JsJson JNull => false
  | JsJson (JBool b) => b
  | JsJson (JNum n) => negb (n =? 0)
  | JsJson (JStr s) => match s with [] => false | _ :: _ => true end
  | JsJson (JArr _) | JsJson (JObj _) => true
  | JsFunction _ => true
  end.

(** The operator [a || b]. *)
Definition js_or (a b : jsval) : jsval := if truthy a then a else b.

Fixpoint assoc {A : Type} (key : jstring) (l : list (jstring * A)) : option A :=
  match l with
  | [] => None
  | (k, v) :: rest => if decide (k = key) then Some v else assoc key rest
  end.

(** Properties found on the prototype chain.  Of the property names this
    program reads ([error_description], [access_token], [expires_in], [sub])
    only [sub] is inherited anywhere: it is the method [String.prototype.sub]. *)
Definition inherited (j : json) (key : jstring) : jsval :=
  match j with
  | JStr _ => if decide (key = lit "sub") then JsFunction (lit "sub") else JsUndefined
  | _ => JsUndefined
  end.

(** The member access [v.key]: a [TypeError] on [null] and [undefined] (with
    V8's wording), the own property of an object, otherwise whatever the
    prototype chain gives. *)
Definition get_prop (v : jsval) (key : jstring) : JsError + jsval :=
  match v with
  | JsUndefined =>
      inl (TypeError (lit "Cannot read properties of undefined (reading '"
                        ++ key ++ lit "')"))
  | JsJson JNull =>
      inl (TypeError (lit "Cannot read properties of null (reading '"
                        ++ key ++ lit "')"))
  | JsJson (JObj fields) =>
      match assoc key fields with
      | Some x => inr (JsJson x)
      | None => inr JsUndefined
      end
  | JsJson j => inr (inherited j key)
  | JsFunction _ => inr JsUndefined
  end.

(** A primitive produced by the operator [+]: a number ([None] stands for a
    value that is not finite: [NaN] or an infinity) or a string. *)
Inductive prim : Type :=
| PNum (n : option Z)
| PStr (s : jstring).

(** [n + v] for a finite number [n]: string concatenation when [v] converts to
    a string primitive (strings, arrays, objects, functions), numeric addition
    otherwise.  As [ToString], this is the result for the values that convert
    ([converts]); on the others the operator throws. *)
Definition js_add (n : Z) (v : jsval) : prim :=
  match v with
  | JsUndefined => PNum None
  | JsJson JNull => PNum (Some n)
  | JsJson (JBool b) => PNum (Some (n + (if b then 1 else 0)))
  | JsJson (JNum m) => PNum (Some (n + m))
  | JsJson (JStr _) | JsJson (JArr _) | JsJson (JObj _) | JsFunction _ =>
      PStr (dec n ++ ToString v)
  end.

End JsValue.
Export JsValue.

(** ** URI encoding *)

Module Uri.

Definition in_range (lo hi c : N) : bool := ((lo <=? c) && (c <=? hi))%N.

Definition is_alnum (c : N) : bool :=
  in_range 48 57 c || in_range 65 90 c || in_range 97 122 c.

(** The characters [encodeURIComponent] leaves alone:
    letters, digits and [- _ . ! ~ * ' ( )]. *)
Definition uri_unreserved (c : N) : bool :=
  is_alnum c ||
  existsb (N.eqb c) [45; 95; 46; 33; 126; 42; 39; 40; 41]%N.

Definition hex_digit (n : N) : N := (if n <? 10 then 48 + n else 55 + n)%N.

(** [%XX] for one octet. *)
Definition percent (octet : N) : jstring :=
  [37; hex_digit (octet / 16); hex_digit (octet mod 16)]%N.

(** The UTF-8 octets of a code point. *)
Definition utf8 (cp : N) : list N :=
  (if cp <? 128 then [cp]
   else if cp <? 2048 then [192 + cp / 64; 128 + cp mod 64]
   else if cp <? 65536 then
     [224 + cp / 4096; 128 + (cp / 64) mod 64; 128 + cp mod 64]
   else
     [240 + cp / 262144; 128 + (cp / 4096) mod 64;
      128 + (cp / 64) mod 64; 128 + cp mod 64])%N.

Definition percent_utf8 (cp : N) : jstring := concat (List.map percent (utf8 cp)).

(** [encodeURIComponent]: [None] stands for the [URIError] thrown on an
    unpaired surrogate. *)
Fixpoint encodeURIComponent (s : jstring) : option jstring :=
  match s with
  | [] => Some []
  | c :: rest =>
      if uri_unreserved c then
        option_map (cons c) (encodeURIComponent rest)
      else if is_lead_surrogate c then
        match rest with
        | d :: rest' =>
            if is_trail_surrogate d then
              option_map
                (app (percent_utf8 ((c - 55296) * 1024 + (d - 56320) + 65536)%N))
                (encodeURIComponent rest')
            else None
        | [] => None
        end
      else if is_trail_surrogate c then None
      else option_map (app (percent_utf8 c)) (encodeURIComponent rest)
  end.

End Uri.
Export Uri.

(** ** Dates *)

Module JsDate.

Definition msPerSecond : Z := 1000.
Definition msPerMinute : Z := 60000.
Definition msPerHour : Z := 3600000.
Definition msPerDay : Z := 86400000.

(** The local time zone of the host: the offset (in milliseconds) in force at
    a UTC instant, and the offset used to read a local time value back as a UTC
    instant (the two arguments of [LocalTZA] in ECMA-262). *)
Record TimeZone : Type := {
  offset_at_utc : Z -> Z;
  offset_at_local : Z -> Z
}.

Definition LocalTime (tz : TimeZone) (t : Z) : Z := t + offset_at_utc tz t.
Definition UTC (tz : TimeZone) (t : Z) : Z := t - offset_at_local tz t.

Definition Day (t : Z) : Z := t / msPerDay.
Definition TimeWithinDay (t : Z) : Z := t mod msPerDay.
Definition HourFromTime (t : Z) : Z := (t / msPerHour) mod 24.
Definition MinFromTime (t : Z) : Z := (t / msPerMinute) mod 60.
Definition SecFromTime (t : Z) : Z := (t / msPerSecond) mod 60.
Definition msFromTime (t : Z) : Z := t mod msPerSecond.

Definition MakeTime (hour min sec ms : Z) : Z :=
  hour * msPerHour + min * msPerMinute + sec * msPerSecond + ms.
Definition MakeDate (day time : Z) : Z := day * msPerDay + time.

(** A time value is a number of milliseconds since the epoch, or [NaN]
    ([None]).  [TimeClip] rejects what is beyond 100,000,000 days. *)
Definition TimeClip (t : Z) : option Z :=
  if Z.abs t <=? 8640000000000000 then Some t else None.

(** [Date.prototype.getSeconds] on a valid date. *)
Definition getSeconds (tz : TimeZone) (t : Z) : Z := SecFromTime (LocalTime tz t).

(** [Date.prototype.setSeconds(sec)] on a valid date; [sec] is the argument
    after [ToNumber] and truncation to an integer, [None] when it is not
    finite.  Returns the new time value of the date. *)
Definition setSeconds (tz : TimeZone) (t : Z) (sec : option Z) : option Z :=
  match sec with
  | None => None
  | Some s =>
      let lt := LocalTime tz t in
      TimeClip (UTC tz (MakeDate (Day lt)
                          (MakeTime (HourFromTime lt) (MinFromTime lt) s (msFromTime lt))))
  end.

(** The civil date (year, month, day of month) of a day number. *)
Definition civil_from_days (days : Z) : Z * Z * Z :=
  let z := days + 719468 in
  let era := z / 146097 in
  let doe := z - era * 146097 in
  let yoe := (doe - doe / 1460 + doe / 36524 - doe / 146096) / 365 in
  let doy := doe - (365 * yoe + yoe / 4 - yoe / 100) in
  let mp := (5 * doy + 2) / 153 in
  let d := doy - (153 * mp + 2) / 5 + 1 in
  let m := if mp <? 10 then mp + 3 else mp - 9 in
  let y := yoe + era * 400 + (if m <=? 2 then 1 else 0) in
  (y, m, d).

(** The same by the definitions of ECMA-262 (21.4.1): the day number of the
    first day of a year, the length of a year, and month (0 to 11) and day of
    the month from the day within the year.  [civil_from_days] is proved to
    agree with them ([civil_from_days_ecma]). *)
Definition DayFromYear (y : Z) : Z :=
  365 * (y - 1970) + (y - 1969) / 4 - (y - 1901) / 100 + (y - 1601) / 400.

Definition DaysInYear (y : Z) : Z :=
  if negb (y mod 4 =? 0) then 365
  else if negb (y mod 100 =? 0) then 366
  else if negb (y mod 400 =? 0) then 365
  else 366.

Definition InLeapYear (y : Z) : Z := if DaysInYear y =? 366 then 1 else 0.

Definition MonthFromDay (dayWithinYear leap : Z) : Z :=
  if dayWithinYear <? 31 then 0
  else if dayWithinYear <? 59 + leap then 1
  else if dayWithinYear <? 90 + leap then 2
  else if dayWithinYear <? 120 + leap then 3
  else if dayWithinYear <? 151 + leap then 4
  else if dayWithinYear <? 181 + leap then 5
  else if dayWithinYear <? 212 + leap then 6
  else if dayWithinYear <? 243 + leap then 7
  else if dayWithinYear <? 273 + leap then 8
  else if dayWithinYear <? 304 + leap then 9
  else if dayWithinYear <? 334 + leap then 10
  else 11.

Definition DateFromDay (dayWithinYear leap : Z) : Z :=
  let m := MonthFromDay dayWithinYear leap in
  if m =? 0 then dayWithinYear + 1
  else if m =? 1 then dayWithinYear - 30
  else if m =? 2 then dayWithinYear - 58 - leap
  else if m =? 3 then dayWithinYear - 89 - leap
  else if m =? 4 then dayWithinYear - 119 - leap
  else if m =? 5 then dayWithinYear - 150 - leap
  else if m =? 6 then dayWithinYear - 180 - leap
  else if m =? 7 then dayWithinYear - 211 - leap
  else if m =? 8 then dayWithinYear - 242 - leap
  else if m =? 9 then dayWithinYear - 272 - leap
  else if m =? 10 then dayWithinYear - 303 - leap
  else dayWithinYear - 333 - leap.

Definition iso_year (y : Z) : jstring :=
  if (0 <=? y) && (y <=? 9999) then pad 4 y
  else (if y <? 0 then lit "-" else lit "+") ++ pad 6 (Z.abs y).

(** The text [YYYY-MM-DDTHH:mm:ss.sssZ] of a valid time value. *)
Definition iso_text (t : Z) : jstring :=
  let '(y, m, d) := civil_from_days (Day t) in
  iso_year y ++ lit "-" ++ pad 2 m ++ lit "-" ++ pad 2 d ++ lit "T"
  ++ pad 2 (HourFromTime t) ++ lit ":" ++ pad 2 (MinFromTime t) ++ lit ":"
  ++ pad 2 (SecFromTime t) ++ lit "." ++ pad 3 (msFromTime t) ++ lit "Z".

(** [Date.prototype.toISOString]: a [RangeError] on an invalid date. *)
Definition toISOString (d : option Z) : JsError + jstring :=
  match d with
  | Some t => inr (iso_text t)
  | None => inl (RangeError (lit "Invalid time value"))
  end.

End JsDate.
Export JsDate.

(** ** The world of the callback handler *)

Module World.

(** A row of a table of the store: column name to value. *)
Abbreviation row := (gmap jstring json).

(** The [init] argument of [fetch]. *)
Record RequestInit : Type := {
  method : option jstring;
  headers : list (jstring * jstring);
  body : option (list (jstring * jstring))   (* the entries of a URLSearchParams *)
}.

(** What the handler looks at in a [Response]: [ok], and what [json()]
    settles to. *)
Record Response : Type := {
  ok : bool;
  json_body : JsError + json
}.

(** The [user] object of the auth client. *)
Record User : Type := { id : jstring }.

(** The calls that leave the handler, in the order they are made. *)
Inductive Event : Type :=
| EvCreateClient
| EvFetch (url : jstring) (init : RequestInit)
| EvGetUser
| EvUpdate (table : jstring) (payload : list (jstring * jsval))
           (column : jstring) (value : jstring)
| EvWarn (msg : jstring)
| EvError (msg : jstring) (err : JsError).

(** The state threaded through a run: the tables of the store and the trace
    of calls made so far (most recent last). *)
Record world : Type := {
  db : gmap jstring (list row);
  trace : list Event
}.

(** What the surroundings answer during one invocation.  Each collaborator is
    called at most once per invocation, so its answer is a value, not a
    function of time. *)
Record Env : Type := {
  process_env : jstring -> option jstring;     (* process.env *)
  createClient_outcome : option JsError;       (* [Some e]: createClient throws e *)
  token_endpoint : JsError + Response;         (* POST /oauth/v2/accessToken *)
  userinfo_endpoint : JsError + Response;      (* GET /v2/userinfo *)
  now : Z;                                     (* the clock read by [new Date()] *)
  timezone : TimeZone;
  StringToInteger : jstring -> option Z;       (* ToNumber on a string, truncated;
                                                  [None] when not finite *)
  getUser_outcome : JsError + option User;     (* [inr None]: { user: null } *)
  update_outcome : JsError + option JsError    (* [inr (Some e)]: { error: e } *)
}.

End World.
Export World.

(** ** A monad for the handler: environment, state and exceptions *)

Module Monad.

Inductive Outcome (A : Type) : Type :=
| Returned (a : A)
| Thrown (e : JsError).
Arguments Returned {A} a.
Arguments Thrown {A} e.

Definition M (A : Type) : Type := Env -> world -> Outcome A * world.

Definition ret {A} (a : A) : M A := fun _ w => (Returned a, w).
Definition throw {A} (e : JsError) : M A := fun _ w => (Thrown e, w).

Definition bind {A B} (m : M A) (k : A -> M B) : M B :=
  fun env w =>
    match m env w with
    | (Returned a, w') => k a env w'
    | (Thrown e, w') => (Thrown e, w')
    end.

(** [try { m } catch (err) { h err }]. *)
Definition try_catch {A} (m : M A) (h : JsError -> M A) : M A :=
  fun env w =>
    match m env w with
    | (Returned a, w') => (Returned a, w')
    | (Thrown e, w') => h e env w'
    end.

Definition ask : M Env := fun env w => (Returned env, w).

(** Append a call to the trace. *)
Definition log (w : world) (e : Event) : world :=
  {| db := db w; trace := trace w ++ [e] |}.

Definition emit (e : Event) : M unit := fun _ w => (Returned tt, log w e).

Definition modify_db (f : gmap jstring (list row) -> gmap jstring (list row)) : M unit :=
  fun _ w => (Returned tt, {| db := f (db w); trace := trace w |}).

(** Lift a computation that either throws or gives a value. *)
Definition lift {A} (r : JsError + A) : M A :=
  match r with
  | inl e => throw e
  | inr a => ret a
  end.

#[global] Instance M_ret : MRet M := @ret.
#[global] Instance M_bind : MBind M := fun A B k m => bind m k.

End Monad.
Export Monad.

(** ** The collaborators of the handler *)

Module Collaborators.

(** The incoming request, through the two parts of [new URL(request.url)]
    the handler reads. *)
Record NextRequest : Type := {
  origin : jstring;
  searchParams : list (jstring * jstring)
}.

(** [NextResponse.redirect(url)]: the response is described by the URL text
    the handler passes.  (The [Location] header is that text parsed and
    serialized again, which escapes spaces and a few other characters of the
    fragment; the model keeps the text as passed.) *)
Record NextResponse : Type := redirect { location : jstring }.

(** [searchParams.get(name)]: the first value of that name, or [null]. *)
Definition searchParams_get (params : list (jstring * jstring)) (name : jstring) : jsval :=
  match assoc name params with
  | Some v => JsJson (JStr v)
  | None => JsJson JNull
  end.

(** [process.env.NAME]: a string or [undefined]. *)
Definition env_var (env : Env) (name : jstring) : jsval :=
  match process_env env name with
  | Some v => JsJson (JStr v)
  | None => JsUndefined
  end.

Definition TOKEN_URL : jstring := lit "https://www.linkedin.com/oauth/v2/accessToken".
Definition USERINFO_URL : jstring := lit "https://api.linkedin.com/v2/userinfo".

Definition createClient : M unit :=
  _ ← emit EvCreateClient;
  env ← ask;
  match createClient_outcome env with
  | Some e => throw e
  | None => mret tt
  end.

(** [fetch(url, init)]: the call is recorded, the answer is the one of the
    endpoint behind the URL. *)
Definition fetch (url : jstring) (init : RequestInit) : M Response :=
  _ ← emit (EvFetch url init);
  env ← ask;
  if decide (url = TOKEN_URL) then lift (token_endpoint env)
  else if decide (url = USERINFO_URL) then lift (userinfo_endpoint env)
  else throw (TypeError (lit "fetch failed")).

(** [response.json()]. *)
Definition Response_json (r : Response) : M jsval :=
  j ← lift (json_body r); mret (JsJson j).

(** [new Date()]. *)
Definition new_Date : M Z := env ← ask; mret (now env).

(** [ToNumber] followed by the truncation [setSeconds] applies. *)
Definition ToInteger (env : Env) (p : prim) : option Z :=
  match p with
  | PNum n => n
  | PStr s => StringToInteger env s
  end.

(** [supabase.auth.getUser()], destructured to its [user]. *)
Definition auth_getUser : M (option User) :=
  _ ← emit EvGetUser;
  env ← ask;
  lift (getUser_outcome env).

(** The body of the PATCH request: [JSON.stringify] leaves out the members
    whose value is [undefined] or a function. *)
Definition JSON_fields (payload : list (jstring * jsval)) : list (jstring * json) :=
  flat_map (fun kv => match kv.2 with JsJson j => [(kv.1, j)] | _ => [] end) payload.

Definition apply_patch (fields : list (jstring * json)) (r : row) : row :=
  foldl (fun acc kv => <[kv.1 := kv.2]> acc) r fields.

(** The filter [.eq(column, value)]. *)
Definition row_matches (column value : jstring) (r : row) : bool :=
  match r !! column with
  | Some (JStr s) => bool_decide (s = value)
  | _ => false
  end.

Definition update_rows (fields : list (jstring * json)) (column value : jstring)
    (rows : list row) : list row :=
  (fun r => if row_matches column value r then apply_patch fields r else r) <$> rows.

(** [supabase.from(table).update(payload).eq(column, value)], destructured to
    its [error].  The rows are changed when the store reports no error. *)
Definition from_update_eq (table : jstring) (payload : list (jstring * jsval))
    (column value : jstring) : M (option JsError) :=
  _ ← emit (EvUpdate table payload column value);
  env ← ask;
  r ← lift (update_outcome env);
  match r with
  | Some e => mret (Some e)
  | None =>
      _ ← modify_db (alter (update_rows (JSON_fields payload) column value) table);
      mret None
  end.

Definition console_warn (msg : jstring) : M unit := emit (EvWarn msg).
Definition console_error (msg : jstring) (err : JsError) : M unit := emit (EvError msg err).

(** [encodeURIComponent] as a computation: it throws on an unpaired surrogate. *)
Definition encodeURIComponent_M (s : jstring) : M jstring :=
  match encodeURIComponent s with
  | Some t => mret t
  | None => throw (URIError (lit "URI malformed"))
  end.

End Collaborators.
Export Collaborators.

(** ** src/app/api/linkedin/callback/route.ts *)

Module Route.

Definition token_request (env : Env) (origin : jstring) (code : jsval) : RequestInit :=
  {| method := Some (lit "POST");
     headers := [(lit "Content-Type", lit "application/x-www-form-urlencoded")];
     body := Some
       [ (lit "grant_type", lit "authorization_code");
         (lit "code", ToString code);
         (lit "client_id", ToString (env_var env (lit "LINKEDIN_CLIENT_ID")));
         (lit "client_secret", ToString (env_var env (lit "LINKEDIN_CLIENT_SECRET")));
         (lit "redirect_uri", origin ++ lit "/api/linkedin/callback") ] |}.

(** The [init] of the profile request (lines 58 to 60), for an
    [accessToken] that converts to text. *)
Definition userinfo_request (accessToken : jsval) : RequestInit :=
  {| method := None;
     headers := [(lit "Authorization", lit "Bearer " ++ ToString accessToken)];
     body := None |}.

Definition update_payload (accessToken linkedinId : jsval) (expiresAt : jstring)
  : list (jstring * jsval) :=
  [ (lit "linkedin_token", accessToken);
    (lit "linkedin_profile_id", linkedinId);
    (lit "linkedin_connected", JsJson (JBool true));
    (lit "linkedin_token_expires_at", JsJson (JStr expiresAt)) ].

Definition no_session_warning : jstring :=
  lit "Callback received but no active session found. Ensure RLS allows the update or handle via state mapping.".

(** Step 2 of the [try] block (lines 37 to 55): exchange the authorization
    code for the access token; gives [accessToken] and [expiresIn]. *)
Definition exchange_code (origin : jstring) (code : jsval) : M (jsval * jsval) :=
  env ← ask;
  tokenResponse ← fetch TOKEN_URL (token_request env origin code);
  tokenData ← Response_json tokenResponse;
  _ ← (if negb (ok tokenResponse) then
         description ← lift (get_prop tokenData (lit "error_description"));
         throw (Error (ToString
                  (js_or description (JsJson (JStr (lit "LinkedIn token exchange failed"))))))
       else mret tt);
  accessToken ← lift (get_prop tokenData (lit "access_token"));
  expiresIn ← lift (get_prop tokenData (lit "expires_in"));
  mret (accessToken, expiresIn).

(** Step 3 (lines 58 to 62): fetch the profile and read its [sub]. *)
Definition fetch_profile_id (accessToken : jsval) : M jsval :=
  profileResponse ← fetch USERINFO_URL (userinfo_request accessToken);
  profileData ← Response_json profileResponse;
  lift (get_prop profileData (lit "sub")).

(** The time value of [expiresAt] after line 68, for a date created at
    [created] and an [expiresIn] that converts to a primitive. *)
Definition expiry (env : Env) (created : Z) (expiresIn : jsval) : option Z :=
  setSeconds (timezone env) created
    (ToInteger env (js_add (getSeconds (timezone env) created) expiresIn)).

(** Step 4 (lines 67 to 88): compute the expiry, identify the user, update
    the profile of the user or warn that there is none. *)
Definition update_profile (accessToken expiresIn linkedinId : jsval) : M unit :=
  env ← ask;
  created ← new_Date;
  let expiresAt := expiry env created expiresIn in
  user ← auth_getUser;
  match user with
  | Some u =>
      iso ← lift (toISOString expiresAt);
      dbError ← from_update_eq (lit "profiles")
                  (update_payload accessToken linkedinId iso)
                  (lit "user_id") (id u);
      match dbError with
      | Some e => throw e
      | None => mret tt
      end
  | None => console_warn no_session_warning
  end.

(** The [try] block of [GET] (lines 29 to 91). *)
Definition GET_try (origin : jstring) (code : jsval) : M NextResponse :=
  _ ← createClient;
  '(accessToken, expiresIn) ← exchange_code origin code;
  linkedinId ← fetch_profile_id accessToken;
  _ ← update_profile accessToken expiresIn linkedinId;
  mret (redirect (origin ++ lit "/#/app/settings?success=true")).

(** The [catch] block of [GET] (lines 93 to 96). *)
Definition GET_catch (origin : jstring) (err : JsError) : M NextResponse :=
  _ ← console_error (lit "LinkedIn OAuth Processing Error:") err;
  msg ← encodeURIComponent_M (err_message err);
  mret (redirect (origin ++ lit "/#/app/settings?error=exchange_failed&msg=" ++ msg)).

(** [export async function GET(request)]. *)
Definition GET (request : NextRequest) : M NextResponse :=
  let code := searchParams_get (searchParams request) (lit "code") in
  let state := searchParams_get (searchParams request) (lit "state") in
  let error := searchParams_get (searchParams request) (lit "error") in
  if truthy error then
    mret (redirect (origin request ++ lit "/#/app/settings?error=" ++ ToString error
                    ++ lit "&msg="
                    ++ ToString (searchParams_get (searchParams request)
                                   (lit "error_description"))))
  else if negb (truthy code) then
    mret (redirect (origin request ++ lit "/#/app/settings?error=missing_code"))
  else
    try_catch (GET_try (origin request) code) (GET_catch (origin request)).

(** What a run did, read off its trace. *)
Definition is_update (e : Event) : bool :=
  match e with EvUpdate _ _ _ _ => true | _ => false end.

Definition is_token_fetch (e : Event) : bool :=
  match e with EvFetch url _ => bool_decide (url = TOKEN_URL) | _ => false end.

Definition is_warning (e : Event) : bool :=
  match e with EvWarn _ => true | _ => false end.

(** One invocation of the handler, from a store [d] and an empty trace. *)
Definition run (env : Env) (d : gmap jstring (list row)) (request : NextRequest)
  : Outcome NextResponse * world :=
  GET request env {| db := d; trace := [] |}.

End Route.
Export Route.

(** ** Text codecs used by the authorization-URL builder *)

Module Codec.

(** *** [JSON.stringify] on strings *)

Definition hex_digit_lower (n : N) : N := (if n <? 10 then 48 + n else 87 + n)%N.

(** [\uXXXX] for a code unit. *)
Definition unicode_escape (c : N) : jstring :=
  [92; 117; hex_digit_lower (c / 4096); hex_digit_lower ((c / 256) mod 16);
   hex_digit_lower ((c / 16) mod 16); hex_digit_lower (c mod 16)]%N.

(** One code unit that is not a surrogate, as [QuoteJSONString] writes it. *)
Definition json_escape (c : N) : jstring :=
  (if c =? 8 then [92; 98]          (* \b *)
   else if c =? 9 then [92; 116]    (* \t *)
   else if c =? 10 then [92; 110]   (* \n *)
   else if c =? 12 then [92; 102]   (* \f *)
   else if c =? 13 then [92; 114]   (* \r *)
   else if c =? 34 then [92; 34]    (* backslash, quote *)
   else if c =? 92 then [92; 92]    (* backslash, backslash *)
   else if c <? 32 then unicode_escape c
   else [c])%N.

(** The text between the quotes: surrogate pairs are kept, unpaired
    surrogates are escaped. *)
Fixpoint quote_body (s : jstring) : jstring :=
  match s with
  | [] => []
  | c :: rest =>
      if is_lead_surrogate c then
        match rest with
        | d :: rest' =>
            if is_trail_surrogate d then c :: d :: quote_body rest'
            else unicode_escape c ++ quote_body rest
        | [] => unicode_escape c
        end
      else if is_trail_surrogate c then unicode_escape c ++ quote_body rest
      else json_escape c ++ quote_body rest
  end.

Definition QuoteJSONString (s : jstring) : jstring := [34%N] ++ quote_body s ++ [34%N].

(** *** [btoa] and [atob] *)

Definition b64_char (n : N) : N :=
  (if n <? 26 then 65 + n
   else if n <? 52 then 71 + n        (* 'a' - 26 *)
   else if n <? 62 then n - 4         (* '0' - 52 *)
   else if n =? 62 then 43 else 47)%N.

Fixpoint b64_encode (bytes : list N) : jstring :=
  match bytes with
  | [] => []
  | [a] => [b64_char (a / 4); b64_char ((a mod 4) * 16); 61; 61]%N
  | [a; b] =>
      [b64_char (a / 4); b64_char ((a mod 4) * 16 + b / 16);
       b64_char ((b mod 16) * 4); 61]%N
  | a :: b :: c :: rest =>
      [b64_char (a / 4); b64_char ((a mod 4) * 16 + b / 16);
       b64_char ((b mod 16) * 4 + c / 64); b64_char (c mod 64)]%N
      ++ b64_encode rest
  end.

Definition InvalidCharacterError : JsError :=
  mkError (lit "InvalidCharacterError") (lit "Invalid character").

(** [btoa]: every code unit must be a byte. *)
Definition btoa (s : jstring) : JsError + jstring :=
  if forallb (fun c => c <? 256)%N s then inr (b64_encode s)
  else inl InvalidCharacterError.

Definition b64_value (c : N) : option N :=
  (if in_range 65 90 c then Some (c - 65)
   else if in_range 97 122 c then Some (c - 71)
   else if in_range 48 57 c then Some (c + 4)
   else if c =? 43 then Some 62
   else if c =? 47 then Some 63
   else None)%N.

(** Groups of four characters to groups of three bytes; a last group of two
    or three characters gives one or two bytes. *)
Fixpoint b64_groups (vs : list N) : option (list N) :=
  match vs with
  | [] => Some []
  | [_] => None
  | [v0; v1] => Some [v0 * 4 + v1 / 16]%N
  | [v0; v1; v2] => Some [v0 * 4 + v1 / 16; (v1 mod 16) * 16 + v2 / 4]%N
  | v0 :: v1 :: v2 :: v3 :: rest =>
      option_map
        (app [v0 * 4 + v1 / 16; (v1 mod 16) * 16 + v2 / 4; (v2 mod 4) * 64 + v3]%N)
        (b64_groups rest)
  end.

Definition is_ascii_whitespace (c : N) : bool :=
  existsb (N.eqb c) [9; 10; 12; 13; 32]%N.

(** Remove the padding: one or two [=] that end a text whose length is a
    multiple of four. *)
Fixpoint strip_padding (s : jstring) : jstring :=
  match s with
  | a :: b :: c :: d :: rest =>
      match rest with
      | [] =>
          if (d =? 61)%N then (if (c =? 61)%N then [a; b] else [a; b; c])
          else [a; b; c; d]
      | _ :: _ => a :: b :: c :: d :: strip_padding rest
      end
  | _ => s
  end.

Fixpoint traverse_option {A B : Type} (f : A -> option B) (l : list A) : option (list B) :=
  match l with
  | [] => Some []
  | x :: rest =>
      match f x, traverse_option f rest with
      | Some y, Some ys => Some (y :: ys)
      | _, _ => None
      end
  end.

(** [atob] (the forgiving Base64 decoding): [None] stands for the exception. *)
Definition atob (s : jstring) : option jstring :=
  let s1 := List.filter (fun c => negb (is_ascii_whitespace c)) s in
  match traverse_option b64_value (strip_padding s1) with
  | Some vs => b64_groups vs
  | None => None
  end.

(** *** [URLSearchParams]: serializing and parsing *)

(** A byte of the [application/x-www-form-urlencoded] serializer. *)
Definition form_byte (b : N) : jstring :=
  if is_alnum b || existsb (N.eqb b) [42; 45; 46; 95]%N then [b]
  else if (b =? 32)%N then [43%N]
  else percent b.

Definition form_code_point (cp : N) : jstring := concat (List.map form_byte (utf8 cp)).

(** One name or value.  The text is first made a scalar-value string: an
    unpaired surrogate becomes U+FFFD. *)
Fixpoint form_encode (s : jstring) : jstring :=
  match s with
  | [] => []
  | c :: rest =>
      if is_lead_surrogate c then
        match rest with
        | d :: rest' =>
            if is_trail_surrogate d then
              form_code_point ((c - 55296) * 1024 + (d - 56320) + 65536)%N
              ++ form_encode rest'
            else form_code_point 65533 ++ form_encode rest
        | [] => form_code_point 65533
        end
      else if is_trail_surrogate c then form_code_point 65533 ++ form_encode rest
      else form_code_point c ++ form_encode rest
  end.

Fixpoint form_serialize (params : list (jstring * jstring)) : jstring :=
  match params with
  | [] => []
  | (k, v) :: rest =>
      form_encode k ++ [61%N] ++ form_encode v
      ++ match rest with
         | [] => []
         | _ :: _ => [38%N] ++ form_serialize rest
         end
  end.

(** The text of a URL object whose query is the serialized parameter list. *)
Definition url_toString (base : jstring) (params : list (jstring * jstring)) : jstring :=
  match params with
  | [] => base
  | _ :: _ => base ++ [63%N] ++ form_serialize params
  end.

(** Split at every occurrence of a separator. *)
Fixpoint split_on (sep : N) (s : jstring) : list jstring :=
  match s with
  | [] => [[]]
  | c :: rest =>
      if (c =? sep)%N then [] :: split_on sep rest
      else match split_on sep rest with
           | [] => [[c]]
           | first :: others => (c :: first) :: others
           end
  end.

(** Split at the first occurrence of a separator. *)
Fixpoint break_at (sep : N) (s : jstring) : jstring * jstring :=
  match s with
  | [] => ([], [])
  | c :: rest =>
      if (c =? sep)%N then ([], rest)
      else let '(a, b) := break_at sep rest in (c :: a, b)
  end.

Definition hex_value (c : N) : option N :=
  (if in_range 48 57 c then Some (c - 48)
   else if in_range 65 70 c then Some (c - 55)
   else if in_range 97 102 c then Some (c - 87)
   else None)%N.

(** Decoding of one name or value of a query: [+] is a space, [%XX] is a
    byte.  The decoder is defined on texts that decode to ASCII, which is all
    the builder produces; [None] otherwise. *)
Fixpoint form_decode (s : jstring) : option jstring :=
  match s with
  | [] => Some []
  | c :: rest =>
      if (c =? 43)%N then option_map (cons 32%N) (form_decode rest)
      else if (c =? 37)%N then
        match rest with
        | h :: l :: rest' =>
            match hex_value h, hex_value l with
            | Some a, Some b =>
                if (a * 16 + b <? 128)%N
                then option_map (cons (a * 16 + b)%N) (form_decode rest')
                else None
            | _, _ => option_map (cons c) (form_decode rest)
            end
        | _ => option_map (cons c) (form_decode rest)
        end
      else if (c <? 128)%N then option_map (cons c) (form_decode rest)
      else None
  end.

(** The query of a URL text: what follows the first [?], up to a [#]. *)
Definition url_query (href : jstring) : jstring :=
  (break_at 35 (break_at 63 href).2).1.

(** [new URL(href).searchParams.get(name)]. *)
Definition url_param (href name : jstring) : option jstring :=
  let pairs :=
    List.map (fun seg => let '(k, v) := break_at 61 seg in (form_decode k, form_decode v))
      (List.filter (fun seg => negb (bool_decide (seg = []))) (split_on 38 (url_query href))) in
  match List.find (fun kv => bool_decide (kv.1 = Some name)) pairs with
  | Some (_, v) => v
  | None => None
  end.

(** The characters with a role in a URL: [#], [&], [=] and [?]. *)
Definition plain (c : N) : Prop := (c <> 35 /\ c <> 38 /\ c <> 61 /\ c <> 63)%N.

(** A serialized parameter. *)
Definition segment (kv : jstring * jstring) : jstring :=
  form_encode kv.1 ++ 61%N :: form_encode kv.2.

Definition ascii_pair (kv : jstring * jstring) : Prop :=
  Forall (fun c => c < 128)%N kv.1 /\ Forall (fun c => c < 128)%N kv.2.

(** *** [JSON.parse] on objects whose members are strings *)

(** The text of a string literal after its opening quote: the string and what
    follows the closing quote. *)
Fixpoint parse_string_body (s : jstring) : option (jstring * jstring) :=
  match s with
  | [] => None
  | c :: rest =>
      if (c =? 34)%N then Some ([], rest)
      else if (c =? 92)%N then
        match rest with
        | e :: rest1 =>
            let simple (x : N) :=
              match parse_string_body rest1 with
              | Some (str, tl) => Some (x :: str, tl)
              | None => None
              end in
            if (e =? 34)%N then simple 34%N
            else if (e =? 92)%N then simple 92%N
            else if (e =? 47)%N then simple 47%N
            else if (e =? 98)%N then simple 8%N
            else if (e =? 102)%N then simple 12%N
            else if (e =? 110)%N then simple 10%N
            else if (e =? 114)%N then simple 13%N
            else if (e =? 116)%N then simple 9%N
            else if (e =? 117)%N then
              match rest1 with
              | h3 :: h2 :: h1 :: h0 :: rest2 =>
                  match hex_value h3, hex_value h2, hex_value h1, hex_value h0,
                        parse_string_body rest2 with
                  | Some a, Some b, Some c', Some d, Some (str, tl) =>
                      Some ((a * 4096 + b * 256 + c' * 16 + d)%N :: str, tl)
                  | _, _, _, _, _ => None
                  end
              | _ => None
              end
            else None
        | [] => None
        end
      else if (c <? 32)%N then None
      else
        match parse_string_body rest with
        | Some (str, tl) => Some (c :: str, tl)
        | None => None
        end
  end.

Definition parse_string (s : jstring) : option (jstring * jstring) :=
  match s with
  | 34%N :: rest => parse_string_body rest
  | _ => None
  end.

(** The members of an object after a first member has been read: either the
    closing brace, or a comma and one more member. *)
Fixpoint parse_members (fuel : nat) (s : jstring) : option (list (jstring * jstring)) :=
  match fuel with
  | O => None
  | S fuel' =>
      match s with
      | [125%N] => Some []
      | 44%N :: rest =>
          match parse_string rest with
          | Some (k, 58%N :: rest1) =>
              match parse_string rest1 with
              | Some (v, rest2) =>
                  option_map (cons (k, v)) (parse_members fuel' rest2)
              | None => None
              end
          | _ => None
          end
      | _ => None
      end
  end.

(** [JSON.parse] restricted to the texts [{"k":"v",...}] without insignificant
    white space; [None] on anything else.  A name that occurs twice keeps its
    last value. *)
Definition JSON_parse_flat (s : jstring) : option (list (jstring * jstring)) :=
  match s with
  | [123%N; 125%N] => Some []
  | 123%N :: rest => option_map (@reverse _) (parse_members (S (length s)) (44%N :: rest))
  | _ => None
  end.

End Codec.
Export Codec.

(** ** src/lib/linkedin.ts *)

Module Linkedin.

Record Config : Type := {
  clientId : jstring;
  redirectUri : jstring;
  scopes : list jstring
}.

Definition LINKEDIN_CONFIG : Config := {|
  clientId := lit "86j7ddjv9w7b8m";
  redirectUri := lit "http://localhost:3000/api/linkedin/callback";
  scopes := [lit "openid"; lit "profile"; lit "email"; lit "w_member_social"]
|}.

(** [Array.prototype.join] on strings. *)
Fixpoint join (sep : jstring) (l : list jstring) : jstring :=
  match l with
  | [] => []
  | [x] => x
  | x :: rest => x ++ sep ++ join sep rest
  end.

(** [JSON.stringify({ userId, nonce })]. *)
Definition statePayload (userId nonce : jstring) : jstring :=
  lit "{" ++ QuoteJSONString (lit "userId") ++ lit ":" ++ QuoteJSONString userId
  ++ lit "," ++ QuoteJSONString (lit "nonce") ++ lit ":" ++ QuoteJSONString nonce
  ++ lit "}".

(** The parameters appended to [url.searchParams] (lines 19 to 23). *)
Definition authorization_params (state : jstring) : list (jstring * jstring) :=
  [ (lit "response_type", lit "code");
    (lit "client_id", clientId LINKEDIN_CONFIG);
    (lit "redirect_uri", redirectUri LINKEDIN_CONFIG);
    (lit "state", state);
    (lit "scope", join (lit " ") (scopes LINKEDIN_CONFIG)) ].

(** [generateLinkedInAuthUrl(userId)].  [random36] is the text
    [Math.random().toString(36)] of this call. *)
Definition generateLinkedInAuthUrl (random36 : jstring) (userId : jstring)
  : JsError + jstring :=
  let nonce := substring random36 2 15 in
  match btoa (statePayload userId nonce) with
  | inl e => inl e
  | inr state =>
      inr (url_toString (lit "https://www.linkedin.com/oauth/v2/authorization")
             (authorization_params state))
  end.

(** The texts [Math.random().toString(36)] can give: ["0"] for the number 0,
    otherwise ["0."] followed by digits in base 36. *)
Definition is_base36_digit (c : N) : bool := in_range 48 57 c || in_range 97 122 c.

Definition is_random36 (r : jstring) : bool :=
  match r with
  | [48%N] => true
  | 48%N :: 46%N :: d :: ds => forallb is_base36_digit (d :: ds)
  | _ => false
  end.

(** Reading the state back: the [state] parameter of the URL, [atob], then
    [JSON.parse]. *)
Definition decode_state (href : jstring) : option (list (jstring * jstring)) :=
  match url_param href (lit "state") with
  | Some state =>
      match atob state with
      | Some payload => JSON_parse_flat payload
      | None => None
      end
  | None => None
  end.

End Linkedin.
Export Linkedin.

(** ** What the steps of the handler settle to

    The value of each step as a function of what the surroundings answer,
    without the monad.  The steps run in the monad are proved equal to these
    below ([exchange_code_run], [fetch_profile_id_run], [update_profile_run],
    [GET_try_run], [GET_run]). *)

Module Outcomes.

Definition default_message : jsval :=
  JsJson (JStr (lit "LinkedIn token exchange failed")).

Definition exchange_outcome (env : Env) : Outcome (jsval * jsval) :=
  match token_endpoint env with
  | inl e => Thrown e
  | inr tokenResponse =>
      match json_body tokenResponse with
      | inl e => Thrown e
      | inr tokenData =>
          if negb (ok tokenResponse) then
            match get_prop (JsJson tokenData) (lit "error_description") with
            | inl e => Thrown e
            | inr description => Thrown (Error (ToString (js_or description default_message)))
            end
          else
            match get_prop (JsJson tokenData) (lit "access_token") with
            | inl e => Thrown e
            | inr accessToken =>
                match get_prop (JsJson tokenData) (lit "expires_in") with
                | inl e => Thrown e
                | inr expiresIn => Returned (accessToken, expiresIn)
                end
            end
      end
  end.

Definition profile_outcome (env : Env) : Outcome jsval :=
  match userinfo_endpoint env with
  | inl e => Thrown e
  | inr profileResponse =>
      match json_body profileResponse with
      | inl e => Thrown e
      | inr profileData =>
          match get_prop (JsJson profileData) (lit "sub") with
          | inl e => Thrown e
          | inr linkedinId => Returned linkedinId
          end
      end
  end.

Definition update_profile_result (accessToken expiresIn linkedinId : jsval)
    (env : Env) (w : world) : Outcome unit * world :=
  let w1 := log w EvGetUser in
  match getUser_outcome env with
  | inl e => (Thrown e, w1)
  | inr None => (Returned tt, log w1 (EvWarn no_session_warning))
  | inr (Some u) =>
      match toISOString (expiry env (now env) expiresIn) with
      | inl e => (Thrown e, w1)
      | inr iso =>
          let payload := update_payload accessToken linkedinId iso in
          let w2 := log w1 (EvUpdate (lit "profiles") payload (lit "user_id") (id u)) in
          match update_outcome env with
          | inl e => (Thrown e, w2)
          | inr (Some e) => (Thrown e, w2)
          | inr None =>
              (Returned tt,
               {| db := alter (update_rows (JSON_fields payload) (lit "user_id") (id u))
                          (lit "profiles") (db w2);
                  trace := trace w2 |})
          end
      end
  end.

Definition GET_try_result (origin : jstring) (code : jsval) (env : Env) (w : world)
  : Outcome NextResponse * world :=
  let w1 := log w EvCreateClient in
  match createClient_outcome env with
  | Some e => (Thrown e, w1)
  | None =>
      let w2 := log w1 (EvFetch TOKEN_URL (token_request env origin code)) in
      match exchange_outcome env with
      | Thrown e => (Thrown e, w2)
      | Returned (accessToken, expiresIn) =>
          let w3 := log w2 (EvFetch USERINFO_URL (userinfo_request accessToken)) in
          match profile_outcome env with
          | Thrown e => (Thrown e, w3)
          | Returned linkedinId =>
              match update_profile_result accessToken expiresIn linkedinId env w3 with
              | (Thrown e, w4) => (Thrown e, w4)
              | (Returned _, w4) =>
                  (Returned (redirect (origin ++ lit "/#/app/settings?success=true")), w4)
              end
          end
      end
  end.

Definition GET_catch_result (origin : jstring) (err : JsError) (w : world)
  : Outcome NextResponse * world :=
  (match encodeURIComponent (err_message err) with
   | Some msg =>
       Returned (redirect (origin ++ lit "/#/app/settings?error=exchange_failed&msg=" ++ msg))
   | None => Thrown (URIError (lit "URI malformed"))
   end,
   log w (EvError (lit "LinkedIn OAuth Processing Error:") err)).

(** What can be said of a call found in the trace of a run: a fetch is one of
    the two requests of the handler, an update carries what the earlier steps
    gave. *)
Definition event_explained (env : Env) (request : NextRequest) (e : Event) : Prop :=
  match e with
  | EvFetch url init =>
      (url = TOKEN_URL
       /\ init = token_request env (origin request)
                   (searchParams_get (searchParams request) (lit "code")))
      \/ (exists accessToken expiresIn,
            exchange_outcome env = Returned (accessToken, expiresIn)
            /\ url = USERINFO_URL /\ init = userinfo_request accessToken)
  | EvUpdate table payload column value =>
      exists accessToken expiresIn linkedinId u iso,
        exchange_outcome env = Returned (accessToken, expiresIn)
        /\ profile_outcome env = Returned linkedinId
        /\ getUser_outcome env = inr (Some u)
        /\ toISOString (expiry env (now env) expiresIn) = inr iso
        /\ table = lit "profiles"
        /\ payload = update_payload accessToken linkedinId iso
        /\ column = lit "user_id" /\ value = id u
  | _ => True
  end.

(** What can be said of the store after a run: it is the store before, or
    the one update of the handler has been applied to it. *)
Definition store_explained (env : Env) (d d' : gmap jstring (list row)) : Prop :=
  d' = d
  \/ exists accessToken expiresIn linkedinId u iso,
       exchange_outcome env = Returned (accessToken, expiresIn)
       /\ profile_outcome env = Returned linkedinId
       /\ getUser_outcome env = inr (Some u)
       /\ toISOString (expiry env (now env) expiresIn) = inr iso
       /\ update_outcome env = inr None
       /\ d' = alter (update_rows (JSON_fields (update_payload accessToken linkedinId iso))
                        (lit "user_id") (id u))
                 (lit "profiles") d.

(** The body of a success answer of the token endpoint, and the body of an
    answer of the profile endpoint (whose status the handler does not look at). *)
Definition token_body (env : Env) (tokenData : json) : Prop :=
  exists tokenResponse,
    token_endpoint env = inr tokenResponse
    /\ ok tokenResponse = true /\ json_body tokenResponse = inr tokenData.

Definition profile_body (env : Env) (profileData : json) : Prop :=
  exists profileResponse,
    userinfo_endpoint env = inr profileResponse
    /\ json_body profileResponse = inr profileData.

(** The local offset is the same at the creation of [expiresAt] and at the
    local time [n] seconds later: no change of the zone's offset falls in
    between. *)
Definition steady_offset (env : Env) (n : Z) : Prop :=
  offset_at_local (timezone env)
    (now env + offset_at_utc (timezone env) (now env) + n * 1000)
  = offset_at_utc (timezone env) (now env).

(** The columns the handler writes. *)
Definition connection_columns : list jstring :=
  [lit "linkedin_token"; lit "linkedin_profile_id"; lit "linkedin_connected";
   lit "linkedin_token_expires_at"].

(** A populated field of a connection record: a non-empty string. *)
Definition populated (v : jsval) : bool :=
  match v with
  | JsJson (JStr (_ :: _)) => true
  | _ => false
  end.

End Outcomes.
Export Outcomes.

(** ** Scenarios: concrete surroundings *)

Module Scenarios.

Definition utc : TimeZone :=
  {| offset_at_utc := fun _ => 0; offset_at_local := fun _ => 0 |}.

Definition json_response (status_ok : bool) (j : json) : JsError + Response :=
  inr {| ok := status_ok; json_body := inr j |}.

(** Surroundings with working configuration, the given clock and zone, and
    the given answers. *)
Definition surroundings_at (clock : Z) (zone : TimeZone)
    (token profile : JsError + Response)
    (user : JsError + option User) (update : JsError + option JsError) : Env :=
  {| process_env := fun name =>
       if decide (name = lit "LINKEDIN_CLIENT_ID") then Some (lit "86j7ddjv9w7b8m")
       else if decide (name = lit "LINKEDIN_CLIENT_SECRET") then Some (lit "s3cret")
       else None;
     createClient_outcome := None;
     token_endpoint := token;
     userinfo_endpoint := profile;
     now := clock;
     timezone := zone;
     StringToInteger := fun _ => None;
     getUser_outcome := user;
     update_outcome := update |}.

(** The same with a clock at 2023-11-14T22:13:20.000Z, in UTC. *)
Definition surroundings : JsError + Response -> JsError + Response ->
    JsError + option User -> JsError + option JsError -> Env :=
  surroundings_at 1700000000000 utc.

(** New York around the end of daylight saving time in 2026: the offset
    goes from -4 h to -5 h at 2026-11-01T06:00:00Z; a local time before
    02:00 of that day is read with the earlier offset. *)
Definition new_york_fall_2026 : TimeZone :=
  {| offset_at_utc := fun t =>
       if t <? 1793512800000 then -14400000 else -18000000;
     offset_at_local := fun lt =>
       if lt <? 1793498400000 then -14400000 else -18000000 |}.

Definition token_T : json :=
  JObj [(lit "access_token", JStr (lit "T")); (lit "expires_in", JNum 3600)].
Definition profile_ext123 : json := JObj [(lit "sub", JStr (lit "ext-123"))].
Definition user_U : User := {| id := lit "U" |}.

Definition happy_env : Env :=
  surroundings (json_response true token_T) (json_response true profile_ext123)
    (inr (Some user_U)) (inr None).

Definition no_session_env : Env :=
  surroundings (json_response true token_T) (json_response true profile_ext123)
    (inr None) (inr None).

(** The happy answers at 2026-11-01T05:30:00Z (01:30 local) in New York. *)
Definition fall_back_env : Env :=
  surroundings_at 1793511000000 new_york_fall_2026
    (json_response true token_T) (json_response true profile_ext123)
    (inr (Some user_U)) (inr None).

(** A token endpoint that answers 200 without [access_token]. *)
Definition missing_access_token_env : Env :=
  surroundings (json_response true (JObj [(lit "expires_in", JNum 3600)]))
    (json_response true profile_ext123) (inr (Some user_U)) (inr None).

(** A token endpoint that refuses the code. *)
Definition invalid_grant : json :=
  JObj [(lit "error", JStr (lit "invalid_request"));
        (lit "error_description", JStr (lit "Unable to retrieve access token"))].

Definition refused_env : Env :=
  surroundings (json_response false invalid_grant)
    (json_response true profile_ext123) (inr (Some user_U)) (inr None).

(** A profile endpoint that answers an object without [sub]. *)
Definition missing_sub_env : Env :=
  surroundings (json_response true token_T) (json_response true (JObj []))
    (inr (Some user_U)) (inr None).

(** A profile endpoint whose body is not JSON. *)
Definition SyntaxError (msg : jstring) : JsError := mkError (lit "SyntaxError") msg.

Definition unreadable_profile_env : Env :=
  surroundings (json_response true token_T)
    (inr {| ok := false;
            json_body := inl (SyntaxError (lit "Unexpected token < in JSON at position 0")) |})
    (inr (Some user_U)) (inr None).

(** A token endpoint whose error description holds an unpaired surrogate
    (the JSON text of the body spells it as an escape, backslash ud800). *)
Definition lone_surrogate_env : Env :=
  surroundings
    (json_response false
       (JObj [(lit "error", JStr (lit "invalid_request"));
              (lit "error_description", JStr [55296%N])]))
    (json_response true profile_ext123) (inr (Some user_U)) (inr None).

(** A draw of [Math.random()] and a user id. *)
Definition draw_4fzyo : jstring := lit "0.4fzyo82mvyr".
Definition draw_zero : jstring := lit "0".
Definition user_id_1 : jstring := lit "user-1".

Definition callback (orig : jstring) (params : list (jstring * jstring)) : NextRequest :=
  {| origin := orig; searchParams := params |}.

Definition code_request : NextRequest :=
  callback (lit "http://localhost:3000") [(lit "code", lit "abc"); (lit "state", lit "xyz")].

(** The callback as it arrives at a deployment that is not local. *)
Definition deployed_request : NextRequest :=
  callback (lit "https://autolink.example.com")
    [(lit "code", lit "abc"); (lit "state", lit "xyz")].

Definition denied_request : NextRequest :=
  callback (lit "http://localhost:3000")
    [(lit "error", lit "access_denied");
     (lit "error_description", lit "The user denied the request");
     (lit "state", lit "xyz")].

Definition row_U : row :=
  <[lit "user_id" := JStr (lit "U")]>
    (<[lit "full_name" := JStr (lit "Uma")]>
       (<[lit "linkedin_connected" := JBool false]> ∅)).

Definition row_V : row :=
  <[lit "user_id" := JStr (lit "V")]>
    (<[lit "linkedin_token" := JStr (lit "token of V")]> ∅).

Definition two_profiles : gmap jstring (list row) :=
  <[lit "profiles" := [row_U; row_V]]> (<[lit "posts" := [row_V]]> ∅).

Definition no_profiles : gmap jstring (list row) := <[lit "profiles" := []]> ∅.

End Scenarios.
Export Scenarios.

(** ** Values that convert to text *)

Module Conversions.

(** [ToString] and the operator [+] applied to a value parsed from JSON go
    through [ToPrimitive], which throws a [TypeError] on an object that has an
    own member named [toString]: the member hides [Object.prototype.toString]
    and, coming from JSON, cannot be called, and [valueOf] gives no primitive.
    An array converts its elements ([null] excepted) in the same way.  Every
    other value converts, and [ToString] is its text.  In the handler the
    conversions are the template literal of line 59 (on [access_token]) and
    the sum of line 68 (on [expires_in]). *)
Fixpoint converts_json (j : json) : bool :=
  match j with
  | JObj fields =>
      match assoc (lit "toString") fields with
      | Some _ => false
      | None => true
      end
  | JArr items => forallb converts_json items
  | _ => true
  end.

Definition converts (v : jsval) : bool :=
  match v with
  | JsJson j => converts_json j
  | _ => true
  end.

(** The user ids [btoa] can take after [JSON.stringify]: every code unit is
    at most 255, or is an unpaired surrogate (which is written as an escape);
    a surrogate pair is written as it is, and is not taken. *)
Fixpoint encodable (s : jstring) : bool :=
  match s with
  | [] => true
  | c :: rest =>
      if is_lead_surrogate c then
        match rest with
        | d :: _ => if is_trail_surrogate d then false else encodable rest
        | [] => true
        end
      else if is_trail_surrogate c then encodable rest
      else (c <? 256)%N && encodable rest
  end.

End Conversions.
Export Conversions.

(** ** The conduct of the handler: its calls, and more surroundings *)

Module Conduct.

(** The calls of the handler, without their arguments. *)
Inductive Call : Type :=
| CreateClient | TokenFetch | ProfileFetch | OtherFetch | GetUser | Update | Warn | LogError.

Definition call_of (e : Event) : Call :=
  match e with
  | EvCreateClient => CreateClient
  | EvFetch url _ =>
      if decide (url = TOKEN_URL) then TokenFetch
      else if decide (url = USERINFO_URL) then ProfileFetch
      else OtherFetch
  | EvGetUser => GetUser
  | EvUpdate _ _ _ _ => Update
  | EvWarn _ => Warn
  | EvError _ _ => LogError
  end.

(** The calls of one invocation, in order. *)
Definition calls (env : Env) (d : gmap jstring (list row)) (request : NextRequest)
  : list Call :=
  call_of <$> trace (run env d request).2.

(** The sequences of calls an invocation can make: the steps of the [try]
    block in the order of the source, cut short by the first that throws,
    which is followed by the [console.error] of the [catch] block. *)
Definition call_sequences : list (list Call) :=
  [ [];
    [CreateClient; LogError];
    [CreateClient; TokenFetch; LogError];
    [CreateClient; TokenFetch; ProfileFetch; LogError];
    [CreateClient; TokenFetch; ProfileFetch; GetUser; LogError];
    [CreateClient; TokenFetch; ProfileFetch; GetUser; Warn];
    [CreateClient; TokenFetch; ProfileFetch; GetUser; Update];
    [CreateClient; TokenFetch; ProfileFetch; GetUser; Update; LogError] ].

(** The characters of the output of [encodeURIComponent]: the unreserved
    ones and the percent sign. *)
Definition is_uri_char (c : N) : bool := uri_unreserved c || (c =? 37)%N.

(** The code units of a JavaScript string are 16-bit numbers. *)
Definition code_units (s : jstring) : bool := forallb (fun c => c <? 65536)%N s.

(** [process.env.NAME] as it lands in a [URLSearchParams]: the text
    [undefined] when the variable is not set. *)
Definition env_text (env : Env) (name : jstring) : jstring :=
  match process_env env name with
  | Some v => v
  | None => lit "undefined"
  end.

(** A callback whose [code] is empty. *)
Definition empty_code_request : NextRequest :=
  callback (lit "http://localhost:3000") [(lit "code", []); (lit "state", lit "xyz")].

(** A callback with both [error] and [code], without [error_description]. *)
Definition error_and_code_request : NextRequest :=
  callback (lit "http://localhost:3000")
    [(lit "code", lit "abc"); (lit "error", lit "user_cancelled_login")].

(** The callback of [code_request] with another [state]. *)
Definition forged_state_request : NextRequest :=
  callback (lit "http://localhost:3000") [(lit "code", lit "abc"); (lit "state", lit "forged")].

(** A token endpoint that answers 200 without [expires_in]. *)
Definition missing_expires_in_env : Env :=
  surroundings (json_response true (JObj [(lit "access_token", JStr (lit "T"))]))
    (json_response true profile_ext123) (inr (Some user_U)) (inr None).

(** A token endpoint that refuses the code without a description. *)
Definition bare_refusal_env : Env :=
  surroundings (json_response false (JObj [(lit "error", JStr (lit "invalid_grant"))]))
    (json_response true profile_ext123) (inr (Some user_U)) (inr None).

(** A token endpoint that answers 502 with a page that is not JSON. *)
Definition bad_gateway_env : Env :=
  surroundings
    (inr {| ok := false;
            json_body := inl (SyntaxError (lit "Unexpected token < in JSON at position 0")) |})
    (json_response true profile_ext123) (inr (Some user_U)) (inr None).

(** A store that refuses the write. *)
Definition permission_denied : JsError :=
  mkError (lit "PostgrestError") (lit "permission denied for table profiles").

Definition store_error_env : Env :=
  surroundings (json_response true token_T) (json_response true profile_ext123)
    (inr (Some user_U)) (inr (Some permission_denied)).

(** The happy answers on a host where no environment variable is set. *)
Definition unconfigured_env : Env :=
  {| process_env := fun _ => None;
     createClient_outcome := createClient_outcome happy_env;
     token_endpoint := token_endpoint happy_env;
     userinfo_endpoint := userinfo_endpoint happy_env;
     now := now happy_env;
     timezone := timezone happy_env;
     StringToInteger := StringToInteger happy_env;
     getUser_outcome := getUser_outcome happy_env;
     update_outcome := update_outcome happy_env |}.

(** The happy answers on a host where the store client cannot be created. *)
Definition no_client_env : Env :=
  {| process_env := process_env happy_env;
     createClient_outcome := Some (Error (lit "supabaseUrl is required."));
     token_endpoint := token_endpoint happy_env;
     userinfo_endpoint := userinfo_endpoint happy_env;
     now := now happy_env;
     timezone := timezone happy_env;
     StringToInteger := StringToInteger happy_env;
     getUser_outcome := getUser_outcome happy_env;
     update_outcome := update_outcome happy_env |}.

(** User ids: a second one, and one with a quote, an unpaired surrogate and
    a backslash. *)
Definition user_id_2 : jstring := lit "user-2".
Definition user_id_odd : jstring := [34; 55296; 92]%N.

End Conduct.
Export Conduct.

(** * Properties *)

(** ** Tactics *)

(** Case analysis on the innermost test of the goal. *)
Ltac split_if :=
  match goal with
  | |- context [if ?b then _ else _] =>
      lazymatch b with
      | context [if _ then _ else _] => fail
      | _ => destruct b eqn:?
      end
  end.

(** Boolean tests on [N] and on [Z] as propositions. *)
Ltac N_tests :=
  rewrite ?orb_true_iff, ?orb_false_iff, ?andb_true_iff, ?andb_false_iff,
    ?N.leb_le, ?N.leb_gt, ?N.ltb_lt, ?N.ltb_ge, ?N.eqb_eq, ?N.eqb_neq in *.

Ltac Z_tests :=
  rewrite ?negb_true_iff, ?negb_false_iff, ?Z.eqb_eq, ?Z.eqb_neq, ?Z.leb_le, ?Z.leb_gt,
    ?Z.ltb_lt, ?Z.ltb_ge in *.

(** Linear arithmetic with division and remainder by constants. *)
Ltac div_lia := zify; Z.to_euclidean_division_equations; lia.

(** Decide the comparisons of the goal by linear arithmetic. *)
Ltac decide_tests :=
  repeat match goal with
         | |- context [?a <? ?b] =>
             first [ replace (a <? b) with true by (symmetry; apply Z.ltb_lt; lia)
                   | replace (a <? b) with false by (symmetry; apply Z.ltb_ge; lia) ]
         | |- context [?a =? ?b] =>
             first [ replace (a =? b) with true by (symmetry; apply Z.eqb_eq; lia)
                   | replace (a =? b) with false by (symmetry; apply Z.eqb_neq; lia) ]
         end.

(** ** The platform functions on examples *)

Example encodeURIComponent_text :
  encodeURIComponent (lit "LinkedIn token exchange failed")
  = Some (lit "LinkedIn%20token%20exchange%20failed").
Proof. reflexivity. Qed.

Example encodeURIComponent_eacute :
  encodeURIComponent [233%N; 8364%N] = Some (lit "%C3%A9%E2%82%AC").
Proof. reflexivity. Qed.

Example encodeURIComponent_lone_surrogate :
  encodeURIComponent [55296%N] = None.
Proof. reflexivity. Qed.

Example ToString_array :
  ToString (JsJson (JArr [JNum 1; JNull; JStr (lit "a"); JArr [JNum (-2); JBool true]]))
  = lit "1,,a,-2,true".
Proof. reflexivity. Qed.

Example iso_text_epoch : iso_text 0 = lit "1970-01-01T00:00:00.000Z".
Proof. reflexivity. Qed.

Example iso_text_2023 : iso_text 1700000000000 = lit "2023-11-14T22:13:20.000Z".
Proof. reflexivity. Qed.

Example iso_text_leap_day : iso_text 951782399999 = lit "2000-02-28T23:59:59.999Z"
  /\ iso_text 951782400000 = lit "2000-02-29T00:00:00.000Z".
Proof. split; reflexivity. Qed.

Example iso_text_before_epoch : iso_text (-1) = lit "1969-12-31T23:59:59.999Z".
Proof. reflexivity. Qed.

Example iso_text_extremes :
  iso_text 8640000000000000 = lit "+275760-09-13T00:00:00.000Z"
  /\ iso_text (-8640000000000000) = lit "-271821-04-20T00:00:00.000Z".
Proof. split; reflexivity. Qed.

(** ** Running the steps *)

Ltac unfold_M :=
  unfold mbind, M_bind, mret, M_ret, bind, ret, throw, ask, emit, lift, modify_db in *;
  cbv beta iota zeta.

Ltac bind_step := unfold mbind at 1, M_bind at 1, bind at 1.

Lemma createClient_run env w :
  createClient env w
  = (match createClient_outcome env with Some e => Thrown e | None => Returned tt end,
     log w EvCreateClient).
Proof. unfold createClient; unfold_M. destruct (createClient_outcome env); reflexivity. Qed.

Lemma fetch_token_run init env w :
  fetch TOKEN_URL init env w
  = (match token_endpoint env with inl e => Thrown e | inr r => Returned r end,
     log w (EvFetch TOKEN_URL init)).
Proof.
  unfold fetch; unfold_M. rewrite decide_True by reflexivity.
  destruct (token_endpoint env); reflexivity.
Qed.

Lemma fetch_userinfo_run init env w :
  fetch USERINFO_URL init env w
  = (match userinfo_endpoint env with inl e => Thrown e | inr r => Returned r end,
     log w (EvFetch USERINFO_URL init)).
Proof.
  unfold fetch; unfold_M. rewrite decide_False by (vm_compute; congruence).
  rewrite decide_True by reflexivity.
  destruct (userinfo_endpoint env); reflexivity.
Qed.

Lemma exchange_code_run origin code env w :
  exchange_code origin code env w
  = (exchange_outcome env, log w (EvFetch TOKEN_URL (token_request env origin code))).
Proof.
  unfold exchange_code, exchange_outcome, Response_json.
  bind_step; unfold ask at 1. bind_step; rewrite fetch_token_run.
  unfold_M.
  destruct (token_endpoint env) as [e|[o [e|td]]];
    cbn [ok json_body negb]; unfold_M; try reflexivity.
  destruct o; cbn [negb]; unfold_M.
  - destruct (get_prop (JsJson td) (lit "access_token")); unfold_M; try reflexivity.
    destruct (get_prop (JsJson td) (lit "expires_in")); unfold_M; reflexivity.
  - destruct (get_prop (JsJson td) (lit "error_description")); unfold_M; reflexivity.
Qed.

Lemma fetch_profile_id_run accessToken env w :
  fetch_profile_id accessToken env w
  = (profile_outcome env, log w (EvFetch USERINFO_URL (userinfo_request accessToken))).
Proof.
  unfold fetch_profile_id, profile_outcome, Response_json.
  bind_step; rewrite fetch_userinfo_run.
  unfold_M.
  destruct (userinfo_endpoint env) as [e|[o [e|td]]];
    cbn [json_body]; unfold_M; try reflexivity.
  destruct (get_prop (JsJson td) (lit "sub")); reflexivity.
Qed.

Lemma update_profile_run a x l env w :
  update_profile a x l env w = update_profile_result a x l env w.
Proof.
  unfold update_profile, update_profile_result, auth_getUser, new_Date,
    from_update_eq, console_warn.
  unfold_M.
  destruct (getUser_outcome env) as [e|[u|]]; try reflexivity.
  unfold_M.
  destruct (toISOString _) as [e|iso]; try reflexivity.
  unfold_M.
  destruct (update_outcome env) as [e|[e|]]; reflexivity.
Qed.

Lemma GET_try_run origin code env w :
  GET_try origin code env w = GET_try_result origin code env w.
Proof.
  unfold GET_try, GET_try_result.
  bind_step; rewrite createClient_run.
  destruct (createClient_outcome env); [reflexivity|].
  bind_step; rewrite exchange_code_run.
  destruct (exchange_outcome env) as [[a x]|e]; [|reflexivity].
  bind_step; rewrite fetch_profile_id_run.
  destruct (profile_outcome env) as [l|e]; [|reflexivity].
  bind_step; rewrite update_profile_run.
  cbv zeta.
  destruct (update_profile_result _ _ _ _ _) as [[[]|e] w4]; reflexivity.
Qed.

Lemma GET_catch_run origin err env w :
  GET_catch origin err env w = GET_catch_result origin err w.
Proof.
  unfold GET_catch, GET_catch_result, console_error, encodeURIComponent_M.
  unfold_M.
  destruct (encodeURIComponent (err_message err)); reflexivity.
Qed.

Lemma GET_run request env w :
  GET request env w =
  let get := searchParams_get (searchParams request) in
  if truthy (get (lit "error")) then
    (Returned (redirect (origin request ++ lit "/#/app/settings?error="
                         ++ ToString (get (lit "error")) ++ lit "&msg="
                         ++ ToString (get (lit "error_description")))), w)
  else if negb (truthy (get (lit "code"))) then
    (Returned (redirect (origin request ++ lit "/#/app/settings?error=missing_code")), w)
  else
    match GET_try_result (origin request) (get (lit "code")) env w with
    | (Returned r, w') => (Returned r, w')
    | (Thrown e, w') => GET_catch_result (origin request) e w'
    end.
Proof.
  unfold GET. cbv zeta.
  destruct (truthy (searchParams_get _ (lit "error"))); [reflexivity|].
  destruct (negb (truthy (searchParams_get _ (lit "code")))); [reflexivity|].
  unfold try_catch. rewrite GET_try_run.
  destruct (GET_try_result _ _ _ _) as [[r|e] w']; [reflexivity|].
  apply GET_catch_run.
Qed.

(** ** Substrings *)

Lemma is_prefix_app p s : is_prefix p (p ++ s) = true.
Proof.
  induction p as [|a p IH]; [reflexivity|].
  cbn. rewrite N.eqb_refl. exact IH.
Qed.

Lemma contains_here sub s : contains (sub ++ s) sub = true.
Proof.
  destruct (sub ++ s) eqn:E; cbn; rewrite <- E, is_prefix_app; reflexivity.
Qed.

Lemma contains_later a s sub : contains s sub = true -> contains (a ++ s) sub = true.
Proof.
  intros H. induction a as [|c a IH]; [exact H|].
  cbn. rewrite IH. apply orb_true_r.
Qed.

(** A text that is put between two others occurs in the whole. *)
Lemma contains_middle a sub c : contains (a ++ sub ++ c) sub = true.
Proof. apply contains_later, contains_here. Qed.

Lemma contains_end a sub : contains (a ++ sub) sub = true.
Proof. rewrite <- (app_nil_r sub) at 1. apply contains_middle. Qed.

(** Every well-formed text can be encoded, and only those. *)
Lemma encodeURIComponent_well_formed s :
  well_formed s = true <-> exists t, encodeURIComponent s = Some t.
Proof.
  remember (length s) as n eqn:Hn.
  revert s Hn. induction (lt_wf n) as [n _ IH]. intros s Hn.
  destruct s as [|c rest]; [split; eauto|].
  cbn [well_formed encodeURIComponent].
  assert (Hrest : well_formed rest = true <-> exists t, encodeURIComponent rest = Some t).
  { apply (IH (length rest)); [subst n; cbn; lia | reflexivity]. }
  assert (Hun : uri_unreserved c = true ->
                is_lead_surrogate c = false /\ is_trail_surrogate c = false).
  { unfold uri_unreserved, is_alnum, in_range, is_lead_surrogate, is_trail_surrogate.
    cbn [existsb]. intros H.
    rewrite !orb_true_iff, !andb_true_iff, !N.leb_le, !N.eqb_eq in H.
    rewrite !andb_false_iff, !N.leb_gt. lia. }
  destruct (uri_unreserved c) eqn:Eu.
  - destruct (Hun eq_refl) as [-> ->].
    rewrite Hrest. split; intros [t Ht].
    + rewrite Ht. eauto.
    + destruct (encodeURIComponent rest); [eauto | discriminate].
  - destruct (is_lead_surrogate c).
    + destruct rest as [|d rest'].
      * split; [discriminate | intros [t Ht]; discriminate].
      * destruct (is_trail_surrogate d); cbn [andb].
        -- assert (Hr' : well_formed rest' = true
                         <-> exists t, encodeURIComponent rest' = Some t).
           { apply (IH (length rest')); [subst n; cbn; lia | reflexivity]. }
           rewrite Hr'. split; intros [t Ht].
           ++ rewrite Ht. eauto.
           ++ destruct (encodeURIComponent rest'); [eauto | discriminate].
        -- split; [discriminate | intros [t Ht]; discriminate].
    + destruct (is_trail_surrogate c).
      * split; [discriminate | intros [t Ht]; discriminate].
      * rewrite Hrest. split; intros [t Ht].
        -- rewrite Ht. eauto.
        -- destruct (encodeURIComponent rest); [eauto | discriminate].
Qed.

(** ** The callback handler *)

(** C5.  A callback whose [error] parameter is [access_denied] is answered
    with a redirect that carries [error=access_denied] and the provider's
    description; the handler calls nothing on the way (no token endpoint, no
    store) and leaves the store as it was. *)
Theorem C5_access_denied_redirect env d request :
  assoc (lit "error") (searchParams request) = Some (lit "access_denied") ->
  let description :=
    ToString (searchParams_get (searchParams request) (lit "error_description")) in
  let url := origin request ++ lit "/#/app/settings?error=access_denied&msg="
             ++ description in
  run env d request = (Returned (redirect url), {| db := d; trace := [] |})
  /\ contains url (lit "error=access_denied") = true
  /\ contains url (lit "msg=" ++ description) = true
  /\ existsb is_token_fetch (trace (run env d request).2) = false
  /\ existsb is_update (trace (run env d request).2) = false
  /\ db (run env d request).2 = d.
Proof.
  intros Herr description url.
  assert (Hrun : run env d request = (Returned (redirect url), {| db := d; trace := [] |})).
  { unfold run. rewrite GET_run. cbv zeta.
    unfold searchParams_get at 1 2. rewrite Herr.
    change (truthy (JsJson (JStr (lit "access_denied")))) with true. cbv iota.
    reflexivity. }
  rewrite Hrun. split; [reflexivity|].
  split.
  { subst url.
    change (lit "/#/app/settings?error=access_denied&msg=")
      with (lit "/#/app/settings?" ++ lit "error=access_denied" ++ lit "&msg=").
    rewrite <- !app_assoc. do 2 apply contains_later. apply contains_here. }
  split.
  { subst url.
    change (lit "/#/app/settings?error=access_denied&msg=")
      with (lit "/#/app/settings?error=access_denied&" ++ lit "msg=").
    rewrite <- !app_assoc. apply contains_later, contains_end. }
  repeat split.
Qed.

Lemma C5_access_denied_redirect_witness :
  run happy_env two_profiles denied_request
  = (Returned (redirect (lit "http://localhost:3000/#/app/settings?error=access_denied&msg=The user denied the request")),
     {| db := two_profiles; trace := [] |}).
Proof.
  apply (C5_access_denied_redirect happy_env two_profiles denied_request).
  reflexivity.
Defined.

Lemma get_prop_not_null j key :
  j <> JNull -> exists v, get_prop (JsJson j) key = inr v.
Proof.
  intros Hj. destruct j; cbn; try congruence; eauto.
  destruct (assoc key fields); eauto.
Qed.

(** C6.  When the token exchange and the profile fetch succeed and the auth
    client finds no user, nothing is written, the warning is logged, and the
    redirect still says [success=true].  The token answer is a valid one: its
    [access_token] and its [expires_in] convert to text ([converts]), so that
    neither the template literal of line 59 nor the sum of line 68 throws. *)
Theorem C6_no_user_still_success env d request tokenData accessToken expiresIn
    profile_ok profileData :
  truthy (searchParams_get (searchParams request) (lit "error")) = false ->
  truthy (searchParams_get (searchParams request) (lit "code")) = true ->
  createClient_outcome env = None ->
  token_endpoint env = json_response true tokenData ->
  get_prop (JsJson tokenData) (lit "access_token") = inr accessToken ->
  converts accessToken = true ->
  get_prop (JsJson tokenData) (lit "expires_in") = inr expiresIn ->
  converts expiresIn = true ->
  userinfo_endpoint env = json_response profile_ok profileData ->
  profileData <> JNull ->
  getUser_outcome env = inr None ->
  exists w,
    run env d request
    = (Returned (redirect (origin request ++ lit "/#/app/settings?success=true")), w)
    /\ contains (origin request ++ lit "/#/app/settings?success=true")
         (lit "success=true") = true
    /\ db w = d
    /\ existsb is_update (trace w) = false
    /\ filter is_warning (trace w) = [EvWarn no_session_warning].
Proof.
  intros Herr Hcode Hcc Htok Ha _ Hx _ Hprof Hpd Huser.
  destruct (get_prop_not_null profileData (lit "sub") Hpd) as [l Hl].
  unfold run. rewrite GET_run. cbv zeta. rewrite Herr, Hcode. cbn [negb].
  unfold GET_try_result, exchange_outcome, profile_outcome, update_profile_result.
  rewrite Hcc, Htok, Hprof, Huser. unfold json_response.
  cbn [ok json_body negb]. rewrite Ha, Hx, Hl. cbv zeta.
  eexists. split; [reflexivity|].
  split.
  { change (lit "/#/app/settings?success=true")
      with (lit "/#/app/settings?" ++ lit "success=true").
    apply contains_later, contains_end. }
  repeat split.
Qed.

Lemma C6_no_user_still_success_witness :
  exists w,
    run no_session_env two_profiles code_request
    = (Returned (redirect (lit "http://localhost:3000/#/app/settings?success=true")), w)
    /\ contains (lit "http://localhost:3000/#/app/settings?success=true")
         (lit "success=true") = true
    /\ db w = two_profiles
    /\ existsb is_update (trace w) = false
    /\ filter is_warning (trace w) = [EvWarn no_session_warning].
Proof.
  apply (C6_no_user_still_success no_session_env two_profiles code_request
           token_T (JsJson (JStr (lit "T"))) (JsJson (JNum 3600)) true profile_ext123);
    solve [reflexivity | discriminate].
Defined.

(** What is thrown inside the [try] block reaches the [catch] block. *)
Lemma run_caught env d request e w :
  truthy (searchParams_get (searchParams request) (lit "error")) = false ->
  truthy (searchParams_get (searchParams request) (lit "code")) = true ->
  GET_try_result (origin request) (searchParams_get (searchParams request) (lit "code"))
    env {| db := d; trace := [] |} = (Thrown e, w) ->
  run env d request = GET_catch_result (origin request) e w.
Proof.
  intros Herr Hcode Htry. unfold run. rewrite GET_run. cbv zeta.
  rewrite Herr, Hcode. cbn [negb]. rewrite Htry. reflexivity.
Qed.

Lemma exchange_failed_in_url a msg :
  contains (a ++ lit "/#/app/settings?error=exchange_failed&msg=" ++ msg)
    (lit "error=exchange_failed") = true.
Proof.
  change (lit "/#/app/settings?error=exchange_failed&msg=")
    with (lit "/#/app/settings?" ++ lit "error=exchange_failed" ++ lit "&msg=").
  rewrite <- !app_assoc. do 2 apply contains_later. apply contains_here.
Qed.

(** A token endpoint that answers with a non-success status makes the
    exchange throw; the message is the provider's description when the body
    has one. *)
Lemma exchange_refused env tokenResponse :
  token_endpoint env = inr tokenResponse ->
  ok tokenResponse = false ->
  exists err,
    exchange_outcome env = Thrown err
    /\ forall fields description,
         json_body tokenResponse = inr (JObj fields) ->
         assoc (lit "error_description") fields = Some (JStr description) ->
         description <> [] ->
         err_message err = description.
Proof.
  intros Htok Hok. unfold exchange_outcome. rewrite Htok, Hok. cbn [negb].
  destruct (json_body tokenResponse) as [e|tokenData].
  - exists e. split; [reflexivity|]. intros; discriminate.
  - destruct (get_prop (JsJson tokenData) (lit "error_description")) as [e|v] eqn:Eg.
    + exists e. split; [reflexivity|].
      intros fields description [= ->] Hd _. cbn in Eg. rewrite Hd in Eg. discriminate.
    + eexists. split; [reflexivity|].
      intros fields description [= ->] Hd Hne. cbn in Eg. rewrite Hd in Eg.
      injection Eg as <-. destruct description; [congruence | reflexivity].
Qed.

(** C3, as the code has it.  A non-success answer of the token endpoint ends
    the invocation without any write; the redirect says
    [error=exchange_failed] and its [msg] is the encoded message of the error,
    which is the provider's [error_description] when the body carries one.
    (A success answer whose body lacks [access_token] is not checked for.) *)
Theorem C3_refused_exchange env d request tokenResponse :
  truthy (searchParams_get (searchParams request) (lit "error")) = false ->
  truthy (searchParams_get (searchParams request) (lit "code")) = true ->
  createClient_outcome env = None ->
  token_endpoint env = inr tokenResponse ->
  ok tokenResponse = false ->
  exists err,
    exchange_outcome env = Thrown err
    /\ (forall fields description,
          json_body tokenResponse = inr (JObj fields) ->
          assoc (lit "error_description") fields = Some (JStr description) ->
          description <> [] ->
          err_message err = description)
    /\ db (run env d request).2 = d
    /\ existsb is_update (trace (run env d request).2) = false
    /\ forall msg,
         encodeURIComponent (err_message err) = Some msg ->
         let url := origin request ++ lit "/#/app/settings?error=exchange_failed&msg="
                    ++ msg in
         (run env d request).1 = Returned (redirect url)
         /\ contains url (lit "error=exchange_failed") = true.
Proof.
  intros Herr Hcode Hcc Htok Hok.
  destruct (exchange_refused env tokenResponse Htok Hok) as (err & Hex & Hmsg).
  exists err. split; [exact Hex|]. split; [exact Hmsg|].
  rewrite (run_caught env d request err
             (log (log {| db := d; trace := [] |} EvCreateClient)
                (EvFetch TOKEN_URL
                   (token_request env (origin request)
                      (searchParams_get (searchParams request) (lit "code")))))
             Herr Hcode).
  2:{ unfold GET_try_result. rewrite Hcc. cbv zeta. rewrite Hex. reflexivity. }
  unfold GET_catch_result. cbn [fst snd].
  split; [reflexivity|]. split; [reflexivity|].
  intros msg Hmsg'. cbv zeta. rewrite Hmsg'. split; [reflexivity|].
  apply exchange_failed_in_url.
Qed.

Lemma C3_refused_exchange_witness :
  exists err,
    exchange_outcome refused_env = Thrown err
    /\ err_message err = lit "Unable to retrieve access token"
    /\ db (run refused_env two_profiles code_request).2 = two_profiles
    /\ existsb is_update (trace (run refused_env two_profiles code_request).2) = false
    /\ (run refused_env two_profiles code_request).1
       = Returned (redirect (lit "http://localhost:3000/#/app/settings?error=exchange_failed&msg=Unable%20to%20retrieve%20access%20token")).
Proof.
  destruct (C3_refused_exchange refused_env two_profiles code_request
              {| ok := false; json_body := inr invalid_grant |}
              eq_refl eq_refl eq_refl eq_refl eq_refl)
    as (err & Hex & Hdesc & Hdb & Hupd & Hurl).
  exists err. split; [exact Hex|].
  assert (Hm : err_message err = lit "Unable to retrieve access token").
  { apply (Hdesc _ _ eq_refl eq_refl). discriminate. }
  split; [exact Hm|]. split; [exact Hdb|]. split; [exact Hupd|].
  apply (Hurl (lit "Unable%20to%20retrieve%20access%20token")).
  rewrite Hm. reflexivity.
Defined.

(** C3, as stated, fails: a success answer of the token endpoint whose body
    has no [access_token] does not stop the handler.  It goes on to the profile
    fetch, writes the record and redirects with [success=true]. *)
Lemma C3_missing_access_token_continues :
  token_endpoint missing_access_token_env
  = json_response true (JObj [(lit "expires_in", JNum 3600)])
  /\ get_prop (JsJson (JObj [(lit "expires_in", JNum 3600)])) (lit "access_token")
     = inr JsUndefined
  /\ (run missing_access_token_env two_profiles code_request).1
     = Returned (redirect (lit "http://localhost:3000/#/app/settings?success=true"))
  /\ contains (lit "http://localhost:3000/#/app/settings?success=true")
       (lit "error=exchange_failed") = false
  /\ existsb is_update (trace (run missing_access_token_env two_profiles code_request).2)
     = true
  /\ db (run missing_access_token_env two_profiles code_request).2 <> two_profiles.
Proof.
  repeat split; try (vm_compute; reflexivity).
  intros H.
  apply (f_equal (fun m => (fun rows => (fun r : row => r !! lit "linkedin_connected")
                                           <$> rows) <$> (m !! lit "profiles"))) in H.
  vm_compute in H. discriminate.
Qed.

(** The token exchange succeeds on a success answer whose body is not [null]. *)
Lemma exchange_succeeds env tokenData :
  token_endpoint env = json_response true tokenData ->
  tokenData <> JNull ->
  exists accessToken expiresIn,
    get_prop (JsJson tokenData) (lit "access_token") = inr accessToken
    /\ get_prop (JsJson tokenData) (lit "expires_in") = inr expiresIn
    /\ exchange_outcome env = Returned (accessToken, expiresIn).
Proof.
  intros Htok Htd.
  destruct (get_prop_not_null tokenData (lit "access_token") Htd) as [a Ha].
  destruct (get_prop_not_null tokenData (lit "expires_in") Htd) as [x Hx].
  exists a, x. split; [exact Ha|]. split; [exact Hx|].
  unfold exchange_outcome. rewrite Htok. unfold json_response.
  cbn [ok json_body negb]. rewrite Ha, Hx. reflexivity.
Qed.

(** C4, as the code has it.  When the profile endpoint has been asked (the
    [access_token] of the token answer converts to text, so that the template
    literal of line 59 does not throw) and the body of its answer cannot be
    read as JSON, or is [null], the invocation ends in the [catch] block:
    nothing is written, and the redirect says [error=exchange_failed] with the
    message of that failure.  (An object without [sub] is not treated as a
    failure.) *)
Theorem C4_unreadable_profile env d request tokenData accessToken profileResponse :
  truthy (searchParams_get (searchParams request) (lit "error")) = false ->
  truthy (searchParams_get (searchParams request) (lit "code")) = true ->
  createClient_outcome env = None ->
  token_endpoint env = json_response true tokenData ->
  get_prop (JsJson tokenData) (lit "access_token") = inr accessToken ->
  converts accessToken = true ->
  userinfo_endpoint env = inr profileResponse ->
  (exists e, json_body profileResponse = inl e) \/ json_body profileResponse = inr JNull ->
  exists err,
    profile_outcome env = Thrown err
    /\ (json_body profileResponse = inr JNull ->
        err = TypeError (lit "Cannot read properties of null (reading 'sub')"))
    /\ (forall e, json_body profileResponse = inl e -> err = e)
    /\ db (run env d request).2 = d
    /\ existsb is_update (trace (run env d request).2) = false
    /\ forall msg,
         encodeURIComponent (err_message err) = Some msg ->
         let url := origin request ++ lit "/#/app/settings?error=exchange_failed&msg="
                    ++ msg in
         (run env d request).1 = Returned (redirect url)
         /\ contains url (lit "error=exchange_failed") = true.
Proof.
  intros Herr Hcode Hcc Htok Hat _ Hprof Hbody.
  assert (Htd : tokenData <> JNull) by (intros ->; discriminate Hat).
  destruct (exchange_succeeds env tokenData Htok Htd) as (a & x & _ & _ & Hex).
  assert (Hout : exists err,
             profile_outcome env = Thrown err
             /\ (json_body profileResponse = inr JNull ->
                 err = TypeError (lit "Cannot read properties of null (reading 'sub')"))
             /\ (forall e, json_body profileResponse = inl e -> err = e)).
  { unfold profile_outcome. rewrite Hprof.
    destruct Hbody as [[e He] | Hnull].
    - rewrite He. exists e. split; [reflexivity|].
      split; [discriminate | intros e' [= ->]; reflexivity].
    - rewrite Hnull. eexists. split; [reflexivity|].
      split; [reflexivity | discriminate]. }
  destruct Hout as (err & Hout & Hnull & Hrej).
  exists err. split; [exact Hout|]. split; [exact Hnull|]. split; [exact Hrej|].
  rewrite (run_caught env d request err
             (log (log (log {| db := d; trace := [] |} EvCreateClient)
                     (EvFetch TOKEN_URL
                        (token_request env (origin request)
                           (searchParams_get (searchParams request) (lit "code")))))
                (EvFetch USERINFO_URL (userinfo_request a)))
             Herr Hcode).
  2:{ unfold GET_try_result. rewrite Hcc. cbv zeta. rewrite Hex, Hout. reflexivity. }
  unfold GET_catch_result. cbn [fst snd].
  split; [reflexivity|]. split; [reflexivity|].
  intros msg Hmsg'. cbv zeta. rewrite Hmsg'. split; [reflexivity|].
  apply exchange_failed_in_url.
Qed.

Lemma C4_unreadable_profile_witness :
  profile_outcome unreadable_profile_env
  = Thrown (SyntaxError (lit "Unexpected token < in JSON at position 0"))
  /\ db (run unreadable_profile_env two_profiles code_request).2 = two_profiles
  /\ existsb is_update (trace (run unreadable_profile_env two_profiles code_request).2)
     = false
  /\ (run unreadable_profile_env two_profiles code_request).1
     = Returned (redirect (lit "http://localhost:3000/#/app/settings?error=exchange_failed&msg=Unexpected%20token%20%3C%20in%20JSON%20at%20position%200")).
Proof.
  destruct (C4_unreadable_profile unreadable_profile_env two_profiles code_request
              token_T (JsJson (JStr (lit "T")))
              {| ok := false;
                 json_body :=
                   inl (SyntaxError (lit "Unexpected token < in JSON at position 0")) |}
              eq_refl eq_refl eq_refl eq_refl eq_refl eq_refl eq_refl
              (or_introl (ex_intro _ _ eq_refl)))
    as (err & Hout & _ & Hrej & Hdb & Hupd & Hurl).
  rewrite (Hrej _ eq_refl) in Hout, Hurl.
  split; [exact Hout|]. split; [exact Hdb|]. split; [exact Hupd|].
  apply (Hurl (lit "Unexpected%20token%20%3C%20in%20JSON%20at%20position%200")).
  reflexivity.
Defined.

(** C4, as stated, fails: a profile answer that is an object without [sub]
    does not end in [exchange_failed].  The handler goes on, writes the record
    (without a profile id) and redirects with [success=true]. *)
Lemma C4_missing_sub_continues :
  userinfo_endpoint missing_sub_env = json_response true (JObj [])
  /\ get_prop (JsJson (JObj [])) (lit "sub") = inr JsUndefined
  /\ (run missing_sub_env two_profiles code_request).1
     = Returned (redirect (lit "http://localhost:3000/#/app/settings?success=true"))
  /\ contains (lit "http://localhost:3000/#/app/settings?success=true")
       (lit "error=exchange_failed") = false
  /\ filter is_update (trace (run missing_sub_env two_profiles code_request).2)
     = [EvUpdate (lit "profiles")
          [(lit "linkedin_token", JsJson (JStr (lit "T")));
           (lit "linkedin_profile_id", JsUndefined);
           (lit "linkedin_connected", JsJson (JBool true));
           (lit "linkedin_token_expires_at", JsJson (JStr (lit "2023-11-14T23:13:20.000Z")))]
          (lit "user_id") (lit "U")].
Proof. repeat split; vm_compute; reflexivity. Qed.

(** ** The anatomy of a run *)

Ltac in_trace H :=
  repeat (apply elem_of_cons in H as [-> | H]); [.. | apply elem_of_nil in H; contradiction].

(** Every call in the trace of a run, and the store it leaves, are explained
    by what the surroundings answered. *)
Lemma run_anatomy env d request :
  (forall e, e ∈ trace (run env d request).2 -> event_explained env request e)
  /\ store_explained env d (db (run env d request).2).
Proof.
  unfold run. rewrite GET_run. cbv zeta.
  destruct (truthy (searchParams_get _ (lit "error"))).
  { split; [intros ev Hev; apply elem_of_nil in Hev; contradiction | left; reflexivity]. }
  destruct (negb (truthy (searchParams_get _ (lit "code")))).
  { split; [intros ev Hev; apply elem_of_nil in Hev; contradiction | left; reflexivity]. }
  unfold GET_try_result, update_profile_result, GET_catch_result, store_explained.
  cbv zeta.
  destruct (createClient_outcome env);
  [| destruct (exchange_outcome env) as [[a x]|?] eqn:Hex;
     [ destruct (profile_outcome env) as [l|?] eqn:Hpo;
       [ destruct (getUser_outcome env) as [?|[u|]] eqn:Hu;
         [ | destruct (toISOString (expiry env (now env) x)) as [?|iso] eqn:Hiso;
             [ | destruct (update_outcome env) as [?|[?|]] eqn:Hupd ] | ] | ] | ] ];
  cbn [trace db log fst snd app];
  (split;
   [ intros ev Hev; in_trace Hev; cbn [event_explained]; auto;
     solve [ right; eauto | eauto 20 ]
   | first [ left; reflexivity | right; rewrite <- ?Hex, <- ?Hpo, <- ?Hu; eauto 20 ] ]).
Qed.

(** ** Dates *)

Lemma DayFromYear_step y : DayFromYear (y + 1) = DayFromYear y + DaysInYear y.
Proof.
  unfold DayFromYear, DaysInYear.
  repeat match goal with
         | |- context [if ?b then _ else _] => destruct b eqn:?
         end;
  rewrite ?negb_true_iff, ?negb_false_iff, ?Z.eqb_eq, ?Z.eqb_neq in *;
  Z.to_euclidean_division_equations; lia.
Qed.


Lemma civil_year days :
  let '(y, m, d) := civil_from_days days in
  DayFromYear y <= days < DayFromYear (y + 1).
Proof.
  unfold civil_from_days. cbv zeta.
  set (z := days + 719468).
  set (era := z / 146097).
  set (doe := z - era * 146097).
  set (yoe := (doe - doe / 1460 + doe / 36524 - doe / 146096) / 365).
  set (doy := doe - (365 * yoe + yoe / 4 - yoe / 100)).
  set (mp := (5 * doy + 2) / 153).
  assert (Hdoe : 0 <= doe <= 146096) by (subst doe era; Z.to_euclidean_division_equations; lia).
  assert (Hyoe : 0 <= yoe <= 399) by (subst yoe; Z.to_euclidean_division_equations; lia).
  assert (Hdoy : 0 <= doy <= 365) by (subst doy yoe; Z.to_euclidean_division_equations; lia).
  assert (Hdoy' : doy = 365 -> yoe mod 4 = 3 /\ (yoe mod 100 <> 99 \/ yoe = 399))
    by (subst doy yoe; Z.to_euclidean_division_equations; lia).
  assert (Hdays : days = era * 146097 + 365 * yoe + yoe / 4 - yoe / 100 + doy - 719468)
    by (subst doy doe z; lia).
  clearbody doy yoe era. clear z doe Hdoe.
  rewrite DayFromYear_step. unfold DayFromYear, DaysInYear. subst mp.
  repeat split_if;
  rewrite ?negb_true_iff, ?negb_false_iff, ?Z.eqb_eq, ?Z.eqb_neq, ?Z.leb_le, ?Z.leb_gt, ?Z.ltb_lt, ?Z.ltb_ge in *;
  Z.to_euclidean_division_equations; lia.
Qed.


(** The day within the year, for a date from March on. *)
Lemma day_within_year_from_march era yoe doy :
  0 <= yoe <= 399 ->
  era * 146097 + 365 * yoe + yoe / 4 - yoe / 100 + doy - 719468
  - DayFromYear (yoe + era * 400)
  = doy + 59 + InLeapYear (yoe + era * 400).
Proof.
  intros Hyoe. unfold InLeapYear, DaysInYear, DayFromYear.
  repeat split_if; Z_tests; Z.to_euclidean_division_equations; lia.
Qed.

(** The day within the year, for a date in January or February. *)
Lemma day_within_year_before_march era yoe doy :
  0 <= yoe <= 399 ->
  era * 146097 + 365 * yoe + yoe / 4 - yoe / 100 + doy - 719468
  - DayFromYear (yoe + era * 400 + 1)
  = doy - 306.
Proof.
  intros Hyoe. unfold DayFromYear.
  Z.to_euclidean_division_equations; lia.
Qed.


Ltac month_cases Hdoy :=
  match type of Hdoy with
  | ?a <= _ < ?b =>
      let a' := eval vm_compute in a in
      let b' := eval vm_compute in b in
      change a with a' in *; change b with b' in Hdoy
  end;
  unfold DateFromDay, MonthFromDay; decide_tests; cbv iota; decide_tests; cbv iota;
  split; lia.

Lemma month_table mp doy leap :
  0 <= mp <= 9 -> (153 * mp + 2) / 5 <= doy < (153 * (mp + 1) + 2) / 5 ->
  0 <= leap <= 1 ->
  MonthFromDay (doy + 59 + leap) leap = mp + 2
  /\ DateFromDay (doy + 59 + leap) leap = doy - (153 * mp + 2) / 5 + 1.
Proof.
  intros Hmp Hdoy Hleap.
  assert (Hcases : mp = 0 \/ mp = 1 \/ mp = 2 \/ mp = 3 \/ mp = 4 \/ mp = 5 \/ mp = 6
                   \/ mp = 7 \/ mp = 8 \/ mp = 9) by lia.
  decompose [or] Hcases; subst mp; clear Hcases Hmp; month_cases Hdoy.
Qed.

Lemma month_table_start mp doy leap :
  10 <= mp <= 11 -> (153 * mp + 2) / 5 <= doy < (153 * (mp + 1) + 2) / 5 ->
  0 <= leap <= 1 -> doy - 306 < 59 + leap ->
  MonthFromDay (doy - 306) leap = mp - 10
  /\ DateFromDay (doy - 306) leap = doy - (153 * mp + 2) / 5 + 1.
Proof.
  intros Hmp Hdoy Hleap Hfeb.
  assert (Hcases : mp = 10 \/ mp = 11) by lia.
  decompose [or] Hcases; subst mp; clear Hcases Hmp; month_cases Hdoy.
Qed.

Lemma InLeapYear_bounds y : 0 <= InLeapYear y <= 1.
Proof. unfold InLeapYear. split_if; lia. Qed.

Lemma leap_after_long_year era yoe :
  0 <= yoe <= 399 -> yoe mod 4 = 3 -> yoe mod 100 <> 99 \/ yoe = 399 ->
  InLeapYear (yoe + era * 400 + 1) = 1.
Proof.
  intros Hyoe H4 H100. unfold InLeapYear, DaysInYear.
  repeat split_if; Z_tests; try reflexivity; Z.to_euclidean_division_equations; lia.
Qed.

(** [civil_from_days] computes the year, month and day of ECMA-262:
    the year is the one the day falls in ([YearFromTime]), month and day of the
    month are those of the tables of [MonthFromTime] and [DateFromTime]. *)
Theorem civil_from_days_ecma days :
  let '(y, m, d) := civil_from_days days in
  DayFromYear y <= days < DayFromYear (y + 1)
  /\ MonthFromDay (days - DayFromYear y) (InLeapYear y) = m - 1
  /\ DateFromDay (days - DayFromYear y) (InLeapYear y) = d.
Proof.
  pose proof (civil_year days) as Hyear. revert Hyear.
  unfold civil_from_days. cbv zeta.
  set (z := days + 719468).
  set (era := z / 146097).
  set (doe := z - era * 146097).
  set (yoe := (doe - doe / 1460 + doe / 36524 - doe / 146096) / 365).
  set (doy := doe - (365 * yoe + yoe / 4 - yoe / 100)).
  set (mp := (5 * doy + 2) / 153).
  assert (Hdoe : 0 <= doe <= 146096) by (subst doe era; Z.to_euclidean_division_equations; lia).
  assert (Hyoe : 0 <= yoe <= 399) by (subst yoe; Z.to_euclidean_division_equations; lia).
  assert (Hdoy : 0 <= doy <= 365) by (subst doy yoe; Z.to_euclidean_division_equations; lia).
  assert (Hdoy' : doy = 365 -> yoe mod 4 = 3 /\ (yoe mod 100 <> 99 \/ yoe = 399))
    by (subst doy yoe; Z.to_euclidean_division_equations; lia).
  assert (Hdays : days = era * 146097 + 365 * yoe + yoe / 4 - yoe / 100 + doy - 719468)
    by (subst doy doe z; lia).
  clearbody doy yoe era. clear z doe Hdoe.
  assert (Hmp : 0 <= mp <= 11) by (subst mp; Z.to_euclidean_division_equations; lia).
  assert (Hd : (153 * mp + 2) / 5 <= doy < (153 * (mp + 1) + 2) / 5)
    by (subst mp; Z.to_euclidean_division_equations; lia).
  clearbody mp.
  intros Hyear. split; [exact Hyear|]. clear Hyear.
  destruct (mp <? 10) eqn:Hlt; Z_tests.
  - replace (mp + 3 <=? 2) with false by (symmetry; apply Z.leb_gt; lia).
    rewrite Z.add_0_r. rewrite Hdays at 1 2.
    rewrite day_within_year_from_march by exact Hyoe.
    destruct (month_table mp doy (InLeapYear (yoe + era * 400)) ltac:(lia) Hd
                (InLeapYear_bounds _)) as [-> ->].
    split; lia.
  - replace (mp - 9 <=? 2) with true by (symmetry; apply Z.leb_le; lia).
    rewrite Hdays at 1 2.
    rewrite day_within_year_before_march by exact Hyoe.
    assert (Hfeb : doy - 306 < 59 + InLeapYear (yoe + era * 400 + 1)).
    { pose proof (InLeapYear_bounds (yoe + era * 400 + 1)).
      destruct (Z.eq_dec doy 365) as [E|E]; [|lia].
      destruct (Hdoy' E) as [H4 H100].
      rewrite leap_after_long_year by assumption. lia. }
    destruct (month_table_start mp doy (InLeapYear (yoe + era * 400 + 1)) ltac:(lia) Hd
                (InLeapYear_bounds _) Hfeb) as [-> ->].
    split; lia.
Qed.

(** Adding seconds through the seconds field of the local time adds them to
    the local time value. *)
Lemma MakeDate_add_seconds lt n :
  MakeDate (Day lt)
    (MakeTime (HourFromTime lt) (MinFromTime lt) (SecFromTime lt + n) (msFromTime lt))
  = lt + n * 1000.
Proof.
  unfold MakeDate, MakeTime, Day, HourFromTime, MinFromTime, SecFromTime, msFromTime,
    msPerDay, msPerHour, msPerMinute, msPerSecond.
  pose proof (Z.div_mod lt 86400000 ltac:(lia)) as Hd.
  pose proof (Z.mod_pos_bound lt 86400000 ltac:(lia)) as Hdb.
  pose proof (Z.div_mod lt 3600000 ltac:(lia)) as Hh.
  pose proof (Z.mod_pos_bound lt 3600000 ltac:(lia)) as Hhb.
  pose proof (Z.div_mod lt 60000 ltac:(lia)) as Hm.
  pose proof (Z.mod_pos_bound lt 60000 ltac:(lia)) as Hmb.
  pose proof (Z.div_mod lt 1000 ltac:(lia)) as Hs.
  pose proof (Z.mod_pos_bound lt 1000 ltac:(lia)) as Hsb.
  pose proof (Z.div_mod (lt / 3600000) 24 ltac:(lia)) as Hh'.
  pose proof (Z.mod_pos_bound (lt / 3600000) 24 ltac:(lia)) as Hhb'.
  pose proof (Z.div_mod (lt / 60000) 60 ltac:(lia)) as Hm'.
  pose proof (Z.mod_pos_bound (lt / 60000) 60 ltac:(lia)) as Hmb'.
  pose proof (Z.div_mod (lt / 1000) 60 ltac:(lia)) as Hs'.
  pose proof (Z.mod_pos_bound (lt / 1000) 60 ltac:(lia)) as Hsb'.
  lia.
Qed.

(** With a steady offset, [setSeconds(getSeconds() + n)] moves the date by
    [n] seconds, unless that leaves the range of time values. *)
Lemma expiry_number env n :
  steady_offset env n ->
  expiry env (now env) (JsJson (JNum n)) = TimeClip (now env + n * 1000).
Proof.
  unfold steady_offset, expiry, setSeconds, getSeconds, js_add, ToInteger. intros Hsteady.
  rewrite MakeDate_add_seconds. unfold UTC, LocalTime in *.
  rewrite Hsteady. f_equal. lia.
Qed.

Lemma TimeClip_Some t u : TimeClip t = Some u -> u = t.
Proof. unfold TimeClip. destruct (Z.abs t <=? _); congruence. Qed.

Lemma toISOString_inr dt iso :
  toISOString dt = inr iso -> exists t, dt = Some t /\ iso = iso_text t.
Proof. destruct dt as [t|]; cbn; [intros [= <-]; eauto | discriminate]. Qed.

(** Without a steady offset the sum is not the one expected: created at
    01:30 local time on the night the clocks go back in New York, the expiry
    of a token of 3600 seconds is two hours later, not one. *)
Example expiry_across_a_change_of_offset :
  expiry fall_back_env (now fall_back_env) (JsJson (JNum 3600))
  = Some (now fall_back_env + 7200 * 1000)
  /\ iso_text (now fall_back_env) = lit "2026-11-01T05:30:00.000Z"
  /\ iso_text (now fall_back_env + 7200 * 1000) = lit "2026-11-01T07:30:00.000Z".
Proof. repeat split; reflexivity. Qed.

(** ** Faults that leave the handler *)

(** C9: the claim fails on the code.  A refusal of the token endpoint whose
    [error_description] holds an unpaired surrogate is thrown as an [Error],
    caught, and then [encodeURIComponent] throws in the [catch] block: the
    invocation ends with a [URIError] instead of a redirect. *)
Theorem C9_uri_error_leaves_handler :
  exchange_outcome lone_surrogate_env = Thrown (Error [55296%N])
  /\ encodeURIComponent [55296%N] = None
  /\ (run lone_surrogate_env two_profiles code_request).1
     = Thrown (URIError (lit "URI malformed")).
Proof. repeat split; vm_compute; reflexivity. Qed.

(** Apart from that, the handler always answers with a redirect: the only
    fault that can leave it is the [URIError] of the [catch] block, for an
    error whose message is not well formed. *)
Lemma run_redirects_or_uri_error env d request :
  (exists r, (run env d request).1 = Returned r)
  \/ ((run env d request).1 = Thrown (URIError (lit "URI malformed"))
      /\ exists err w,
           GET_try_result (origin request)
             (searchParams_get (searchParams request) (lit "code")) env
             {| db := d; trace := [] |} = (Thrown err, w)
           /\ well_formed (err_message err) = false).
Proof.
  unfold run. rewrite GET_run. cbv zeta.
  destruct (truthy (searchParams_get _ (lit "error"))); [left; eauto|].
  destruct (negb (truthy (searchParams_get _ (lit "code")))); [left; eauto|].
  destruct (GET_try_result _ _ _ _) as [[r|err] w]; [left; eauto|].
  unfold GET_catch_result. cbn [fst].
  destruct (encodeURIComponent (err_message err)) as [msg|] eqn:Henc; [left; eauto|].
  right. split; [reflexivity|]. exists err, w. split; [reflexivity|].
  destruct (well_formed (err_message err)) eqn:Hwf; [|reflexivity].
  apply encodeURIComponent_well_formed in Hwf as [t Ht]. congruence.
Qed.

(** ** The record the handler writes *)

Lemma exchange_outcome_returned env accessToken expiresIn :
  exchange_outcome env = Returned (accessToken, expiresIn) ->
  exists tokenData,
    token_body env tokenData
    /\ get_prop (JsJson tokenData) (lit "access_token") = inr accessToken
    /\ get_prop (JsJson tokenData) (lit "expires_in") = inr expiresIn.
Proof.
  unfold exchange_outcome, token_body.
  destruct (token_endpoint env) as [e|[o [e|td]]]; cbn [ok json_body]; try discriminate.
  destruct o; cbn [negb].
  - destruct (get_prop (JsJson td) (lit "access_token")) as [e|a] eqn:Ha; [discriminate|].
    destruct (get_prop (JsJson td) (lit "expires_in")) as [e|x] eqn:Hx; [discriminate|].
    intros [= <- <-]. exists td.
    split; [exists {| ok := true; json_body := inr td |}; repeat split|].
    split; [exact Ha | exact Hx].
  - destruct (get_prop (JsJson td) (lit "error_description")); discriminate.
Qed.

Lemma profile_outcome_returned env linkedinId :
  profile_outcome env = Returned linkedinId ->
  exists profileData,
    profile_body env profileData
    /\ get_prop (JsJson profileData) (lit "sub") = inr linkedinId.
Proof.
  unfold profile_outcome, profile_body.
  destruct (userinfo_endpoint env) as [e|[o [e|pd]]]; cbn [json_body]; try discriminate.
  destruct (get_prop (JsJson pd) (lit "sub")) as [e|l] eqn:Hl; [discriminate|].
  intros [= <-]. exists pd.
  split; [exists {| ok := o; json_body := inr pd |}; repeat split | exact Hl].
Qed.

(** C2, as the code has it.  Every record the handler writes goes to the
    profile rows of the user the auth client found, is marked connected, holds
    as token and profile id whatever [access_token] and [sub] the two bodies
    had (nothing checks that they are non-empty strings, or there at all), and
    holds as expiry the ISO text of a valid time value; for an integer
    [expires_in] and a steady local offset that time value is the clock
    reading plus [expires_in] seconds. *)
Theorem C2_written_record env d request table payload column value :
  EvUpdate table payload column value ∈ trace (run env d request).2 ->
  exists tokenData profileData accessToken expiresIn linkedinId u expiresAt,
    token_body env tokenData
    /\ get_prop (JsJson tokenData) (lit "access_token") = inr accessToken
    /\ get_prop (JsJson tokenData) (lit "expires_in") = inr expiresIn
    /\ profile_body env profileData
    /\ get_prop (JsJson profileData) (lit "sub") = inr linkedinId
    /\ getUser_outcome env = inr (Some u)
    /\ table = lit "profiles" /\ column = lit "user_id" /\ value = id u
    /\ payload = [ (lit "linkedin_token", accessToken);
                   (lit "linkedin_profile_id", linkedinId);
                   (lit "linkedin_connected", JsJson (JBool true));
                   (lit "linkedin_token_expires_at", JsJson (JStr (iso_text expiresAt))) ]
    /\ expiry env (now env) expiresIn = Some expiresAt
    /\ forall n, expiresIn = JsJson (JNum n) -> steady_offset env n ->
                 expiresAt = now env + n * 1000.
Proof.
  intros Hin.
  destruct (run_anatomy env d request) as [Hev _].
  specialize (Hev _ Hin). cbn [event_explained] in Hev.
  destruct Hev as (a & x & l & u & iso & Hex & Hpo & Hu & Hiso & -> & -> & -> & ->).
  destruct (exchange_outcome_returned env a x Hex) as (td & Htd & Ha & Hx).
  destruct (profile_outcome_returned env l Hpo) as (pd & Hpd & Hl).
  destruct (toISOString_inr _ _ Hiso) as (t & Ht & ->).
  exists td, pd, a, x, l, u, t.
  repeat (split; [first [assumption | reflexivity]|]).
  intros n -> Hsteady. rewrite expiry_number in Ht by exact Hsteady.
  apply TimeClip_Some in Ht. exact Ht.
Qed.

Lemma C2_written_record_witness :
  exists expiresAt,
    expiry happy_env (now happy_env) (JsJson (JNum 3600)) = Some expiresAt
    /\ expiresAt = 1700000000000 + 3600 * 1000
    /\ iso_text expiresAt = lit "2023-11-14T23:13:20.000Z".
Proof.
  assert (Hin : EvUpdate (lit "profiles")
                  (update_payload (JsJson (JStr (lit "T"))) (JsJson (JStr (lit "ext-123")))
                     (lit "2023-11-14T23:13:20.000Z"))
                  (lit "user_id") (lit "U")
                ∈ trace (run happy_env two_profiles code_request).2).
  { vm_compute. do 4 apply list_elem_of_further. apply list_elem_of_here. }
  destruct (C2_written_record _ _ _ _ _ _ _ Hin)
    as (td & pd & a & x & l & u & t & Htd & Ha & Hx & _ & _ & _ & _ & _ & _ & _ & Hexp & Hnum).
  destruct Htd as (r & Hr & _ & Hbody).
  injection Hr as <-. injection Hbody as <-.
  injection Hx as <-.
  exists t.
  assert (Ht : t = 1700000000000 + 3600 * 1000).
  { apply (Hnum 3600 eq_refl). reflexivity. }
  split; [exact Hexp|]. split; [exact Ht|]. rewrite Ht. reflexivity.
Defined.

(** C2, as stated, fails: when the token endpoint answers 200 without
    [access_token], the record is written and marked connected although its
    token is [undefined]; the row of the user ends up connected with no token. *)
Lemma C2_connected_without_token :
  filter is_update (trace (run missing_access_token_env two_profiles code_request).2)
  = [EvUpdate (lit "profiles")
       [ (lit "linkedin_token", JsUndefined);
         (lit "linkedin_profile_id", JsJson (JStr (lit "ext-123")));
         (lit "linkedin_connected", JsJson (JBool true));
         (lit "linkedin_token_expires_at", JsJson (JStr (lit "2023-11-14T23:13:20.000Z"))) ]
       (lit "user_id") (lit "U")]
  /\ populated JsUndefined = false
  /\ (fun rows : list row =>
        (fun r : row => (r !! lit "user_id", r !! lit "linkedin_connected",
                         r !! lit "linkedin_token")) <$> rows)
       <$> (db (run missing_access_token_env two_profiles code_request).2 !! lit "profiles")
     = Some [ (Some (JStr (lit "U")), Some (JBool true), None);
              (Some (JStr (lit "V")), None, Some (JStr (lit "token of V"))) ].
Proof. repeat split; vm_compute; reflexivity. Qed.

(** ** The frame of the write *)

Lemma apply_patch_lookup_ne (fields : list (jstring * json)) (r : row) (column : jstring) :
  column ∉ fields.*1 -> apply_patch fields r !! column = r !! column.
Proof.
  unfold apply_patch. revert r.
  induction fields as [|[k v] fields IH]; intros r Hnotin; [reflexivity|].
  cbn [foldl fst snd]. cbn [fmap list_fmap fst] in Hnotin.
  apply not_elem_of_cons in Hnotin as [Hne Hnotin].
  rewrite IH by exact Hnotin.
  apply lookup_insert_ne. congruence.
Qed.

Lemma JSON_fields_keys (payload : list (jstring * jsval)) (k : jstring) :
  k ∈ (JSON_fields payload).*1 -> k ∈ payload.*1.
Proof.
  unfold JSON_fields.
  induction payload as [|[k' v] payload IH]; cbn [flat_map fmap list_fmap fst snd app].
  - intros H. exact H.
  - destruct v as [|j|name]; cbn [app fmap list_fmap fst].
    + intros H. right. exact (IH H).
    + intros H. apply elem_of_cons in H as [-> | H]; [left | right; exact (IH H)].
    + intros H. right. exact (IH H).
Qed.

Lemma update_payload_keys (a l : jsval) (iso : jstring) :
  (update_payload a l iso).*1 = connection_columns.
Proof. reflexivity. Qed.

Lemma row_matches_true (column value : jstring) (r : row) :
  row_matches column value r = true -> r !! column = Some (JStr value).
Proof.
  unfold row_matches. destruct (r !! column) as [[]|]; try discriminate.
  intros H. apply bool_decide_eq_true in H. congruence.
Qed.

(** The rows after the update, one by one. *)
Lemma update_rows_frame (fields : list (jstring * json)) (column value : jstring)
    (rows : list row) (i : nat) (r r' : row) :
  rows !! i = Some r ->
  update_rows fields column value rows !! i = Some r' ->
  (forall c, c ∉ fields.*1 -> r' !! c = r !! c)
  /\ (r' <> r -> r !! column = Some (JStr value)).
Proof.
  unfold update_rows. intros Hr. rewrite list_lookup_fmap, Hr. cbn.
  intros [= <-].
  destruct (row_matches column value r) eqn:Hm.
  - split; [intros c Hc; apply apply_patch_lookup_ne; exact Hc|].
    intros _. apply row_matches_true. exact Hm.
  - split; [reflexivity | congruence].
Qed.

(** C10.  Whatever the run, the store after it differs from the store before
    at most in the table [profiles], which keeps its rows in number and
    order; a row that changed belongs to the user the auth client found (its
    [user_id] is the id of that user), and it changed in no column other than
    [linkedin_token], [linkedin_profile_id], [linkedin_connected] and
    [linkedin_token_expires_at]. *)
Theorem C10_write_frame (env : Env) (d : gmap jstring (list row)) (request : NextRequest) :
  let d' := db (run env d request).2 in
  (forall table, table <> lit "profiles" -> d' !! table = d !! table)
  /\ (d !! lit "profiles" = None -> d' !! lit "profiles" = None)
  /\ (forall rows, d !! lit "profiles" = Some rows ->
      exists rows',
        d' !! lit "profiles" = Some rows'
        /\ length rows' = length rows
        /\ forall i (r r' : row),
             rows !! i = Some r -> rows' !! i = Some r' ->
             (forall column, column ∉ connection_columns -> r' !! column = r !! column)
             /\ (r' <> r ->
                 exists u, getUser_outcome env = inr (Some u)
                           /\ r !! lit "user_id" = Some (JStr (id u)))).
Proof.
  cbv zeta.
  destruct (run_anatomy env d request) as [_ Hdb].
  destruct Hdb as [-> | (a & x & l & u & iso & _ & _ & Hu & _ & _ & ->)].
  - split; [reflexivity|]. split; [tauto|].
    intros rows Hrows. exists rows. split; [exact Hrows|]. split; [reflexivity|].
    intros i r r' Hr Hr'. rewrite Hr in Hr'. injection Hr' as <-.
    split; [reflexivity | congruence].
  - split; [intros table Hne; apply lookup_alter_ne; congruence|].
    split; [intros Hnone; rewrite lookup_alter_eq, Hnone; reflexivity|].
    intros rows Hrows. eexists. rewrite lookup_alter_eq, Hrows.
    split; [reflexivity|].
    split; [unfold update_rows; apply length_fmap|].
    intros i r r' Hr Hr'.
    destruct (update_rows_frame _ _ _ _ _ _ _ Hr Hr') as [Hcols Huser].
    split.
    + intros column Hcol. apply Hcols. intros Hin.
      apply JSON_fields_keys in Hin. rewrite update_payload_keys in Hin. contradiction.
    + intros Hne. exists u. split; [exact Hu | exact (Huser Hne)].
Qed.

Lemma C10_write_frame_witness :
  let d' := db (run happy_env two_profiles code_request).2 in
  d' !! lit "posts" = two_profiles !! lit "posts"
  /\ exists rows',
       d' !! lit "profiles" = Some rows'
       /\ length rows' = 2%nat
       /\ forall r', rows' !! 1%nat = Some r' ->
            r' !! lit "user_id" = Some (JStr (lit "V")) /\ ~ r' <> row_V.
Proof.
  destruct (C10_write_frame happy_env two_profiles code_request) as (Htables & _ & Hrows).
  split; [apply Htables; discriminate|].
  destruct (Hrows [row_U; row_V] ltac:(vm_compute; reflexivity)) as (rows' & H1 & H2 & H3).
  exists rows'. split; [exact H1|]. split; [exact H2|].
  intros r' Hr'.
  destruct (H3 1%nat row_V r' eq_refl Hr') as [Hcols Huser].
  split.
  - rewrite Hcols; [reflexivity|]. vm_compute. intros Hin.
    repeat (apply elem_of_cons in Hin as [Hin | Hin]; [discriminate|]).
    apply elem_of_nil in Hin. exact Hin.
  - intros Hne. destruct (Huser Hne) as (u & Hu & Hid).
    injection Hu as <-. vm_compute in Hid. discriminate.
Defined.

(** ** The successful connection *)

(** C1, as the code has it.  With a code, a token endpoint that answers
    [access_token] "T" and [expires_in] 3600, a profile endpoint that answers
    [sub] "ext-123", a user found by the auth client and a store that accepts
    the write, the handler issues one update, filtered on the [user_id] of that
    user, that sets the token to "T", the profile id to "ext-123", connected
    to true and the expiry to the ISO text of the clock reading plus 3600
    seconds (for a steady local offset); the rows of that user are changed
    so, no row is added, and the redirect says [success=true]. *)
Theorem C1_connection_recorded (env : Env) (d : gmap jstring (list row))
    (request : NextRequest) (token_fields profile_fields : list (jstring * json))
    (profile_ok : bool) (u : User) :
  truthy (searchParams_get (searchParams request) (lit "error")) = false ->
  truthy (searchParams_get (searchParams request) (lit "code")) = true ->
  createClient_outcome env = None ->
  token_endpoint env = json_response true (JObj token_fields) ->
  assoc (lit "access_token") token_fields = Some (JStr (lit "T")) ->
  assoc (lit "expires_in") token_fields = Some (JNum 3600) ->
  userinfo_endpoint env = json_response profile_ok (JObj profile_fields) ->
  assoc (lit "sub") profile_fields = Some (JStr (lit "ext-123")) ->
  getUser_outcome env = inr (Some u) ->
  update_outcome env = inr None ->
  steady_offset env 3600 ->
  Z.abs (now env + 3600 * 1000) <= 8640000000000000 ->
  let expires := JStr (iso_text (now env + 3600 * 1000)) in
  let connect (r : row) : row :=
    <[lit "linkedin_token_expires_at" := expires]>
      (<[lit "linkedin_connected" := JBool true]>
         (<[lit "linkedin_profile_id" := JStr (lit "ext-123")]>
            (<[lit "linkedin_token" := JStr (lit "T")]> r))) in
  let url := origin request ++ lit "/#/app/settings?success=true" in
  exists w,
    run env d request = (Returned (redirect url), w)
    /\ contains url (lit "success=true") = true
    /\ filter is_update (trace w)
       = [EvUpdate (lit "profiles")
            [ (lit "linkedin_token", JsJson (JStr (lit "T")));
              (lit "linkedin_profile_id", JsJson (JStr (lit "ext-123")));
              (lit "linkedin_connected", JsJson (JBool true));
              (lit "linkedin_token_expires_at", JsJson expires) ]
            (lit "user_id") (id u)]
    /\ db w = alter (fmap (fun r : row =>
                             if row_matches (lit "user_id") (id u) r then connect r else r))
                (lit "profiles") d.
Proof.
  intros Herr Hcode Hcc Htok Hat Hei Hprof Hsub Hu Hupd Hsteady Hrange expires connect url.
  assert (Hexp : toISOString (expiry env (now env) (JsJson (JNum 3600)))
                 = inr (iso_text (now env + 3600 * 1000))).
  { rewrite expiry_number by exact Hsteady. unfold TimeClip.
    apply Z.leb_le in Hrange. rewrite Hrange. reflexivity. }
  unfold run. rewrite GET_run. cbv zeta. rewrite Herr, Hcode. cbn [negb].
  unfold GET_try_result, exchange_outcome, profile_outcome, update_profile_result.
  rewrite Hcc, Htok, Hprof, Hu. unfold json_response. cbn [ok json_body negb get_prop].
  rewrite Hat, Hei, Hsub. cbv zeta. rewrite Hexp, Hupd.
  eexists. split; [reflexivity|].
  split.
  { subst url. change (lit "/#/app/settings?success=true")
      with (lit "/#/app/settings?" ++ lit "success=true").
    apply contains_later, contains_end. }
  split; reflexivity.
Qed.

Lemma C1_connection_recorded_witness :
  exists w,
    run happy_env two_profiles code_request
    = (Returned (redirect (lit "http://localhost:3000/#/app/settings?success=true")), w)
    /\ (fun rows : list row =>
          (fun r : row => (r !! lit "user_id", r !! lit "full_name", r !! lit "linkedin_token",
                           r !! lit "linkedin_profile_id", r !! lit "linkedin_connected",
                           r !! lit "linkedin_token_expires_at")) <$> rows)
         <$> (db w !! lit "profiles")
       = Some [ (Some (JStr (lit "U")), Some (JStr (lit "Uma")), Some (JStr (lit "T")),
                 Some (JStr (lit "ext-123")), Some (JBool true),
                 Some (JStr (lit "2023-11-14T23:13:20.000Z")));
                (Some (JStr (lit "V")), None, Some (JStr (lit "token of V")),
                 None, None, None) ].
Proof.
  destruct (C1_connection_recorded happy_env two_profiles code_request
              [(lit "access_token", JStr (lit "T")); (lit "expires_in", JNum 3600)]
              [(lit "sub", JStr (lit "ext-123"))] true user_U
              eq_refl eq_refl eq_refl eq_refl eq_refl eq_refl eq_refl eq_refl eq_refl
              eq_refl eq_refl ltac:(vm_compute; discriminate))
    as (w & Hrun & _ & _ & Hdb).
  exists w. split; [exact Hrun|].
  rewrite Hdb. vm_compute. reflexivity.
Defined.

(** C1, as stated, fails: the write is an update, not an upsert.  For a user
    without a profile row nothing is stored, no connection record exists after
    the run, and the redirect still says [success=true]. *)
Lemma C1_no_row_nothing_stored :
  getUser_outcome happy_env = inr (Some user_U)
  /\ no_profiles !! lit "profiles" = Some []
  /\ (run happy_env no_profiles code_request).1
     = Returned (redirect (lit "http://localhost:3000/#/app/settings?success=true"))
  /\ db (run happy_env no_profiles code_request).2 !! lit "profiles" = Some [].
Proof. repeat split; vm_compute; reflexivity. Qed.

(** * The authorization URL and its state *)

Local Open Scope N_scope.

(** ** Base64 *)

Lemma b64_value_char n : n < 64 -> b64_value (b64_char n) = Some n.
Proof.
  intros Hn. unfold b64_value, b64_char, in_range.
  repeat split_if; N_tests; try (f_equal; lia); lia.
Qed.

Lemma b64_char_plain n :
  n < 64 -> (b64_char n =? 61) = false /\ is_ascii_whitespace (b64_char n) = false.
Proof.
  intros Hn. unfold b64_char, is_ascii_whitespace. cbn [existsb].
  repeat split_if; N_tests; lia.
Qed.

Lemma b64_char_not_space n : n < 64 -> is_ascii_whitespace (b64_char n) = false.
Proof. intros Hn. apply b64_char_plain, Hn. Qed.

(** Lists three items at a time. *)
Lemma list_ind3 {A} (P : list A -> Prop) :
  P [] -> (forall a, P [a]) -> (forall a b, P [a; b]) ->
  (forall a b c rest, P rest -> P (a :: b :: c :: rest)) ->
  forall l, P l.
Proof.
  intros H0 H1 H2 H3.
  fix IH 1. intros [|a [|b [|c rest]]]; [exact H0 | apply H1 | apply H2 |].
  apply H3, IH.
Qed.

Lemma strip_padding_group x0 x1 x2 x3 s :
  (x3 =? 61) = false ->
  strip_padding (x0 :: x1 :: x2 :: x3 :: s) = x0 :: x1 :: x2 :: x3 :: strip_padding s.
Proof. intros H. cbn [strip_padding]. rewrite H. destruct s; reflexivity. Qed.

Lemma sextet_bounds a b c :
  a < 256 -> b < 256 -> c < 256 ->
  a / 4 < 64 /\ (a mod 4) * 16 + b / 16 < 64 /\ (b mod 16) * 4 + c / 64 < 64
  /\ c mod 64 < 64 /\ (a mod 4) * 16 < 64 /\ (b mod 16) * 4 < 64.
Proof. intros Ha Hb Hc. repeat split; div_lia. Qed.

Lemma sextets_rejoin a b c :
  a < 256 -> b < 256 -> c < 256 ->
  a / 4 * 4 + ((a mod 4) * 16 + b / 16) / 16 = a
  /\ (((a mod 4) * 16 + b / 16) mod 16) * 16 + ((b mod 16) * 4 + c / 64) / 4 = b
  /\ (((b mod 16) * 4 + c / 64) mod 4) * 64 + c mod 64 = c.
Proof. intros Ha Hb Hc. repeat split; div_lia. Qed.

Lemma b64_decode_encode bytes :
  Forall (fun c => c < 256) bytes ->
  match traverse_option b64_value (strip_padding (b64_encode bytes)) with
  | Some vs => b64_groups vs
  | None => None
  end = Some bytes.
Proof.
  induction bytes as [|a|a b|a b c rest IH] using list_ind3; intros Hall.
  - reflexivity.
  - apply Forall_cons in Hall as [Ha _].
    destruct (sextet_bounds a 0 0 Ha ltac:(lia) ltac:(lia)) as (H0 & _ & _ & _ & H1 & _).
    cbn -[b64_char b64_value N.div N.modulo N.mul N.add].
    rewrite !b64_value_char by assumption. cbn -[N.div N.modulo N.mul N.add].
    destruct (sextets_rejoin a 0 0 Ha ltac:(lia) ltac:(lia)) as (E0 & _ & _).
    change (0 / 16) with 0 in E0. rewrite N.add_0_r in E0. rewrite E0. reflexivity.
  - apply Forall_cons in Hall as [Ha Hall]. apply Forall_cons in Hall as [Hb _].
    destruct (sextet_bounds a b 0 Ha Hb ltac:(lia)) as (H0 & H1 & _ & _ & _ & H2).
    cbn -[b64_char b64_value N.div N.modulo N.mul N.add].
    destruct (b64_char_plain _ H2) as [-> _].
    cbn -[b64_char b64_value N.div N.modulo N.mul N.add].
    rewrite !b64_value_char by assumption. cbn -[N.div N.modulo N.mul N.add].
    destruct (sextets_rejoin a b 0 Ha Hb ltac:(lia)) as (E0 & E1 & _).
    change (0 / 64) with 0 in E1. rewrite N.add_0_r in E1. rewrite E0, E1. reflexivity.
  - apply Forall_cons in Hall as [Ha Hall]. apply Forall_cons in Hall as [Hb Hall].
    apply Forall_cons in Hall as [Hc Hall].
    destruct (sextet_bounds a b c Ha Hb Hc) as (H0 & H1 & H2 & H3 & _ & _).
    cbn [b64_encode app].
    rewrite strip_padding_group by (apply b64_char_plain; assumption).
    cbn [traverse_option]. rewrite !b64_value_char by assumption.
    specialize (IH Hall).
    destruct (traverse_option b64_value (strip_padding (b64_encode rest))) as [vs|];
      [|discriminate].
    cbn [b64_groups]. rewrite IH. cbn [option_map app].
    destruct (sextets_rejoin a b c Ha Hb Hc) as (E0 & E1 & E2).
    rewrite E0, E1, E2. reflexivity.
Qed.

Lemma b64_encode_plain bytes :
  Forall (fun c => c < 256) bytes ->
  List.filter (fun c => negb (is_ascii_whitespace c)) (b64_encode bytes) = b64_encode bytes.
Proof.
  induction bytes as [|a|a b|a b c rest IH] using list_ind3; intros Hall.
  - reflexivity.
  - apply Forall_cons in Hall as [Ha _].
    destruct (sextet_bounds a 0 0 Ha ltac:(lia) ltac:(lia)) as (H0 & _ & _ & _ & H1 & _).
    cbn [b64_encode List.filter].
    rewrite !b64_char_not_space by assumption. reflexivity.
  - apply Forall_cons in Hall as [Ha Hall]. apply Forall_cons in Hall as [Hb _].
    destruct (sextet_bounds a b 0 Ha Hb ltac:(lia)) as (H0 & H1 & _ & _ & _ & H2).
    cbn [b64_encode List.filter].
    rewrite !b64_char_not_space by assumption. reflexivity.
  - apply Forall_cons in Hall as [Ha Hall]. apply Forall_cons in Hall as [Hb Hall].
    apply Forall_cons in Hall as [Hc Hall].
    destruct (sextet_bounds a b c Ha Hb Hc) as (H0 & H1 & H2 & H3 & _ & _).
    cbn [b64_encode app List.filter].
    rewrite !b64_char_not_space by assumption. cbn [negb].
    rewrite IH by exact Hall. reflexivity.
Qed.

Lemma forallb_byte_Forall s :
  forallb (fun c => c <? 256) s = true -> Forall (fun c => c < 256) s.
Proof.
  intros H. apply Forall_forall. intros c Hc.
  rewrite forallb_forall in H. apply N.ltb_lt, H, list_elem_of_In, Hc.
Qed.

(** [atob] undoes [btoa]. *)
Lemma atob_btoa s t : btoa s = inr t -> atob t = Some s.
Proof.
  unfold btoa, atob. destruct (forallb _ s) eqn:Hs; [|discriminate].
  intros [= <-]. apply forallb_byte_Forall in Hs.
  rewrite b64_encode_plain by exact Hs. apply b64_decode_encode, Hs.
Qed.

(** ** JSON strings *)

Lemma hex_value_lower n : n < 16 -> hex_value (hex_digit_lower n) = Some n.
Proof.
  intros Hn. unfold hex_value, hex_digit_lower, in_range.
  repeat split_if; N_tests; try (f_equal; lia); lia.
Qed.

Lemma byte_not_surrogate c :
  c < 256 -> is_lead_surrogate c = false /\ is_trail_surrogate c = false.
Proof.
  intros Hc. unfold is_lead_surrogate, is_trail_surrogate. N_tests. lia.
Qed.

Lemma quote_body_cons c rest :
  c < 256 -> quote_body (c :: rest) = json_escape c ++ quote_body rest.
Proof.
  intros Hc. cbn [quote_body].
  destruct (byte_not_surrogate c Hc) as [-> ->]. reflexivity.
Qed.

(** Reading back one escaped code unit. *)
Lemma parse_json_escape c rest :
  c < 256 ->
  parse_string_body (json_escape c ++ rest)
  = match parse_string_body rest with
    | Some (str, tl) => Some (c :: str, tl)
    | None => None
    end.
Proof.
  intros Hc. unfold json_escape.
  repeat split_if; N_tests; subst; try reflexivity.
  - (* a control character, written with four hexadecimal digits *)
    unfold unicode_escape. cbn [app].
    cbn -[N.div N.modulo hex_value hex_digit_lower parse_string_body N.mul N.add].
    change (parse_string_body
              (92 :: 117 :: hex_digit_lower (c / 4096) :: hex_digit_lower ((c / 256) mod 16)
                 :: hex_digit_lower ((c / 16) mod 16) :: hex_digit_lower (c mod 16) :: rest))
      with (match hex_value (hex_digit_lower (c / 4096)),
                  hex_value (hex_digit_lower ((c / 256) mod 16)),
                  hex_value (hex_digit_lower ((c / 16) mod 16)),
                  hex_value (hex_digit_lower (c mod 16)),
                  parse_string_body rest with
            | Some a, Some b, Some c', Some d, Some (str, tl) =>
                Some ((a * 4096 + b * 256 + c' * 16 + d) :: str, tl)
            | _, _, _, _, _ => None
            end).
    rewrite !hex_value_lower by div_lia.
    destruct (parse_string_body rest) as [[str tl]|]; [|reflexivity].
    do 2 f_equal. f_equal. div_lia.
  - (* any other code unit stands for itself *)
    cbn [app parse_string_body].
    assert (H34 : (c =? 34) = false) by (N_tests; lia).
    assert (H92 : (c =? 92) = false) by (N_tests; lia).
    assert (H32 : (c <? 32) = false) by (N_tests; lia).
    rewrite H34, H92, H32. reflexivity.
Qed.

Lemma parse_quote_body s rest :
  Forall (fun c => c < 256) s ->
  parse_string_body (quote_body s ++ 34 :: rest) = Some (s, rest).
Proof.
  induction s as [|c s IH]; intros Hall; [reflexivity|].
  apply Forall_cons in Hall as [Hc Hall].
  rewrite quote_body_cons by exact Hc. rewrite <- app_assoc.
  rewrite parse_json_escape by exact Hc. rewrite IH by exact Hall. reflexivity.
Qed.

Lemma parse_QuoteJSONString s rest :
  Forall (fun c => c < 256) s ->
  parse_string (QuoteJSONString s ++ rest) = Some (s, rest).
Proof.
  intros Hall. unfold QuoteJSONString, parse_string.
  cbn [app]. rewrite <- app_assoc. apply parse_quote_body, Hall.
Qed.

Lemma json_escape_bytes c : c < 256 -> Forall (fun x => x < 256) (json_escape c).
Proof.
  intros Hc. unfold json_escape, unicode_escape, hex_digit_lower.
  repeat split_if; N_tests; repeat constructor; try lia; div_lia.
Qed.

Lemma quote_body_bytes s :
  Forall (fun c => c < 256) s -> Forall (fun c => c < 256) (quote_body s).
Proof.
  induction s as [|c s IH]; intros Hall; [constructor|].
  apply Forall_cons in Hall as [Hc Hall].
  rewrite quote_body_cons by exact Hc.
  apply Forall_app. split; [apply json_escape_bytes, Hc | apply IH, Hall].
Qed.

(** ** The state payload *)

Lemma parse_members_two fuel k1 v1 k2 v2 :
  Forall (fun c => c < 256) k1 -> Forall (fun c => c < 256) v1 ->
  Forall (fun c => c < 256) k2 -> Forall (fun c => c < 256) v2 ->
  parse_members (S (S (S fuel)))
    (44 :: QuoteJSONString k1 ++ 58 :: QuoteJSONString v1
        ++ 44 :: QuoteJSONString k2 ++ 58 :: QuoteJSONString v2 ++ [125])
  = Some [(k1, v1); (k2, v2)].
Proof.
  intros Hk1 Hv1 Hk2 Hv2.
  cbn [parse_members].
  rewrite parse_QuoteJSONString by exact Hk1.
  rewrite parse_QuoteJSONString by exact Hv1.
  rewrite parse_QuoteJSONString by exact Hk2.
  rewrite parse_QuoteJSONString by exact Hv2.
  destruct fuel; reflexivity.
Qed.

Lemma lit_bytes_userId : Forall (fun c => c < 256) (lit "userId").
Proof. repeat constructor. Qed.

Lemma lit_bytes_nonce : Forall (fun c => c < 256) (lit "nonce").
Proof. repeat constructor. Qed.

Lemma statePayload_shape userId nonce :
  statePayload userId nonce
  = 123 :: QuoteJSONString (lit "userId") ++ 58 :: QuoteJSONString userId
        ++ 44 :: QuoteJSONString (lit "nonce") ++ 58 :: QuoteJSONString nonce ++ [125].
Proof. unfold statePayload. reflexivity. Qed.

(** [JSON.parse] gives back the two members of the payload. *)
Lemma JSON_parse_statePayload userId nonce :
  Forall (fun c => c < 256) userId -> Forall (fun c => c < 256) nonce ->
  JSON_parse_flat (statePayload userId nonce)
  = Some [(lit "nonce", nonce); (lit "userId", userId)].
Proof.
  intros Hu Hn. rewrite statePayload_shape.
  unfold JSON_parse_flat.
  change (QuoteJSONString (lit "userId"))
    with (34 :: (quote_body (lit "userId") ++ [34])) at 1.
  cbn [app].
  change (34 :: (quote_body (lit "userId") ++ [34]) ++ 58 :: QuoteJSONString userId
             ++ 44 :: QuoteJSONString (lit "nonce") ++ 58 :: QuoteJSONString nonce ++ [125])
    with (QuoteJSONString (lit "userId") ++ 58 :: QuoteJSONString userId
             ++ 44 :: QuoteJSONString (lit "nonce") ++ 58 :: QuoteJSONString nonce ++ [125]).
  cbn [length].
  remember (QuoteJSONString userId) as qu.
  remember (QuoteJSONString (lit "nonce")) as qn.
  remember (QuoteJSONString nonce) as qv.
  assert (Hlen : exists fuel,
             length (QuoteJSONString (lit "userId") ++ 58 :: qu ++ 44 :: qn ++ 58 :: qv ++ [125])
             = S fuel).
  { rewrite length_app. cbn [length]. eexists. rewrite Nat.add_succ_r. reflexivity. }
  destruct Hlen as [fuel ->]. subst qu qn qv.
  rewrite parse_members_two by (assumption || apply lit_bytes_userId || apply lit_bytes_nonce).
  reflexivity.
Qed.

Lemma QuoteJSONString_bytes s :
  Forall (fun c => c < 256) s -> Forall (fun c => c < 256) (QuoteJSONString s).
Proof.
  intros Hs. unfold QuoteJSONString.
  apply Forall_app. split; [repeat constructor|].
  apply Forall_app. split; [apply quote_body_bytes, Hs | repeat constructor].
Qed.

Lemma statePayload_bytes userId nonce :
  Forall (fun c => c < 256) userId -> Forall (fun c => c < 256) nonce ->
  Forall (fun c => c < 256) (statePayload userId nonce).
Proof.
  intros Hu Hn. rewrite statePayload_shape.
  pose proof (QuoteJSONString_bytes _ lit_bytes_userId) as Hk1.
  pose proof (QuoteJSONString_bytes _ lit_bytes_nonce) as Hk2.
  pose proof (QuoteJSONString_bytes _ Hu) as Hv1.
  pose proof (QuoteJSONString_bytes _ Hn) as Hv2.
  repeat first [ rewrite Forall_app; split; [assumption|]
               | apply Forall_cons; split; [reflexivity|]
               | apply Forall_nil
               | exact I ].
Qed.

(** ** Query strings *)

Lemma hex_value_upper n : n < 16 -> hex_value (hex_digit n) = Some n.
Proof.
  intros Hn. unfold hex_value, hex_digit, in_range.
  repeat split_if; N_tests; try (f_equal; lia); lia.
Qed.

Lemma hex_digit_plain n : n < 16 -> plain (hex_digit n).
Proof. intros Hn. unfold plain, hex_digit. split_if; N_tests; lia. Qed.

Lemma form_encode_cons c rest :
  c < 128 -> form_encode (c :: rest) = form_byte c ++ form_encode rest.
Proof.
  intros Hc. cbn [form_encode].
  assert (Hl : is_lead_surrogate c = false)
    by (unfold is_lead_surrogate; N_tests; lia).
  assert (Ht : is_trail_surrogate c = false)
    by (unfold is_trail_surrogate; N_tests; lia).
  rewrite Hl, Ht. unfold form_code_point, utf8.
  apply N.ltb_lt in Hc. rewrite Hc. cbn [List.map concat]. rewrite app_nil_r. reflexivity.
Qed.

Lemma form_byte_plain c : c < 128 -> Forall plain (form_byte c).
Proof.
  intros Hc. unfold form_byte, percent, is_alnum, in_range. cbn [existsb].
  repeat split_if; N_tests.
  all: repeat (apply Forall_cons; split); try apply Forall_nil.
  all: try (apply hex_digit_plain; div_lia).
  all: unfold plain; lia.
Qed.

Lemma form_decode_byte c rest :
  c < 128 ->
  form_decode (form_byte c ++ rest) = option_map (cons c) (form_decode rest).
Proof.
  intros Hc. unfold form_byte, is_alnum, in_range. cbn [existsb].
  repeat split_if; N_tests.
  all: try (cbn [app form_decode];
            assert (H43 : (c =? 43) = false) by (N_tests; lia);
            assert (H37 : (c =? 37) = false) by (N_tests; lia);
            assert (H128 : (c <? 128) = true) by (N_tests; lia);
            rewrite H43, H37, H128; reflexivity).
  - subst c. reflexivity.
  - unfold percent. cbn [app].
    change (form_decode (37 :: hex_digit (c / 16) :: hex_digit (c mod 16) :: rest))
      with (match hex_value (hex_digit (c / 16)), hex_value (hex_digit (c mod 16)) with
            | Some a, Some b =>
                if a * 16 + b <? 128
                then option_map (cons (a * 16 + b)) (form_decode rest)
                else None
            | _, _ => option_map (cons 37) (form_decode (hex_digit (c / 16)
                                      :: hex_digit (c mod 16) :: rest))
            end).
    rewrite !hex_value_upper by div_lia.
    assert (E : c / 16 * 16 + c mod 16 = c) by div_lia.
    rewrite E. apply N.ltb_lt in Hc. rewrite Hc. reflexivity.
Qed.

Lemma form_decode_encode s :
  Forall (fun c => c < 128) s -> form_decode (form_encode s) = Some s.
Proof.
  induction s as [|c s IH]; intros Hall; [reflexivity|].
  apply Forall_cons in Hall as [Hc Hall].
  rewrite form_encode_cons, form_decode_byte by exact Hc.
  rewrite IH by exact Hall. reflexivity.
Qed.

Lemma form_encode_plain s :
  Forall (fun c => c < 128) s -> Forall plain (form_encode s).
Proof.
  induction s as [|c s IH]; intros Hall; [constructor|].
  apply Forall_cons in Hall as [Hc Hall].
  rewrite form_encode_cons by exact Hc.
  apply Forall_app. split; [apply form_byte_plain, Hc | apply IH, Hall].
Qed.

Lemma break_at_found sep a b :
  Forall (fun c => c <> sep) a -> break_at sep (a ++ sep :: b) = (a, b).
Proof.
  induction a as [|c a IH]; intros Hall.
  - cbn. rewrite N.eqb_refl. reflexivity.
  - apply Forall_cons in Hall as [Hc Hall]. cbn [app break_at].
    apply N.eqb_neq in Hc. rewrite Hc, IH by exact Hall. reflexivity.
Qed.

Lemma break_at_missing sep a :
  Forall (fun c => c <> sep) a -> break_at sep a = (a, []).
Proof.
  induction a as [|c a IH]; intros Hall; [reflexivity|].
  apply Forall_cons in Hall as [Hc Hall]. cbn [break_at].
  apply N.eqb_neq in Hc. rewrite Hc, IH by exact Hall. reflexivity.
Qed.

Lemma split_on_missing sep a :
  Forall (fun c => c <> sep) a -> split_on sep a = [a].
Proof.
  induction a as [|c a IH]; intros Hall; [reflexivity|].
  apply Forall_cons in Hall as [Hc Hall]. cbn [split_on].
  apply N.eqb_neq in Hc. rewrite Hc, IH by exact Hall. reflexivity.
Qed.

Lemma split_on_found sep a b :
  Forall (fun c => c <> sep) a -> split_on sep (a ++ sep :: b) = a :: split_on sep b.
Proof.
  induction a as [|c a IH]; intros Hall.
  - cbn. rewrite N.eqb_refl. reflexivity.
  - apply Forall_cons in Hall as [Hc Hall]. cbn [app split_on].
    apply N.eqb_neq in Hc. rewrite Hc, IH by exact Hall. reflexivity.
Qed.

Lemma form_serialize_cons kv rest :
  form_serialize (kv :: rest)
  = segment kv ++ match rest with [] => [] | _ :: _ => 38 :: form_serialize rest end.
Proof.
  destruct kv as [k v]. unfold segment. cbn [form_serialize fst snd].
  rewrite <- !app_assoc. destruct rest; reflexivity.
Qed.

Lemma segment_no_separator kv sep :
  ascii_pair kv -> sep = 35 \/ sep = 38 -> Forall (fun c => c <> sep) (segment kv).
Proof.
  intros [Hk Hv] Hsep. unfold segment.
  apply Forall_app. split; [|apply Forall_cons; split; [lia|]].
  - eapply Forall_impl; [apply form_encode_plain, Hk|].
    unfold plain. intros c Hc. cbn beta in Hc. lia.
  - eapply Forall_impl; [apply form_encode_plain, Hv|].
    unfold plain. intros c Hc. cbn beta in Hc. lia.
Qed.

Lemma split_on_form_serialize params :
  Forall ascii_pair params -> params <> [] ->
  split_on 38 (form_serialize params) = List.map segment params.
Proof.
  induction params as [|kv rest IH]; intros Hall Hne; [congruence|].
  apply Forall_cons in Hall as [Hkv Hall].
  rewrite form_serialize_cons. destruct rest as [|kv' rest'].
  - rewrite app_nil_r. apply split_on_missing, segment_no_separator; auto.
  - rewrite split_on_found by (apply segment_no_separator; auto).
    rewrite IH by (auto || discriminate). reflexivity.
Qed.

Lemma form_serialize_no_hash params :
  Forall ascii_pair params -> Forall (fun c => c <> 35) (form_serialize params).
Proof.
  induction params as [|kv rest IH]; intros Hall; [constructor|].
  apply Forall_cons in Hall as [Hkv Hall].
  rewrite form_serialize_cons.
  apply Forall_app. split; [apply segment_no_separator; auto|].
  destruct rest; [constructor|].
  apply Forall_cons. split; [lia | apply IH, Hall].
Qed.

Lemma segment_not_empty kv : bool_decide (segment kv = []) = false.
Proof.
  apply bool_decide_eq_false. unfold segment.
  destruct (form_encode kv.1); discriminate.
Qed.

Lemma segment_read kv :
  ascii_pair kv ->
  (let '(k, v) := break_at 61 (segment kv) in (form_decode k, form_decode v))
  = (Some kv.1, Some kv.2).
Proof.
  intros [Hk Hv]. unfold segment.
  rewrite break_at_found.
  - rewrite !form_decode_encode by assumption. reflexivity.
  - eapply Forall_impl; [apply form_encode_plain, Hk|].
    unfold plain. intros c Hc. cbn beta in Hc. lia.
Qed.

Lemma find_param params name :
  match List.find (fun kv : option jstring * option jstring =>
                     bool_decide (kv.1 = Some name))
          (List.map (fun kv : jstring * jstring => (Some kv.1, Some kv.2)) params) with
  | Some (_, v) => v
  | None => None
  end = assoc name params.
Proof.
  induction params as [|[k v] rest IH]; [reflexivity|].
  cbn [List.map List.find fst snd assoc].
  destruct (decide (k = name)) as [->|Hne].
  - rewrite bool_decide_eq_true_2 by reflexivity. reflexivity.
  - rewrite bool_decide_eq_false_2 by congruence. exact IH.
Qed.

(** Reading a parameter back from the text of the URL. *)
Lemma url_param_toString base params name :
  Forall (fun c => c <> 63) base ->
  Forall ascii_pair params -> params <> [] ->
  url_param (url_toString base params) name = assoc name params.
Proof.
  intros Hbase Hall Hne. unfold url_toString, url_param, url_query.
  destruct params as [|kv rest] eqn:E; [congruence|]. rewrite <- E in *.
  cbn [app]. rewrite break_at_found by exact Hbase. cbn [snd].
  rewrite break_at_missing by (apply form_serialize_no_hash, Hall). cbn [fst].
  rewrite split_on_form_serialize by assumption.
  assert (Hfilter : @List.filter (list N) (fun seg : list N => negb (bool_decide (seg = [])))
                      (List.map segment params) = List.map segment params).
  { clear. induction params as [|kv rest IH]; [reflexivity|].
    cbn [List.map List.filter]. rewrite segment_not_empty. cbn [negb].
    rewrite IH. reflexivity. }
  rewrite Hfilter. rewrite List.map_map.
  assert (Hread : List.map (fun x : jstring * jstring =>
                              let '(k, v) := break_at 61 (segment x) in
                              (form_decode k, form_decode v)) params
                  = List.map (fun kv : jstring * jstring => (Some kv.1, Some kv.2)) params).
  { clear -Hall. induction params as [|kv rest IH]; [reflexivity|].
    apply Forall_cons in Hall as [Hkv Hall].
    cbn [List.map]. rewrite segment_read by exact Hkv. rewrite IH by exact Hall.
    reflexivity. }
  rewrite Hread. apply find_param.
Qed.

(** ** The state of the authorization URL *)

Lemma b64_char_ascii n : n < 64 -> b64_char n < 128.
Proof. intros Hn. unfold b64_char. repeat split_if; N_tests; lia. Qed.

Lemma b64_encode_ascii bytes :
  Forall (fun c => c < 256) bytes -> Forall (fun c => c < 128) (b64_encode bytes).
Proof.
  induction bytes as [|a|a b|a b c rest IH] using list_ind3; intros Hall.
  - constructor.
  - apply Forall_cons in Hall as [Ha _].
    destruct (sextet_bounds a 0 0 Ha ltac:(lia) ltac:(lia)) as (H0 & _ & _ & _ & H1 & _).
    cbn [b64_encode].
    repeat (apply Forall_cons; split; [first [apply b64_char_ascii; assumption | lia]|]).
    constructor.
  - apply Forall_cons in Hall as [Ha Hall]. apply Forall_cons in Hall as [Hb _].
    destruct (sextet_bounds a b 0 Ha Hb ltac:(lia)) as (H0 & H1 & _ & _ & _ & H2).
    cbn [b64_encode].
    repeat (apply Forall_cons; split; [first [apply b64_char_ascii; assumption | lia]|]).
    constructor.
  - apply Forall_cons in Hall as [Ha Hall]. apply Forall_cons in Hall as [Hb Hall].
    apply Forall_cons in Hall as [Hc Hall].
    destruct (sextet_bounds a b c Ha Hb Hc) as (H0 & H1 & H2 & H3 & _ & _).
    cbn [b64_encode app].
    repeat (apply Forall_cons; split; [apply b64_char_ascii; assumption|]).
    apply IH, Hall.
Qed.

Lemma forallb_ascii_Forall s :
  forallb (fun c => c <? 128) s = true -> Forall (fun c => c < 128) s.
Proof.
  intros H. apply Forall_forall. intros c Hc.
  rewrite forallb_forall in H. apply N.ltb_lt, H, list_elem_of_In, Hc.
Qed.

Lemma base36_digit_byte c : is_base36_digit c = true -> c < 256.
Proof. unfold is_base36_digit, in_range. N_tests. lia. Qed.

Lemma is_random36_cases random36 :
  is_random36 random36 = true ->
  random36 = [48]
  \/ exists d ds, random36 = 48 :: 46 :: d :: ds /\ forallb is_base36_digit (d :: ds) = true.
Proof.
  unfold is_random36.
  destruct random36 as [|c0 rest]; [discriminate|].
  destruct (decide (c0 = 48)) as [->|Hne].
  - destruct rest as [|c1 rest]; [left; reflexivity|].
    destruct (decide (c1 = 46)) as [->|Hne].
    + destruct rest as [|d ds]; [discriminate|]. intros H. right. eauto.
    + intros H. exfalso. destruct c1 as [|p]; [discriminate|].
      repeat (destruct p as [p|p|]; try discriminate). congruence.
  - intros H. exfalso. destruct c0 as [|p]; [discriminate|].
    repeat (destruct p as [p|p|]; try discriminate);
    destruct rest; try discriminate; congruence.
Qed.

(** The nonce is made of bytes, and is empty exactly for the draw 0. *)
Lemma nonce_of_draw random36 :
  is_random36 random36 = true ->
  Forall (fun c => c < 256) (substring random36 2 15)
  /\ (substring random36 2 15 = [] <-> random36 = lit "0").
Proof.
  intros H. destruct (is_random36_cases random36 H) as [-> | (d & ds & -> & Hds)].
  - split; [constructor | split; reflexivity].
  - unfold substring. cbn [drop]. split.
    + apply Forall_take, Forall_forall. intros c Hc.
      rewrite forallb_forall in Hds.
      apply base36_digit_byte, Hds, list_elem_of_In, Hc.
    + cbn. split; discriminate.
Qed.

Lemma authorization_params_ascii state :
  Forall (fun c => c < 128) state -> Forall ascii_pair (authorization_params state).
Proof.
  intros Hs. unfold authorization_params.
  repeat (apply Forall_cons; split;
          [split; first [exact Hs | apply forallb_ascii_Forall; reflexivity]|]).
  constructor.
Qed.

(** The parameters of the URL read back as they were written. *)
Lemma authorization_url_param state name :
  Forall (fun c => c < 128) state ->
  url_param (url_toString (lit "https://www.linkedin.com/oauth/v2/authorization")
               (authorization_params state)) name
  = assoc name (authorization_params state).
Proof.
  intros Hs. apply url_param_toString.
  - apply Forall_forall. intros c Hc.
    assert (H : forallb (fun c => negb (c =? 63))
                  (lit "https://www.linkedin.com/oauth/v2/authorization") = true)
      by reflexivity.
    rewrite forallb_forall in H. apply list_elem_of_In, H in Hc.
    apply negb_true_iff, N.eqb_neq in Hc. exact Hc.
  - apply authorization_params_ascii, Hs.
  - discriminate.
Qed.

Lemma assoc_state state :
  assoc (lit "state") (authorization_params state) = Some state.
Proof.
  unfold authorization_params. cbn [assoc].
  repeat (rewrite decide_False by (vm_compute; discriminate)).
  rewrite decide_True by reflexivity. reflexivity.
Qed.

(** Building the URL for a byte user id and a draw, and reading its state. *)
Lemma generateLinkedInAuthUrl_state random36 userId :
  is_random36 random36 = true ->
  forallb (fun c => c <? 256) userId = true ->
  exists url state,
    generateLinkedInAuthUrl random36 userId = inr url
    /\ btoa (statePayload userId (substring random36 2 15)) = inr state
    /\ url_param url (lit "state") = Some state
    /\ atob state = Some (statePayload userId (substring random36 2 15)).
Proof.
  intros Hr Hu. apply forallb_byte_Forall in Hu.
  destruct (nonce_of_draw random36 Hr) as [Hn _].
  pose proof (statePayload_bytes userId _ Hu Hn) as Hp.
  assert (Hb : btoa (statePayload userId (substring random36 2 15))
               = inr (b64_encode (statePayload userId (substring random36 2 15)))).
  { unfold btoa.
    replace (forallb _ _) with true; [reflexivity|].
    symmetry. apply forallb_forall. intros c Hc.
    apply N.ltb_lt. rewrite Forall_forall in Hp. apply Hp, list_elem_of_In, Hc. }
  eexists _, _. unfold generateLinkedInAuthUrl. rewrite Hb.
  split; [reflexivity|]. split; [reflexivity|].
  split; [|apply atob_btoa, Hb].
  rewrite authorization_url_param by (apply b64_encode_ascii, Hp).
  apply assoc_state.
Qed.

(** C7, as stated, fails: when [Math.random()] gives 0, the text of the draw
    is "0", nothing is left after its first two characters, and the state
    decodes to an empty nonce. *)
Lemma C7_draw_zero_empty_nonce :
  is_random36 draw_zero = true
  /\ substring draw_zero 2 15 = []
  /\ exists url,
       generateLinkedInAuthUrl draw_zero user_id_1 = inr url
       /\ decode_state url = Some [(lit "nonce", []); (lit "userId", lit "user-1")].
Proof.
  split; [reflexivity|]. split; [reflexivity|].
  eexists. split; [reflexivity|]. vm_compute. reflexivity.
Qed.

(** A user id with a code unit above 255 (here the Greek letter pi) makes
    [btoa] throw: no URL is built. *)
Example generateLinkedInAuthUrl_wide_user_id :
  generateLinkedInAuthUrl draw_4fzyo [960] = inl InvalidCharacterError.
Proof. reflexivity. Qed.

(** ** The redirect URI of the token exchange *)

Lemma token_request_redirect_uri env orig code :
  body (token_request env orig code) ≫= assoc (lit "redirect_uri")
  = Some (orig ++ lit "/api/linkedin/callback").
Proof.
  unfold token_request. cbn [body mbind option_bind assoc].
  repeat (rewrite decide_False by (vm_compute; discriminate)).
  rewrite decide_True by reflexivity. reflexivity.
Qed.

(** The builder of the authorization URL sends the [redirectUri] of
    [LINKEDIN_CONFIG]. *)
Lemma authorization_url_redirect_uri random36 userId url :
  generateLinkedInAuthUrl random36 userId = inr url ->
  url_param url (lit "redirect_uri") = Some (redirectUri LINKEDIN_CONFIG).
Proof.
  unfold generateLinkedInAuthUrl, btoa.
  destruct (forallb _ (statePayload userId (substring random36 2 15))) eqn:Hbytes;
    [|discriminate].
  cbv beta iota. intros H. apply (inj inr) in H. subst url.
  apply forallb_byte_Forall in Hbytes.
  rewrite authorization_url_param by (apply b64_encode_ascii, Hbytes).
  unfold authorization_params. cbn [assoc].
  repeat (rewrite decide_False by (vm_compute; discriminate)).
  rewrite decide_True by reflexivity. reflexivity.
Qed.

(** C8, as the code has it.  The [redirect_uri] of the token exchange is the
    origin of the callback request followed by [/api/linkedin/callback]; it is
    the [redirectUri] of [LINKEDIN_CONFIG], which the builder of the
    authorization URL sends, exactly when that origin is
    [http://localhost:3000]. *)
Theorem C8_redirect_uri_from_origin env d request init :
  EvFetch TOKEN_URL init ∈ trace (run env d request).2 ->
  body init ≫= assoc (lit "redirect_uri")
  = Some (origin request ++ lit "/api/linkedin/callback")
  /\ (origin request ++ lit "/api/linkedin/callback" = redirectUri LINKEDIN_CONFIG
      <-> origin request = lit "http://localhost:3000")
  /\ (forall random36 userId url,
        generateLinkedInAuthUrl random36 userId = inr url ->
        url_param url (lit "redirect_uri") = Some (redirectUri LINKEDIN_CONFIG)).
Proof.
  intros Hin. split; [|split].
  - destruct (run_anatomy env d request) as [Hev _].
    specialize (Hev _ Hin). cbn [event_explained] in Hev.
    destruct Hev as [[_ ->] | (a & x & _ & Hurl & _)].
    + apply token_request_redirect_uri.
    + vm_compute in Hurl. discriminate.
  - change (redirectUri LINKEDIN_CONFIG)
      with (lit "http://localhost:3000" ++ lit "/api/linkedin/callback").
    split; [apply app_inv_tail | intros ->; reflexivity].
  - apply authorization_url_redirect_uri.
Qed.

Lemma C8_redirect_uri_from_origin_witness :
  EvFetch TOKEN_URL
    (token_request happy_env (lit "http://localhost:3000") (JsJson (JStr (lit "abc"))))
    ∈ trace (run happy_env two_profiles code_request).2
  /\ body (token_request happy_env (lit "http://localhost:3000") (JsJson (JStr (lit "abc"))))
       ≫= assoc (lit "redirect_uri")
     = Some (lit "http://localhost:3000" ++ lit "/api/linkedin/callback").
Proof.
  assert (Hin : EvFetch TOKEN_URL
                  (token_request happy_env (lit "http://localhost:3000")
                     (JsJson (JStr (lit "abc"))))
                  ∈ trace (run happy_env two_profiles code_request).2).
  { vm_compute. apply list_elem_of_further, list_elem_of_here. }
  split; [exact Hin|].
  exact (proj1 (C8_redirect_uri_from_origin happy_env two_profiles code_request _ Hin)).
Defined.

(** C8, as stated, fails: for a callback that arrives at another origin the
    [redirect_uri] of the token exchange is not the registered one. *)
Lemma C8_other_origin_other_redirect_uri :
  exists init,
    EvFetch TOKEN_URL init ∈ trace (run happy_env two_profiles deployed_request).2
    /\ body init ≫= assoc (lit "redirect_uri")
       = Some (lit "https://autolink.example.com/api/linkedin/callback")
    /\ body init ≫= assoc (lit "redirect_uri") <> Some (redirectUri LINKEDIN_CONFIG).
Proof.
  exists (token_request happy_env (lit "https://autolink.example.com")
            (JsJson (JStr (lit "abc")))).
  split; [vm_compute; apply list_elem_of_further, list_elem_of_here|].
  split; [vm_compute; reflexivity | vm_compute; discriminate].
Qed.

(** * More of the callback handler *)

Local Open Scope Z_scope.

Lemma call_of_token init : call_of (EvFetch TOKEN_URL init) = TokenFetch.
Proof. reflexivity. Qed.

Lemma call_of_userinfo init : call_of (EvFetch USERINFO_URL init) = ProfileFetch.
Proof. reflexivity. Qed.

Lemma success_is_no_failure a msg :
  a ++ lit "/#/app/settings?success=true"
  <> a ++ lit "/#/app/settings?error=exchange_failed&msg=" ++ msg.
Proof.
  intros H. apply app_inv_head in H. vm_compute in H. discriminate.
Qed.

Lemma redirect_eq (a b : jstring) :
  @Returned NextResponse (redirect a) = Returned (redirect b) -> a = b.
Proof. congruence. Qed.

Lemma EvError_eq label err label' err' :
  EvError label err = EvError label' err' -> label = label' /\ err = err'.
Proof. intros H. split; congruence. Qed.

(** The case analysis of a run that entered the [try] block: on what each
    collaborator answered, in the order they are asked. *)
Ltac run_cases env :=
  unfold GET_try_result, update_profile_result, GET_catch_result;
  cbv zeta;
  destruct (createClient_outcome env) eqn:Hcc;
  [| destruct (exchange_outcome env) as [[?a ?x]|?] eqn:Hex;
     [ destruct (profile_outcome env) as [?l|?] eqn:Hpo;
       [ destruct (getUser_outcome env) as [?|[?u|]] eqn:Hu;
         [ | match goal with
             | |- context [toISOString ?t] =>
                 destruct (toISOString t) as [?|?iso] eqn:Hiso
             end;
             [ | destruct (update_outcome env) as [?|[?|]] eqn:Hupd ] | ] | ] | ] ];
  cbn [trace db log fst snd app].

(** ** The answers given before the [try] block *)

(** X1.  A callback that carries no [error] (the parameter is absent or
    empty) and no [code] (absent or empty) is answered with the redirect to
    [error=missing_code]; the handler calls nothing and leaves the store as it
    was. *)
Theorem callback_without_code env d request :
  (assoc (lit "error") (searchParams request) = None
   \/ assoc (lit "error") (searchParams request) = Some []) ->
  (assoc (lit "code") (searchParams request) = None
   \/ assoc (lit "code") (searchParams request) = Some []) ->
  run env d request
  = (Returned (redirect (origin request ++ lit "/#/app/settings?error=missing_code")),
     {| db := d; trace := [] |}).
Proof.
  intros Herr Hcode. unfold run. rewrite GET_run. cbv zeta.
  unfold searchParams_get.
  destruct Herr as [-> | ->], Hcode as [-> | ->]; reflexivity.
Qed.

Lemma callback_without_code_witness :
  run happy_env two_profiles empty_code_request
  = (Returned (redirect (lit "http://localhost:3000/#/app/settings?error=missing_code")),
     {| db := two_profiles; trace := [] |}).
Proof.
  apply (callback_without_code happy_env two_profiles empty_code_request);
    [left | right]; reflexivity.
Defined.

(** X2.  A non-empty [error] parameter wins over everything else, a [code]
    included: the answer is the redirect whose [error] is that value and whose
    [msg] is the [error_description], both copied as they are (nothing is
    encoded), the text [null] standing for a description that is absent; the
    handler calls nothing. *)
Theorem provider_error_wins env d request e :
  assoc (lit "error") (searchParams request) = Some e -> e <> [] ->
  let description :=
    match assoc (lit "error_description") (searchParams request) with
    | Some m => m
    | None => lit "null"
    end in
  run env d request
  = (Returned (redirect (origin request ++ lit "/#/app/settings?error=" ++ e
                         ++ lit "&msg=" ++ description)),
     {| db := d; trace := [] |}).
Proof.
  intros He Hne. cbv zeta. unfold run. rewrite GET_run. cbv zeta.
  unfold searchParams_get. rewrite He.
  destruct e as [|c e]; [congruence|]. cbn [truthy].
  destruct (assoc (lit "error_description") _); reflexivity.
Qed.

Lemma provider_error_wins_witness :
  run happy_env two_profiles error_and_code_request
  = (Returned (redirect (lit "http://localhost:3000/#/app/settings?error=user_cancelled_login&msg=null")),
     {| db := two_profiles; trace := [] |}).
Proof.
  apply (provider_error_wins happy_env two_profiles error_and_code_request
           (lit "user_cancelled_login")); [reflexivity | discriminate].
Defined.

(** X3.  The handler reads [state] and never uses it: two callbacks with the
    same origin, [code], [error] and [error_description] are handled alike
    (same answer, same calls, same store), whatever their [state] and their
    other parameters. *)
Theorem state_parameter_ignored env d (request request' : NextRequest) :
  origin request = origin request' ->
  assoc (lit "code") (searchParams request) = assoc (lit "code") (searchParams request') ->
  assoc (lit "error") (searchParams request) = assoc (lit "error") (searchParams request') ->
  assoc (lit "error_description") (searchParams request)
  = assoc (lit "error_description") (searchParams request') ->
  run env d request = run env d request'.
Proof.
  intros Horigin Hcode Herr Hdesc. unfold run. rewrite !GET_run. cbv zeta.
  unfold searchParams_get. rewrite Horigin, Hcode, Herr, Hdesc. reflexivity.
Qed.

Lemma state_parameter_ignored_witness :
  assoc (lit "state") (searchParams code_request)
  <> assoc (lit "state") (searchParams forged_state_request)
  /\ run happy_env two_profiles code_request
     = run happy_env two_profiles forged_state_request.
Proof.
  split; [vm_compute; discriminate|].
  apply (state_parameter_ignored happy_env two_profiles code_request forged_state_request);
    reflexivity.
Defined.

(** ** The calls of a run and its answer *)

(** X4.  The calls of an invocation are made in one fixed order (store
    client, token endpoint, profile endpoint, user lookup, then the update or
    the warning), each at most once and none after the first that fails, whose
    failure is followed by one [console.error]; no other URL is fetched.  The
    answer is the redirect to [success=true] exactly when the last call is the
    update or the warning. *)
Theorem calls_in_order env d request :
  calls env d request ∈ call_sequences
  /\ ((run env d request).1
      = Returned (redirect (origin request ++ lit "/#/app/settings?success=true"))
      <-> last (calls env d request) = Some Warn
          \/ last (calls env d request) = Some Update).
Proof.
  unfold calls, run. rewrite GET_run. cbv zeta.
  destruct (truthy (searchParams_get _ (lit "error"))).
  { cbn. split; [set_solver|]. split; [|intros [H|H]; discriminate].
    intros H. apply redirect_eq, app_inv_head in H. vm_compute in H. discriminate. }
  destruct (negb (truthy (searchParams_get _ (lit "code")))).
  { cbn. split; [set_solver|]. split; [|intros [H|H]; discriminate].
    intros H. apply redirect_eq, app_inv_head in H. vm_compute in H. discriminate. }
  run_cases env; cbn [fmap list_fmap];
  rewrite ?call_of_token, ?call_of_userinfo; cbn [call_of last].
  all: split; [unfold call_sequences; set_solver|].
  all: try (split; [intros _; auto | intros _; reflexivity]; fail).
  all: split; [| intros [H|H]; discriminate H].
  all: destruct (encodeURIComponent _); intros H; [|discriminate H].
  all: apply redirect_eq in H; symmetry in H; apply success_is_no_failure in H; contradiction.
Qed.

(** X5.  Whatever the request and the surroundings, an invocation that
    returns answers with a redirect to the settings page of the request's own
    origin (the URL starts with the origin followed by [/#/app/settings?]);
    the one fault that can leave the handler is the [URIError] of the [catch]
    block, for a caught error whose message holds an unpaired surrogate. *)
Theorem answer_forms env d request :
  match (run env d request).1 with
  | Returned r =>
      is_prefix (origin request ++ lit "/#/app/settings?") (location r) = true
  | Thrown e =>
      e = URIError (lit "URI malformed")
      /\ exists err,
           last (trace (run env d request).2)
           = Some (EvError (lit "LinkedIn OAuth Processing Error:") err)
           /\ well_formed (err_message err) = false
  end.
Proof.
  assert (Hprefix : forall a b c : jstring, is_prefix (a ++ b) (a ++ b ++ c) = true).
  { intros a b c. rewrite app_assoc. apply is_prefix_app. }
  unfold run. rewrite GET_run. cbv zeta.
  destruct (truthy (searchParams_get _ (lit "error"))).
  { cbn [fst location].
    change (lit "/#/app/settings?error=") with (lit "/#/app/settings?" ++ lit "error=").
    rewrite <- (app_assoc (lit "/#/app/settings?")). apply Hprefix. }
  destruct (negb (truthy (searchParams_get _ (lit "code")))).
  { cbn [fst location].
    change (lit "/#/app/settings?error=missing_code")
      with (lit "/#/app/settings?" ++ lit "error=missing_code").
    apply Hprefix. }
  run_cases env.
  all: try (change (lit "/#/app/settings?success=true")
              with (lit "/#/app/settings?" ++ lit "success=true");
            apply Hprefix).
  all: match goal with
       | |- context [encodeURIComponent (err_message ?e)] =>
           destruct (encodeURIComponent (err_message e)) as [msg|] eqn:Henc
       end.
  all: try (change (lit "/#/app/settings?error=exchange_failed&msg=")
              with (lit "/#/app/settings?" ++ lit "error=exchange_failed&msg=");
            rewrite <- (app_assoc (lit "/#/app/settings?")); apply Hprefix).
  all: split; [reflexivity|]; eexists; split; [reflexivity|].
  all: match goal with
       | |- well_formed ?m = false =>
           destruct (well_formed m) eqn:Hwf; [|reflexivity];
           apply encodeURIComponent_well_formed in Hwf as [t Ht]; congruence
       end.
Qed.

(** X6.  The store is changed only by an invocation that ends in success:
    either the store after the run is the store before, or the answer is the
    redirect to [success=true], the last call is the update and the store
    reported no error.  An invocation that answers with a failure has written
    nothing. *)
Theorem store_changes_only_on_success env d request :
  db (run env d request).2 = d
  \/ ((run env d request).1
      = Returned (redirect (origin request ++ lit "/#/app/settings?success=true"))
      /\ last (calls env d request) = Some Update
      /\ update_outcome env = inr None).
Proof.
  unfold calls, run. rewrite GET_run. cbv zeta.
  destruct (truthy (searchParams_get _ (lit "error"))); [left; reflexivity|].
  destruct (negb (truthy (searchParams_get _ (lit "code")))); [left; reflexivity|].
  run_cases env; try (left; reflexivity).
  right. repeat split.
Qed.

(** ** The two requests the handler sends *)

Lemma ToString_env_var env name : ToString (env_var env name) = env_text env name.
Proof. unfold env_var, env_text. destruct (process_env env name); reflexivity. Qed.

(** X7.  Every request to the token endpoint is a POST of a form with, in
    this order, [grant_type=authorization_code], the [code] of the callback
    (which is not empty), the client id and the client secret of the
    environment, and the redirect URI made from the origin.  A variable of the
    environment that is not set is not noticed: the text [undefined] is sent
    in its place. *)
Theorem token_request_contents env d request init :
  EvFetch TOKEN_URL init ∈ trace (run env d request).2 ->
  exists c code,
    assoc (lit "code") (searchParams request) = Some (c :: code)
    /\ init = {| method := Some (lit "POST");
                 headers := [(lit "Content-Type", lit "application/x-www-form-urlencoded")];
                 body := Some
                   [ (lit "grant_type", lit "authorization_code");
                     (lit "code", c :: code);
                     (lit "client_id", env_text env (lit "LINKEDIN_CLIENT_ID"));
                     (lit "client_secret", env_text env (lit "LINKEDIN_CLIENT_SECRET"));
                     (lit "redirect_uri", origin request ++ lit "/api/linkedin/callback") ] |}.
Proof.
  intros Hin.
  assert (Hcode : exists c code,
             assoc (lit "code") (searchParams request) = Some (c :: code)).
  { revert Hin. unfold run. rewrite GET_run. cbv zeta.
    destruct (truthy (searchParams_get _ (lit "error")));
      [intros H; apply elem_of_nil in H; contradiction|].
    unfold searchParams_get at 1.
    destruct (assoc (lit "code") (searchParams request)) as [[|c code]|];
      cbn [truthy negb]; try (intros H; apply elem_of_nil in H; contradiction).
    eauto. }
  destruct Hcode as (c & code & Hcode). exists c, code. split; [exact Hcode|].
  destruct (run_anatomy env d request) as [Hev _].
  specialize (Hev _ Hin). cbn [event_explained] in Hev.
  destruct Hev as [[_ ->] | (a & x & _ & Hurl & _)].
  - unfold token_request, searchParams_get. rewrite Hcode, !ToString_env_var. reflexivity.
  - vm_compute in Hurl. discriminate.
Qed.

Lemma token_request_contents_witness :
  exists c code,
    assoc (lit "code") (searchParams code_request) = Some (c :: code)
    /\ token_request unconfigured_env (lit "http://localhost:3000") (JsJson (JStr (lit "abc")))
       = {| method := Some (lit "POST");
            headers := [(lit "Content-Type", lit "application/x-www-form-urlencoded")];
            body := Some
              [ (lit "grant_type", lit "authorization_code");
                (lit "code", c :: code);
                (lit "client_id", lit "undefined");
                (lit "client_secret", lit "undefined");
                (lit "redirect_uri", lit "http://localhost:3000/api/linkedin/callback") ] |}.
Proof.
  apply (token_request_contents unconfigured_env two_profiles code_request).
  vm_compute. apply list_elem_of_further, list_elem_of_here.
Defined.

(** X8.  The profile endpoint is asked only after a success answer of the
    token endpoint, by a request without method or body whose one header is
    [Authorization: Bearer] followed by the text of the [access_token] of that
    answer (the text [undefined] when the answer has none). *)
Theorem profile_request_bears_token env d request init :
  EvFetch USERINFO_URL init ∈ trace (run env d request).2 ->
  exists tokenData accessToken,
    token_endpoint env = json_response true tokenData
    /\ get_prop (JsJson tokenData) (lit "access_token") = inr accessToken
    /\ init = {| method := None;
                 headers := [(lit "Authorization", lit "Bearer " ++ ToString accessToken)];
                 body := None |}.
Proof.
  intros Hin.
  destruct (run_anatomy env d request) as [Hev _].
  specialize (Hev _ Hin). cbn [event_explained] in Hev.
  destruct Hev as [[Hurl _] | (a & x & Hex & _ & ->)].
  - vm_compute in Hurl. discriminate.
  - destruct (exchange_outcome_returned env a x Hex) as (td & (r & Hr & Hok & Hbody) & Ha & _).
    exists td, a. split; [|split; [exact Ha | reflexivity]].
    rewrite Hr. destruct r as [o b]. cbn [ok json_body] in Hok, Hbody. subst o b.
    reflexivity.
Qed.

Lemma profile_request_bears_token_witness :
  exists tokenData accessToken,
    token_endpoint missing_access_token_env = json_response true tokenData
    /\ get_prop (JsJson tokenData) (lit "access_token") = inr accessToken
    /\ userinfo_request JsUndefined
       = {| method := None;
            headers := [(lit "Authorization", lit "Bearer " ++ ToString accessToken)];
            body := None |}.
Proof.
  apply (profile_request_bears_token missing_access_token_env two_profiles code_request).
  vm_compute. do 2 apply list_elem_of_further. apply list_elem_of_here.
Defined.

(** ** Failures inside the [try] block *)

(** X9.  When the store client cannot be created, nothing is sent: the only
    calls are [createClient] and the [console.error] of the error it threw,
    the store is untouched, and the answer is the redirect to
    [error=exchange_failed] with the encoded message of that error. *)
Theorem client_failure_sends_nothing env d request e :
  truthy (searchParams_get (searchParams request) (lit "error")) = false ->
  truthy (searchParams_get (searchParams request) (lit "code")) = true ->
  createClient_outcome env = Some e ->
  (run env d request).2
  = {| db := d;
       trace := [EvCreateClient; EvError (lit "LinkedIn OAuth Processing Error:") e] |}
  /\ forall msg,
       encodeURIComponent (err_message e) = Some msg ->
       (run env d request).1
       = Returned (redirect (origin request
                             ++ lit "/#/app/settings?error=exchange_failed&msg=" ++ msg)).
Proof.
  intros Herr Hcode Hcc.
  unfold run. rewrite GET_run. cbv zeta. rewrite Herr, Hcode. cbn [negb].
  unfold GET_try_result. rewrite Hcc. cbv zeta. unfold GET_catch_result. cbn [fst snd].
  split; [reflexivity|]. intros msg ->. reflexivity.
Qed.

Lemma client_failure_sends_nothing_witness :
  (run no_client_env two_profiles code_request).2
  = {| db := two_profiles;
       trace := [EvCreateClient;
                 EvError (lit "LinkedIn OAuth Processing Error:")
                   (Error (lit "supabaseUrl is required."))] |}
  /\ (run no_client_env two_profiles code_request).1
     = Returned (redirect (lit "http://localhost:3000/#/app/settings?error=exchange_failed&msg=supabaseUrl%20is%20required.")).
Proof.
  destruct (client_failure_sends_nothing no_client_env two_profiles code_request
              (Error (lit "supabaseUrl is required.")) eq_refl eq_refl eq_refl)
    as [Hworld Hanswer].
  split; [exact Hworld|]. apply Hanswer. reflexivity.
Defined.

(** X10.  When the token endpoint cannot be reached, or its answer cannot
    be read as JSON (whatever its status: the body is read before the status
    is looked at), the handler stops there: it asks neither the profile
    endpoint nor the store, logs that error and answers with the redirect to
    [error=exchange_failed] carrying its encoded message. *)
Theorem unreadable_token_answer_stops env d request e :
  truthy (searchParams_get (searchParams request) (lit "error")) = false ->
  truthy (searchParams_get (searchParams request) (lit "code")) = true ->
  createClient_outcome env = None ->
  (token_endpoint env = inl e
   \/ exists status_ok, token_endpoint env = inr {| ok := status_ok; json_body := inl e |}) ->
  calls env d request = [CreateClient; TokenFetch; LogError]
  /\ last (trace (run env d request).2)
     = Some (EvError (lit "LinkedIn OAuth Processing Error:") e)
  /\ db (run env d request).2 = d
  /\ forall msg,
       encodeURIComponent (err_message e) = Some msg ->
       (run env d request).1
       = Returned (redirect (origin request
                             ++ lit "/#/app/settings?error=exchange_failed&msg=" ++ msg)).
Proof.
  intros Herr Hcode Hcc Htok.
  assert (Hex : exchange_outcome env = Thrown e).
  { unfold exchange_outcome. destruct Htok as [-> | [o ->]]; reflexivity. }
  unfold calls, run. rewrite GET_run. cbv zeta. rewrite Herr, Hcode. cbn [negb].
  unfold GET_try_result. rewrite Hcc. cbv zeta. rewrite Hex.
  unfold GET_catch_result. cbn [fst snd log trace db app fmap list_fmap].
  split; [reflexivity|]. split; [reflexivity|]. split; [reflexivity|].
  intros msg ->. reflexivity.
Qed.

Lemma unreadable_token_answer_stops_witness :
  calls bad_gateway_env two_profiles code_request = [CreateClient; TokenFetch; LogError]
  /\ (run bad_gateway_env two_profiles code_request).1
     = Returned (redirect (lit "http://localhost:3000/#/app/settings?error=exchange_failed&msg=Unexpected%20token%20%3C%20in%20JSON%20at%20position%200")).
Proof.
  destruct (unreadable_token_answer_stops bad_gateway_env two_profiles code_request
              (SyntaxError (lit "Unexpected token < in JSON at position 0"))
              eq_refl eq_refl eq_refl (or_intror (ex_intro _ false eq_refl)))
    as (Hcalls & _ & _ & Hanswer).
  split; [exact Hcalls|]. apply Hanswer. reflexivity.
Defined.

(** X11.  A refusal of the token endpoint whose body is an object without
    [error_description], or with one that is falsy (empty, [null], 0,
    [false]), is reported with the message of the source, [LinkedIn token
    exchange failed]: that is the error logged and, encoded, the [msg] of the
    redirect; the profile endpoint and the store are not asked. *)
Theorem refusal_without_description env d request fields :
  truthy (searchParams_get (searchParams request) (lit "error")) = false ->
  truthy (searchParams_get (searchParams request) (lit "code")) = true ->
  createClient_outcome env = None ->
  token_endpoint env = json_response false (JObj fields) ->
  match assoc (lit "error_description") fields with
  | Some v => truthy (JsJson v) = false
  | None => True
  end ->
  run env d request
  = (Returned (redirect (origin request
        ++ lit "/#/app/settings?error=exchange_failed&msg=LinkedIn%20token%20exchange%20failed")),
     {| db := d;
        trace := [ EvCreateClient;
                   EvFetch TOKEN_URL
                     (token_request env (origin request)
                        (searchParams_get (searchParams request) (lit "code")));
                   EvError (lit "LinkedIn OAuth Processing Error:")
                     (Error (lit "LinkedIn token exchange failed")) ] |}).
Proof.
  intros Herr Hcode Hcc Htok Hdesc.
  unfold run. rewrite GET_run. cbv zeta. rewrite Herr, Hcode. cbn [negb].
  unfold GET_try_result, exchange_outcome.
  rewrite Hcc, Htok. unfold json_response. cbn [ok json_body negb get_prop].
  destruct (assoc (lit "error_description") fields) as [v|]; cbv zeta.
  - unfold js_or. rewrite Hdesc. reflexivity.
  - reflexivity.
Qed.

Lemma refusal_without_description_witness :
  (run bare_refusal_env two_profiles code_request).1
  = Returned (redirect (lit "http://localhost:3000/#/app/settings?error=exchange_failed&msg=LinkedIn%20token%20exchange%20failed")).
Proof.
  rewrite (refusal_without_description bare_refusal_env two_profiles code_request
             [(lit "error", JStr (lit "invalid_grant"))] eq_refl eq_refl eq_refl eq_refl I).
  reflexivity.
Defined.

(** X12.  A success answer of the token endpoint without [expires_in] makes
    the expiry an invalid date.  With an [access_token] that converts to text
    (or none) and a user found, [toISOString] then throws while the record is
    being built: the update is never issued, the store is untouched, and the
    answer is the redirect to [error=exchange_failed] with
    [msg=Invalid%20time%20value], after the profile endpoint and the auth
    client have been asked. *)
Theorem missing_expires_in_fails env d request token_fields profile_ok profileData u :
  truthy (searchParams_get (searchParams request) (lit "error")) = false ->
  truthy (searchParams_get (searchParams request) (lit "code")) = true ->
  createClient_outcome env = None ->
  token_endpoint env = json_response true (JObj token_fields) ->
  match assoc (lit "access_token") token_fields with
  | Some accessToken => converts_json accessToken = true
  | None => True
  end ->
  assoc (lit "expires_in") token_fields = None ->
  userinfo_endpoint env = json_response profile_ok profileData ->
  profileData <> JNull ->
  getUser_outcome env = inr (Some u) ->
  expiry env (now env) JsUndefined = None
  /\ (run env d request).1
     = Returned (redirect (origin request
                           ++ lit "/#/app/settings?error=exchange_failed&msg=Invalid%20time%20value"))
  /\ db (run env d request).2 = d
  /\ calls env d request = [CreateClient; TokenFetch; ProfileFetch; GetUser; LogError]
  /\ last (trace (run env d request).2)
     = Some (EvError (lit "LinkedIn OAuth Processing Error:")
               (RangeError (lit "Invalid time value"))).
Proof.
  intros Herr Hcode Hcc Htok _ Hei Hprof Hpd Hu.
  destruct (get_prop_not_null profileData (lit "sub") Hpd) as [l Hl].
  split; [reflexivity|].
  unfold calls, run. rewrite GET_run. cbv zeta. rewrite Herr, Hcode. cbn [negb].
  unfold GET_try_result, exchange_outcome, profile_outcome, update_profile_result.
  rewrite Hcc, Htok, Hprof, Hu. unfold json_response. cbn [ok json_body negb].
  rewrite Hl. cbn [get_prop]. rewrite Hei.
  destruct (assoc (lit "access_token") token_fields); cbv zeta;
    change (expiry env (now env) JsUndefined) with (@None Z);
    cbn [toISOString]; repeat split.
Qed.

Lemma missing_expires_in_fails_witness :
  (run missing_expires_in_env two_profiles code_request).1
  = Returned (redirect (lit "http://localhost:3000/#/app/settings?error=exchange_failed&msg=Invalid%20time%20value"))
  /\ db (run missing_expires_in_env two_profiles code_request).2 = two_profiles.
Proof.
  destruct (missing_expires_in_fails missing_expires_in_env two_profiles code_request
              [(lit "access_token", JStr (lit "T"))] true profile_ext123 user_U
              eq_refl eq_refl eq_refl eq_refl eq_refl eq_refl eq_refl
              ltac:(discriminate) eq_refl)
    as (_ & Hrun & Hdb & _).
  split; [exact Hrun | exact Hdb].
Defined.

(** X13.  For an integer [expires_in] of [n] seconds,
    [setSeconds(getSeconds() + n)] on a date created at [created] gives
    [created] plus [n] seconds plus the difference between the local offset at
    [created] and the one used to read the new local time back (nothing, when
    the offset is steady; an hour across a change of daylight saving time),
    the milliseconds of [created] kept, and an invalid date beyond the range
    of time values. *)
Theorem expiry_shift env created n :
  expiry env created (JsJson (JNum n))
  = TimeClip (created + n * 1000
              + (offset_at_utc (timezone env) created
                 - offset_at_local (timezone env)
                     (created + offset_at_utc (timezone env) created + n * 1000))).
Proof.
  unfold expiry, setSeconds, getSeconds, js_add, ToInteger.
  rewrite MakeDate_add_seconds. unfold UTC, LocalTime. f_equal. lia.
Qed.

(** X14.  When the update has been sent (the token answer has an
    [access_token] that converts to text and an integer [expires_in] that
    gives a valid expiry) and the store answers it with an error, or the call
    itself fails, that error is thrown on: it is logged and, encoded, is the
    [msg] of the redirect to [error=exchange_failed].  The update was the last
    call before the log. *)
Theorem store_error_reported env d request tokenData accessToken n expiresAt
    profile_ok profileData u e msg :
  truthy (searchParams_get (searchParams request) (lit "error")) = false ->
  truthy (searchParams_get (searchParams request) (lit "code")) = true ->
  createClient_outcome env = None ->
  token_endpoint env = json_response true tokenData ->
  get_prop (JsJson tokenData) (lit "access_token") = inr accessToken ->
  converts accessToken = true ->
  get_prop (JsJson tokenData) (lit "expires_in") = inr (JsJson (JNum n)) ->
  expiry env (now env) (JsJson (JNum n)) = Some expiresAt ->
  userinfo_endpoint env = json_response profile_ok profileData ->
  profileData <> JNull ->
  getUser_outcome env = inr (Some u) ->
  update_outcome env = inl e \/ update_outcome env = inr (Some e) ->
  encodeURIComponent (err_message e) = Some msg ->
  (run env d request).1
  = Returned (redirect (origin request
                        ++ lit "/#/app/settings?error=exchange_failed&msg=" ++ msg))
  /\ calls env d request
     = [CreateClient; TokenFetch; ProfileFetch; GetUser; Update; LogError]
  /\ last (trace (run env d request).2)
     = Some (EvError (lit "LinkedIn OAuth Processing Error:") e).
Proof.
  intros Herr Hcode Hcc Htok Hat _ Hx Hexp Hprof Hpd Hu Hupd Hmsg.
  assert (Htd : tokenData <> JNull) by (intros ->; discriminate Hx).
  destruct (exchange_succeeds env tokenData Htok Htd) as (a & x & Ha & Hx' & Hex).
  rewrite Hx in Hx'. apply (inj inr) in Hx'. subst x.
  destruct (get_prop_not_null profileData (lit "sub") Hpd) as [l Hl].
  unfold calls, run. rewrite GET_run. cbv zeta. rewrite Herr, Hcode. cbn [negb].
  unfold GET_try_result, profile_outcome, update_profile_result.
  rewrite Hcc, Hex, Hprof, Hu. unfold json_response. cbn [ok json_body].
  rewrite Hl. cbv zeta. rewrite Hexp. cbn [toISOString].
  unfold GET_catch_result.
  destruct Hupd as [-> | ->]; cbn [fst snd log db trace app]; rewrite Hmsg;
    repeat split.
Qed.

Lemma store_error_reported_witness :
  (run store_error_env two_profiles code_request).1
  = Returned (redirect (lit "http://localhost:3000/#/app/settings?error=exchange_failed&msg=permission%20denied%20for%20table%20profiles"))
  /\ calls store_error_env two_profiles code_request
     = [CreateClient; TokenFetch; ProfileFetch; GetUser; Update; LogError].
Proof.
  destruct (store_error_reported store_error_env two_profiles code_request
              token_T (JsJson (JStr (lit "T"))) 3600 1700003600000
              true profile_ext123 user_U permission_denied
              (lit "permission%20denied%20for%20table%20profiles")
              eq_refl eq_refl eq_refl eq_refl eq_refl eq_refl eq_refl eq_refl eq_refl
              ltac:(discriminate) eq_refl (or_intror eq_refl) eq_refl)
    as (Hrun & Hcalls & _).
  split; [exact Hrun | exact Hcalls].
Defined.

(** ** The message of the failure redirect *)

Lemma hex_digit_uri n : (n < 16)%N -> is_uri_char (hex_digit n) = true.
Proof.
  intros Hn. unfold is_uri_char, uri_unreserved, is_alnum, in_range, hex_digit.
  cbn [existsb]. split_if; N_tests; lia.
Qed.

Lemma percent_uri o : (o < 256)%N -> forallb is_uri_char (percent o) = true.
Proof.
  intros Ho. unfold percent. cbn [forallb].
  rewrite !hex_digit_uri by div_lia. reflexivity.
Qed.

Lemma utf8_octets cp : (cp < 1114112)%N -> Forall (fun o => o < 256)%N (utf8 cp).
Proof.
  intros Hcp. unfold utf8. repeat split_if; N_tests; repeat constructor; div_lia.
Qed.

Lemma percent_utf8_uri cp :
  (cp < 1114112)%N -> forallb is_uri_char (percent_utf8 cp) = true.
Proof.
  intros Hcp. unfold percent_utf8.
  pose proof (utf8_octets cp Hcp) as Hall.
  induction Hall as [|o os Ho _ IH]; [reflexivity|].
  cbn [List.map concat]. rewrite forallb_app, percent_uri by exact Ho. exact IH.
Qed.

(** What [encodeURIComponent] gives is made of unreserved characters and
    percent signs. *)
Lemma encodeURIComponent_chars s t :
  code_units s = true -> encodeURIComponent s = Some t -> forallb is_uri_char t = true.
Proof.
  remember (length s) as n eqn:Hn. revert s t Hn.
  induction (lt_wf n) as [n _ IH]. intros s t Hn Hs Henc.
  destruct s as [|c rest]; [injection Henc as <-; reflexivity|].
  cbn [encodeURIComponent] in Henc.
  unfold code_units in Hs. cbn [forallb] in Hs. apply andb_true_iff in Hs as [Hc Hrest].
  apply N.ltb_lt in Hc.
  assert (IHrest : forall t', encodeURIComponent rest = Some t' ->
                              forallb is_uri_char t' = true).
  { intros t' Ht'. apply (IH (length rest)) with (s := rest);
      [subst n; cbn; lia | reflexivity | exact Hrest | exact Ht']. }
  destruct (uri_unreserved c) eqn:Eu.
  - destruct (encodeURIComponent rest) as [t'|]; [|discriminate].
    injection Henc as <-. cbn [forallb]. unfold is_uri_char at 1. rewrite Eu.
    cbn [orb andb]. apply IHrest. reflexivity.
  - destruct (is_lead_surrogate c) eqn:El.
    + destruct rest as [|d rest']; [discriminate|].
      destruct (is_trail_surrogate d) eqn:Et; [|discriminate].
      destruct (encodeURIComponent rest') as [t'|] eqn:Er; [|discriminate].
      injection Henc as <-. rewrite forallb_app. apply andb_true_iff. split.
      * apply percent_utf8_uri.
        unfold is_lead_surrogate, is_trail_surrogate in El, Et. N_tests. lia.
      * cbn [forallb] in Hrest. apply andb_true_iff in Hrest as [_ Hrest'].
        apply (IH (length rest')) with (s := rest');
          [subst n; cbn; lia | reflexivity | exact Hrest' | exact Er].
    + destruct (is_trail_surrogate c); [discriminate|].
      destruct (encodeURIComponent rest) as [t'|]; [|discriminate].
      injection Henc as <-. rewrite forallb_app. apply andb_true_iff. split.
      * apply percent_utf8_uri. lia.
      * apply IHrest. reflexivity.
Qed.

(** X15.  Every error the handler logs is logged by the [catch] block, as
    the last call of the run, and decides the answer: the redirect to
    [error=exchange_failed] whose [msg] is the encoded message of that error,
    made only of letters, digits, [- _ . ! ~ * ' ( )] and percent escapes (so
    that no text of the message can end the parameter or start another), or
    the [URIError] when the message cannot be encoded. *)
Theorem failure_message_is_encoded env d request label err :
  EvError label err ∈ trace (run env d request).2 ->
  code_units (err_message err) = true ->
  label = lit "LinkedIn OAuth Processing Error:"
  /\ last (trace (run env d request).2) = Some (EvError label err)
  /\ match encodeURIComponent (err_message err) with
     | Some msg =>
         (run env d request).1
         = Returned (redirect (origin request
                               ++ lit "/#/app/settings?error=exchange_failed&msg=" ++ msg))
         /\ forallb is_uri_char msg = true
     | None => (run env d request).1 = Thrown (URIError (lit "URI malformed"))
     end.
Proof.
  unfold run. rewrite GET_run. cbv zeta.
  destruct (truthy (searchParams_get _ (lit "error")));
    [intros H; apply elem_of_nil in H; contradiction|].
  destruct (negb (truthy (searchParams_get _ (lit "code"))));
    [intros H; apply elem_of_nil in H; contradiction|].
  run_cases env; intros H Hunits;
    repeat (apply elem_of_cons in H as [H|H]; [try discriminate H|]);
    try (apply elem_of_nil in H; contradiction).
  all: apply EvError_eq in H as [-> ->].
  all: split; [reflexivity|]; split; [reflexivity|].
  all: destruct (encodeURIComponent (err_message _)) as [msg|] eqn:Henc; [|reflexivity].
  all: split; [reflexivity|]; apply (encodeURIComponent_chars _ _ Hunits Henc).
Qed.

Lemma failure_message_is_encoded_witness :
  (run refused_env two_profiles code_request).1
  = Returned (redirect (lit "http://localhost:3000/#/app/settings?error=exchange_failed&msg=Unable%20to%20retrieve%20access%20token"))
  /\ forallb is_uri_char (lit "Unable%20to%20retrieve%20access%20token") = true.
Proof.
  assert (Hin : EvError (lit "LinkedIn OAuth Processing Error:")
                  (Error (lit "Unable to retrieve access token"))
                ∈ trace (run refused_env two_profiles code_request).2).
  { vm_compute. do 2 apply list_elem_of_further. apply list_elem_of_here. }
  destruct (failure_message_is_encoded refused_env two_profiles code_request _ _ Hin eq_refl)
    as (_ & _ & Hmsg).
  exact Hmsg.
Defined.

(** ** Replaying the callback *)

Lemma apply_patch_lookup (fields : list (jstring * json)) (c : jstring) :
  exists o : option json,
    forall r : row,
      apply_patch fields r !! c = match o with Some v => Some v | None => r !! c end.
Proof.
  unfold apply_patch.
  induction fields as [|[k v] fields IH]; [exists None; reflexivity|].
  destruct IH as [[w|] Ho].
  - exists (Some w). intros r. cbn [foldl fst snd]. apply Ho.
  - destruct (decide (k = c)) as [->|Hne].
    + exists (Some v). intros r. cbn [foldl fst snd]. rewrite Ho. apply lookup_insert_eq.
    + exists None. intros r. cbn [foldl fst snd]. rewrite Ho.
      apply lookup_insert_ne. exact Hne.
Qed.

Lemma apply_patch_idempotent (fields : list (jstring * json)) (r : row) :
  apply_patch fields (apply_patch fields r) = apply_patch fields r.
Proof.
  apply map_eq. intros c.
  destruct (apply_patch_lookup fields c) as [o Ho].
  rewrite (Ho (apply_patch fields r)), (Ho r). destruct o; reflexivity.
Qed.

Lemma update_rows_idempotent (fields : list (jstring * json)) (column value : jstring)
    (rows : list row) :
  column ∉ fields.*1 ->
  update_rows fields column value (update_rows fields column value rows)
  = update_rows fields column value rows.
Proof.
  intros Hcol. unfold update_rows. rewrite <- list_fmap_compose.
  apply list_fmap_ext. intros i r _. cbn.
  destruct (row_matches column value r) eqn:Hm; [|rewrite Hm; reflexivity].
  assert (Hm' : row_matches column value (apply_patch fields r) = true).
  { unfold row_matches in *. rewrite apply_patch_lookup_ne by exact Hcol. exact Hm. }
  rewrite Hm'. apply apply_patch_idempotent.
Qed.

(** X16.  The write is idempotent: a second invocation for the same
    callback, met by the same answers of the surroundings, leaves the store as
    the first one left it (the update does not touch the column it filters
    on, and writes the same values again). *)
Theorem replay_changes_nothing env d request :
  db (run env (db (run env d request).2) request).2 = db (run env d request).2.
Proof.
  unfold run. rewrite !GET_run. cbv zeta.
  destruct (truthy (searchParams_get _ (lit "error"))); [reflexivity|].
  destruct (negb (truthy (searchParams_get _ (lit "code")))); [reflexivity|].
  run_cases env; try reflexivity.
  rewrite alter_alter_eq. apply alter_ext. intros rows _. unfold compose.
  apply update_rows_idempotent.
  intros Hin. apply JSON_fields_keys in Hin. rewrite update_payload_keys in Hin.
  vm_compute in Hin.
  repeat (apply elem_of_cons in Hin as [Hin | Hin]; [discriminate|]).
  apply elem_of_nil in Hin. exact Hin.
Qed.

(** ** Fields the provider did not send *)

Lemma connected_after_patch (l : jsval) (iso : jstring) (r : row) :
  apply_patch (JSON_fields (update_payload JsUndefined l iso)) r !! lit "linkedin_connected"
  = Some (JBool true).
Proof.
  unfold JSON_fields, update_payload, apply_patch.
  destruct l as [|j|name]; cbn [flat_map app foldl fst snd];
    (rewrite lookup_insert_ne by (vm_compute; discriminate));
    apply lookup_insert_eq.
Qed.

Lemma token_not_in_patch (l : jsval) (iso : jstring) :
  lit "linkedin_token" ∉ (JSON_fields (update_payload JsUndefined l iso)).*1.
Proof.
  intros Hin. unfold JSON_fields, update_payload in Hin.
  destruct l as [|j|name]; cbn [flat_map app fmap list_fmap fst snd] in Hin;
    vm_compute in Hin;
    repeat (apply elem_of_cons in Hin as [Hin | Hin]; [discriminate|]);
    apply elem_of_nil in Hin; exact Hin.
Qed.

(** X23.  When the success answer of the token endpoint is an object without
    [access_token], the update does not carry [linkedin_token] (a member whose
    value is [undefined] is left out of the body): every row keeps the token
    it had, and the rows the run changes are marked connected all the same. *)
Theorem absent_token_not_written env d request token_fields rows :
  token_endpoint env = json_response true (JObj token_fields) ->
  assoc (lit "access_token") token_fields = None ->
  d !! lit "profiles" = Some rows ->
  exists rows',
    db (run env d request).2 !! lit "profiles" = Some rows'
    /\ forall i (r r' : row),
         rows !! i = Some r -> rows' !! i = Some r' ->
         r' !! lit "linkedin_token" = r !! lit "linkedin_token"
         /\ (r' <> r -> r' !! lit "linkedin_connected" = Some (JBool true)).
Proof.
  intros Htok Hat Hrows.
  destruct (run_anatomy env d request) as [_ Hdb].
  destruct Hdb as [-> | (a & x & l & u & iso & Hex & _ & _ & _ & _ & ->)].
  - exists rows. split; [exact Hrows|].
    intros i r r' Hr Hr'. rewrite Hr in Hr'. injection Hr' as <-.
    split; [reflexivity | congruence].
  - assert (Ha : a = JsUndefined).
    { unfold exchange_outcome in Hex. rewrite Htok in Hex. unfold json_response in Hex.
      cbn [ok json_body negb get_prop] in Hex. rewrite Hat in Hex.
      destruct (assoc (lit "expires_in") token_fields); congruence. }
    subst a. eexists. rewrite lookup_alter_eq, Hrows. split; [reflexivity|].
    intros i r r' Hr Hr'.
    destruct (update_rows_frame _ _ _ _ _ _ _ Hr Hr') as [Hcols _].
    split; [apply Hcols, token_not_in_patch|].
    intros Hne. unfold update_rows in Hr'. rewrite list_lookup_fmap, Hr in Hr'.
    cbn [fmap option_fmap option_map] in Hr'.
    destruct (row_matches (lit "user_id") (id u) r); [|congruence].
    apply (inj Some) in Hr'. subst r'. apply connected_after_patch.
Qed.

Lemma absent_token_not_written_witness :
  exists rows',
    db (run missing_access_token_env two_profiles code_request).2 !! lit "profiles"
    = Some rows'
    /\ forall i (r r' : row),
         [row_U; row_V] !! i = Some r -> rows' !! i = Some r' ->
         r' !! lit "linkedin_token" = r !! lit "linkedin_token"
         /\ (r' <> r -> r' !! lit "linkedin_connected" = Some (JBool true)).
Proof.
  apply (absent_token_not_written missing_access_token_env two_profiles code_request
           [(lit "expires_in", JNum 3600)] [row_U; row_V]);
    [reflexivity | reflexivity | vm_compute; reflexivity].
Defined.

(** ** The date of the expiry text *)

(** X17.  The text [toISOString] gives for a time value spells the date of
    ECMA-262: its year is the year [y] whose days hold the day of the time
    value, its month and day of the month are those of the tables
    [MonthFromTime] (counted from 1) and [DateFromTime] for the day within
    that year, followed by the hour, minute, second and millisecond of the
    time value and by [Z]. *)
Theorem iso_text_calendar t :
  exists y m dd,
    DayFromYear y <= Day t < DayFromYear (y + 1)
    /\ m = MonthFromDay (Day t - DayFromYear y) (InLeapYear y) + 1
    /\ dd = DateFromDay (Day t - DayFromYear y) (InLeapYear y)
    /\ iso_text t
       = iso_year y ++ lit "-" ++ pad 2 m ++ lit "-" ++ pad 2 dd ++ lit "T"
         ++ pad 2 (HourFromTime t) ++ lit ":" ++ pad 2 (MinFromTime t) ++ lit ":"
         ++ pad 2 (SecFromTime t) ++ lit "." ++ pad 3 (msFromTime t) ++ lit "Z".
Proof.
  pose proof (civil_from_days_ecma (Day t)) as H. unfold iso_text.
  destruct (civil_from_days (Day t)) as [[y m] dd].
  destruct H as (Hy & Hm & Hd).
  exists y, m, dd. split; [exact Hy|]. split; [lia|]. split; [congruence | reflexivity].
Qed.

(** * More of the authorization URL *)

Local Open Scope N_scope.

(** ** User ids [btoa] cannot take *)

Lemma json_escape_wide c : 256 <= c -> json_escape c = [c].
Proof.
  intros Hc. unfold json_escape.
  repeat split_if; N_tests; try lia. reflexivity.
Qed.

(** A code unit above 255 that is not a surrogate is written as it is. *)
Lemma quote_body_keeps c s :
  c ∈ s -> 256 <= c -> is_lead_surrogate c = false -> is_trail_surrogate c = false ->
  c ∈ quote_body s.
Proof.
  intros Hin Hc Hl Ht.
  remember (length s) as n eqn:Hn. revert s Hn Hin.
  induction (lt_wf n) as [n _ IH]. intros s Hn Hin.
  destruct s as [|c0 rest]; [apply elem_of_nil in Hin; contradiction|].
  assert (IHrest : c ∈ rest -> c ∈ quote_body rest).
  { intros H. apply (IH (length rest)); [subst n; cbn; lia | reflexivity | exact H]. }
  cbn [quote_body].
  destruct (is_lead_surrogate c0) eqn:El0.
  - apply elem_of_cons in Hin as [-> | Hin]; [congruence|].
    destruct rest as [|d rest']; [apply elem_of_nil in Hin; contradiction|].
    destruct (is_trail_surrogate d) eqn:Etd.
    + apply elem_of_cons in Hin as [-> | Hin]; [congruence|].
      do 2 apply list_elem_of_further.
      apply (IH (length rest')); [subst n; cbn; lia | reflexivity | exact Hin].
    + apply elem_of_app. right. apply IHrest. exact Hin.
  - destruct (is_trail_surrogate c0) eqn:Et0.
    + apply elem_of_cons in Hin as [-> | Hin]; [congruence|].
      apply elem_of_app. right. apply IHrest, Hin.
    + apply elem_of_app.
      apply elem_of_cons in Hin as [<- | Hin].
      * left. rewrite json_escape_wide by exact Hc. apply list_elem_of_here.
      * right. apply IHrest, Hin.
Qed.

(** X18.  A user id that holds a code unit above 255 other than a surrogate
    (any character outside Latin-1 of the basic plane) cannot be put in a
    state: [JSON.stringify] writes that character as it is, [btoa] throws an
    [InvalidCharacterError] on it, and no URL is built, whatever the draw of
    [Math.random()]. *)
Theorem wide_user_id_rejected random36 userId c :
  c ∈ userId -> 256 <= c ->
  is_lead_surrogate c = false -> is_trail_surrogate c = false ->
  generateLinkedInAuthUrl random36 userId = inl InvalidCharacterError.
Proof.
  intros Hin Hc Hl Ht.
  pose proof (quote_body_keeps c userId Hin Hc Hl Ht) as Hq.
  unfold generateLinkedInAuthUrl, btoa.
  destruct (forallb _ (statePayload userId (substring random36 2 15))) eqn:Hall;
    [|reflexivity].
  exfalso. rewrite forallb_forall in Hall.
  assert (Hc' : (c <? 256) = true).
  { apply Hall, list_elem_of_In. rewrite statePayload_shape.
    apply list_elem_of_further, elem_of_app. right.
    apply list_elem_of_further. apply elem_of_app. left.
    unfold QuoteJSONString. apply elem_of_app. right. apply elem_of_app. left. exact Hq. }
  apply N.ltb_lt in Hc'. lia.
Qed.

Lemma wide_user_id_rejected_witness :
  generateLinkedInAuthUrl draw_4fzyo [960] = inl InvalidCharacterError.
Proof.
  apply (wide_user_id_rejected draw_4fzyo [960] 960);
    [apply list_elem_of_here | lia | reflexivity | reflexivity].
Defined.

(** ** The payload of the state, for every user id *)

Lemma parse_unicode_escape c rest :
  c < 65536 ->
  parse_string_body (unicode_escape c ++ rest)
  = match parse_string_body rest with
    | Some (str, tl) => Some (c :: str, tl)
    | None => None
    end.
Proof.
  intros Hc. unfold unicode_escape. cbn [app].
  change (parse_string_body
            (92 :: 117 :: hex_digit_lower (c / 4096) :: hex_digit_lower ((c / 256) mod 16)
               :: hex_digit_lower ((c / 16) mod 16) :: hex_digit_lower (c mod 16) :: rest))
    with (match hex_value (hex_digit_lower (c / 4096)),
                hex_value (hex_digit_lower ((c / 256) mod 16)),
                hex_value (hex_digit_lower ((c / 16) mod 16)),
                hex_value (hex_digit_lower (c mod 16)),
                parse_string_body rest with
          | Some a, Some b, Some c', Some d, Some (str, tl) =>
              Some ((a * 4096 + b * 256 + c' * 16 + d) :: str, tl)
          | _, _, _, _, _ => None
          end).
  rewrite !hex_value_lower by div_lia.
  destruct (parse_string_body rest) as [[str tl]|]; [|reflexivity].
  do 2 f_equal. f_equal. div_lia.
Qed.

Lemma parse_plain_unit c rest :
  32 <= c -> c <> 34 -> c <> 92 ->
  parse_string_body (c :: rest)
  = match parse_string_body rest with
    | Some (str, tl) => Some (c :: str, tl)
    | None => None
    end.
Proof.
  intros H32 H34 H92. cbn [parse_string_body].
  apply N.eqb_neq in H34, H92. rewrite H34, H92.
  replace (c <? 32) with false by (symmetry; apply N.ltb_ge; lia). reflexivity.
Qed.

Lemma parse_json_escape_unit c rest :
  c < 65536 ->
  parse_string_body (json_escape c ++ rest)
  = match parse_string_body rest with
    | Some (str, tl) => Some (c :: str, tl)
    | None => None
    end.
Proof.
  intros Hc. unfold json_escape.
  repeat split_if; N_tests; subst; try reflexivity.
  - apply parse_unicode_escape. lia.
  - cbn [app]. apply parse_plain_unit; lia.
Qed.

(** [JSON.parse] reads back what [JSON.stringify] wrote, for every string:
    escapes, surrogate pairs and unpaired surrogates included. *)
Lemma parse_quote_body_units s rest :
  code_units s = true ->
  parse_string_body (quote_body s ++ 34 :: rest) = Some (s, rest).
Proof.
  remember (length s) as n eqn:Hn. revert s Hn.
  induction (lt_wf n) as [n _ IH]. intros s Hn Hs.
  destruct s as [|c s']; [reflexivity|].
  unfold code_units in Hs. cbn [forallb] in Hs. apply andb_true_iff in Hs as [Hc Hs'].
  apply N.ltb_lt in Hc.
  assert (IHs' : parse_string_body (quote_body s' ++ 34 :: rest) = Some (s', rest)).
  { apply (IH (length s')); [subst n; cbn; lia | reflexivity | exact Hs']. }
  cbn [quote_body].
  destruct (is_lead_surrogate c) eqn:El.
  - destruct s' as [|d s''].
    + rewrite parse_unicode_escape by exact Hc. reflexivity.
    + destruct (is_trail_surrogate d) eqn:Et.
      * cbn [app].
        unfold is_lead_surrogate, is_trail_surrogate in El, Et. N_tests.
        rewrite parse_plain_unit by lia. rewrite parse_plain_unit by lia.
        cbn [forallb] in Hs'. apply andb_true_iff in Hs' as [_ Hs''].
        rewrite (IH (length s'')); [reflexivity | subst n; cbn; lia | reflexivity | exact Hs''].
      * rewrite <- app_assoc, parse_unicode_escape by exact Hc. rewrite IHs'. reflexivity.
  - destruct (is_trail_surrogate c).
    + rewrite <- app_assoc, parse_unicode_escape by exact Hc. rewrite IHs'. reflexivity.
    + rewrite <- app_assoc, parse_json_escape_unit by exact Hc. rewrite IHs'. reflexivity.
Qed.

Lemma parse_QuoteJSONString_units s rest :
  code_units s = true -> parse_string (QuoteJSONString s ++ rest) = Some (s, rest).
Proof.
  intros Hs. unfold QuoteJSONString, parse_string.
  cbn [app]. rewrite <- app_assoc. apply parse_quote_body_units, Hs.
Qed.

(** The payload parses back to its two members, whatever the user id. *)
Lemma JSON_parse_statePayload_units userId nonce :
  code_units userId = true -> code_units nonce = true ->
  JSON_parse_flat (statePayload userId nonce)
  = Some [(lit "nonce", nonce); (lit "userId", userId)].
Proof.
  intros Hu Hn. rewrite statePayload_shape.
  unfold JSON_parse_flat.
  change (QuoteJSONString (lit "userId"))
    with (34 :: (quote_body (lit "userId") ++ [34])) at 1.
  cbn [app].
  change (34 :: (quote_body (lit "userId") ++ [34]) ++ 58 :: QuoteJSONString userId
             ++ 44 :: QuoteJSONString (lit "nonce") ++ 58 :: QuoteJSONString nonce ++ [125])
    with (QuoteJSONString (lit "userId") ++ 58 :: QuoteJSONString userId
             ++ 44 :: QuoteJSONString (lit "nonce") ++ 58 :: QuoteJSONString nonce ++ [125]).
  cbn [length].
  remember (QuoteJSONString userId) as qu.
  remember (QuoteJSONString (lit "nonce")) as qn.
  remember (QuoteJSONString nonce) as qv.
  assert (Hlen : exists fuel,
             length (QuoteJSONString (lit "userId") ++ 58 :: qu ++ 44 :: qn ++ 58 :: qv ++ [125])
             = S fuel).
  { rewrite length_app. cbn [length]. eexists. rewrite Nat.add_succ_r. reflexivity. }
  destruct Hlen as [fuel ->]. subst qu qn qv.
  cbn [parse_members].
  rewrite parse_QuoteJSONString_units by reflexivity.
  rewrite parse_QuoteJSONString_units by exact Hu.
  rewrite parse_QuoteJSONString_units by reflexivity.
  rewrite parse_QuoteJSONString_units by exact Hn.
  destruct fuel; reflexivity.
Qed.

(** X19.  Whenever [btoa] accepts the payload, undoing the two steps of the
    builder ([atob], then [JSON.parse]) gives back exactly the user id and the
    nonce, for every user id and nonce: quotes, backslashes, control
    characters and unpaired surrogates in the user id are escaped by
    [JSON.stringify] and read back as they were, and cannot pass for another
    member of the payload. *)
Theorem state_text_decodes userId nonce state :
  code_units userId = true -> code_units nonce = true ->
  btoa (statePayload userId nonce) = inr state ->
  atob state ≫= JSON_parse_flat
  = Some [(lit "nonce", nonce); (lit "userId", userId)].
Proof.
  intros Hu Hn Hb. rewrite (atob_btoa _ _ Hb). cbn [mbind option_bind].
  apply JSON_parse_statePayload_units; assumption.
Qed.

Lemma state_text_decodes_witness :
  atob (b64_encode (statePayload user_id_odd (lit "4fzyo82mvyr"))) ≫= JSON_parse_flat
  = Some [(lit "nonce", lit "4fzyo82mvyr"); (lit "userId", user_id_odd)].
Proof.
  apply (state_text_decodes user_id_odd (lit "4fzyo82mvyr")); reflexivity.
Defined.

(** ** The nonce *)

(** X20.  The nonce is the first 13 digits, or all of them when there are
    fewer, of the fraction of the draw in base 36: it has at most 13
    characters, each a digit or a lower-case letter, and exactly 13 when the
    text of the draw has 15 characters or more. *)
Theorem nonce_shape random36 :
  is_random36 random36 = true ->
  let nonce := substring random36 2 15 in
  (length nonce <= 13)%nat
  /\ forallb is_base36_digit nonce = true
  /\ (random36 = lit "0" \/ exists tail, random36 = lit "0." ++ nonce ++ tail)
  /\ ((15 <= length random36)%nat -> length nonce = 13%nat).
Proof.
  intros H nonce. subst nonce. unfold substring.
  split; [rewrite length_take; lia|].
  destruct (is_random36_cases random36 H) as [-> | (d & ds & -> & Hds)].
  - split; [reflexivity|]. split; [left; reflexivity|]. cbn. lia.
  - cbn [drop]. split; [|split].
    + apply forallb_forall. intros c Hc. rewrite forallb_forall in Hds.
      apply Hds. apply list_elem_of_In. apply list_elem_of_In in Hc.
      exact (subseteq_take _ _ _ Hc).
    + right. exists (drop (15 - 2) (d :: ds)).
      change (lit "0.") with [48; 46]. cbn [app]. rewrite take_drop. reflexivity.
    + intros Hlen. rewrite length_take. cbn [length] in *. lia.
Qed.

Lemma nonce_shape_witness :
  substring draw_4fzyo 2 15 = lit "4fzyo82mvyr"
  /\ (length (substring draw_4fzyo 2 15) <= 13)%nat
  /\ forallb is_base36_digit (substring draw_4fzyo 2 15) = true.
Proof.
  split; [reflexivity|].
  destruct (nonce_shape draw_4fzyo eq_refl) as (Hlen & Hdigits & _).
  split; [exact Hlen | exact Hdigits].
Defined.

(** ** The parameters of the URL *)

(** X21.  A URL that is built is the authorization endpoint followed by a
    query of five parameters.  Read back from the text of the URL,
    [response_type] is [code], [client_id] is the client id of
    [LINKEDIN_CONFIG], [scope] is its four scopes separated by spaces, and a
    name other than these three, [redirect_uri] and [state] has no value. *)
Theorem authorization_url_parameters random36 userId url :
  generateLinkedInAuthUrl random36 userId = inr url ->
  is_prefix (lit "https://www.linkedin.com/oauth/v2/authorization?") url = true
  /\ url_param url (lit "response_type") = Some (lit "code")
  /\ url_param url (lit "client_id") = Some (lit "86j7ddjv9w7b8m")
  /\ url_param url (lit "scope") = Some (lit "openid profile email w_member_social")
  /\ forall name,
       name ∉ [lit "response_type"; lit "client_id"; lit "redirect_uri"; lit "state";
               lit "scope"] ->
       url_param url name = None.
Proof.
  unfold generateLinkedInAuthUrl, btoa.
  destruct (forallb _ (statePayload userId (substring random36 2 15))) eqn:Hbytes;
    [|discriminate].
  cbv beta iota. intros H. apply (inj inr) in H. subst url.
  apply forallb_byte_Forall in Hbytes.
  split.
  { unfold url_toString, authorization_params.
    change (lit "https://www.linkedin.com/oauth/v2/authorization?")
      with (lit "https://www.linkedin.com/oauth/v2/authorization" ++ [63]).
    rewrite app_assoc. apply is_prefix_app. }
  rewrite !authorization_url_param by (apply b64_encode_ascii, Hbytes).
  split; [reflexivity|]. split; [reflexivity|]. split; [reflexivity|].
  intros name Hname.
  rewrite authorization_url_param by (apply b64_encode_ascii, Hbytes).
  unfold authorization_params. cbn [assoc].
  repeat (rewrite decide_False by (intros <-; apply Hname; set_solver)).
  reflexivity.
Qed.

Lemma authorization_url_parameters_witness :
  exists url,
    generateLinkedInAuthUrl draw_4fzyo user_id_1 = inr url
    /\ url_param url (lit "scope") = Some (lit "openid profile email w_member_social")
    /\ url_param url (lit "code") = None.
Proof.
  eexists. split; [reflexivity|].
  destruct (authorization_url_parameters draw_4fzyo user_id_1 _ eq_refl)
    as (_ & _ & _ & Hscope & Hother).
  split; [exact Hscope|]. apply Hother.
  vm_compute. intros Hin.
  repeat (apply elem_of_cons in Hin as [Hin | Hin]; [discriminate|]).
  apply elem_of_nil in Hin. exact Hin.
Defined.

(** ** The URL identifies the user *)

(** The state of a URL that was built is the Base64 text of the payload. *)
Lemma generateLinkedInAuthUrl_payload random36 userId url :
  generateLinkedInAuthUrl random36 userId = inr url ->
  url_param url (lit "state") ≫= atob
  = Some (statePayload userId (substring random36 2 15)).
Proof.
  unfold generateLinkedInAuthUrl.
  destruct (btoa (statePayload userId (substring random36 2 15))) as [e|state] eqn:Hb;
    [discriminate|].
  intros H. apply (inj inr) in H. subst url.
  assert (Hbytes : Forall (fun c => c < 256) (statePayload userId (substring random36 2 15))).
  { unfold btoa in Hb. destruct (forallb _ _) eqn:Hall; [|discriminate].
    apply forallb_byte_Forall, Hall. }
  assert (Hstate : state = b64_encode (statePayload userId (substring random36 2 15))).
  { unfold btoa in Hb. destruct (forallb _ _); [|discriminate].
    apply (inj inr) in Hb. congruence. }
  rewrite authorization_url_param by (rewrite Hstate; apply b64_encode_ascii, Hbytes).
  rewrite assoc_state. cbn [mbind option_bind]. apply atob_btoa, Hb.
Qed.

Lemma nonce_units random36 :
  is_random36 random36 = true -> code_units (substring random36 2 15) = true.
Proof.
  intros H. destruct (nonce_of_draw random36 H) as [Hn _].
  apply forallb_forall. intros c Hc. apply N.ltb_lt.
  rewrite Forall_forall in Hn. apply list_elem_of_In, Hn in Hc. lia.
Qed.

(** X22.  The URL tells the calls apart: two URLs that were built for
    different user ids, or with different nonces, are different texts (the
    user id and the nonce can be read off the URL). *)
Theorem distinct_users_distinct_urls random36 random36' userId userId' url url' :
  is_random36 random36 = true -> is_random36 random36' = true ->
  code_units userId = true -> code_units userId' = true ->
  generateLinkedInAuthUrl random36 userId = inr url ->
  generateLinkedInAuthUrl random36' userId' = inr url' ->
  userId <> userId' \/ substring random36 2 15 <> substring random36' 2 15 ->
  url <> url'.
Proof.
  intros Hr Hr' Hu Hu' Hurl Hurl' Hne Heq. subst url'.
  pose proof (generateLinkedInAuthUrl_payload _ _ _ Hurl) as Hp.
  pose proof (generateLinkedInAuthUrl_payload _ _ _ Hurl') as Hp'.
  rewrite Hp in Hp'. apply (inj Some) in Hp'.
  pose proof (JSON_parse_statePayload_units userId _ Hu (nonce_units _ Hr)) as Hj.
  pose proof (JSON_parse_statePayload_units userId' _ Hu' (nonce_units _ Hr')) as Hj'.
  rewrite Hp' in Hj. rewrite Hj in Hj'.
  destruct Hne as [Hne | Hne]; apply Hne; congruence.
Qed.

Lemma distinct_users_distinct_urls_witness :
  exists url url',
    generateLinkedInAuthUrl draw_4fzyo user_id_1 = inr url
    /\ generateLinkedInAuthUrl draw_4fzyo user_id_2 = inr url'
    /\ url <> url'.
Proof.
  eexists _, _. split; [reflexivity|]. split; [reflexivity|].
  apply (distinct_users_distinct_urls draw_4fzyo draw_4fzyo user_id_1 user_id_2);
    try reflexivity.
  left. vm_compute. discriminate.
Defined.

(** * The state of the URL, for every user id the builder takes *)

Lemma unicode_escape_bytes c :
  c < 65536 -> forallb (fun x => x <? 256) (unicode_escape c) = true.
Proof.
  intros Hc. unfold unicode_escape, hex_digit_lower. cbn [forallb].
  repeat split_if; N_tests; repeat split; div_lia.
Qed.

Lemma json_escape_byte_test c :
  forallb (fun x => x <? 256) (json_escape c) = (c <? 256).
Proof.
  destruct (c <? 256) eqn:Hc.
  - apply N.ltb_lt in Hc. apply forallb_forall. intros x Hx. apply N.ltb_lt.
    pose proof (json_escape_bytes c Hc) as Hall. rewrite Forall_forall in Hall.
    apply Hall, list_elem_of_In, Hx.
  - apply N.ltb_ge in Hc. rewrite json_escape_wide by exact Hc. cbn [forallb].
    replace (c <? 256) with false by (symmetry; apply N.ltb_ge; exact Hc). reflexivity.
Qed.

(** The text [JSON.stringify] writes for a string is made of bytes exactly
    when the string is [encodable]. *)
Lemma quote_body_byte_test s :
  code_units s = true ->
  forallb (fun x => x <? 256) (quote_body s) = encodable s.
Proof.
  remember (length s) as n eqn:Hn. revert s Hn.
  induction (lt_wf n) as [n _ IH]. intros s Hn Hs.
  destruct s as [|c rest]; [reflexivity|].
  unfold code_units in Hs. cbn [forallb] in Hs. apply andb_true_iff in Hs as [Hc Hrest].
  apply N.ltb_lt in Hc.
  assert (IHrest : forallb (fun x => x <? 256) (quote_body rest) = encodable rest).
  { apply (IH (length rest)); [subst n; cbn; lia | reflexivity | exact Hrest]. }
  cbn [quote_body encodable].
  destruct (is_lead_surrogate c) eqn:El.
  - destruct rest as [|d rest'].
    + apply unicode_escape_bytes, Hc.
    + destruct (is_trail_surrogate d).
      * assert (Hwide : (c <? 256) = false)
          by (unfold is_lead_surrogate in El; N_tests; lia).
        cbn [forallb]. rewrite Hwide. reflexivity.
      * rewrite forallb_app, unicode_escape_bytes by exact Hc. exact IHrest.
  - destruct (is_trail_surrogate c).
    + rewrite forallb_app, unicode_escape_bytes by exact Hc. exact IHrest.
    + rewrite forallb_app, json_escape_byte_test, IHrest. reflexivity.
Qed.

Lemma Forall_byte_forallb s :
  Forall (fun c => c < 256) s -> forallb (fun c => c <? 256) s = true.
Proof.
  intros H. apply forallb_forall. intros c Hc. apply N.ltb_lt.
  rewrite Forall_forall in H. apply H, list_elem_of_In, Hc.
Qed.

(** [btoa] takes the payload exactly when the user id is [encodable]. *)
Lemma btoa_statePayload random36 userId :
  is_random36 random36 = true -> code_units userId = true ->
  btoa (statePayload userId (substring random36 2 15))
  = if encodable userId
    then inr (b64_encode (statePayload userId (substring random36 2 15)))
    else inl InvalidCharacterError.
Proof.
  intros Hr Hu. unfold btoa.
  destruct (nonce_of_draw random36 Hr) as [Hn _].
  assert (Htest : forallb (fun c => c <? 256) (statePayload userId (substring random36 2 15))
                  = encodable userId).
  { rewrite statePayload_shape. unfold QuoteJSONString at 2 4.
    repeat first [rewrite forallb_app | progress cbn [forallb]].
    rewrite (quote_body_byte_test userId Hu).
    rewrite (Forall_byte_forallb _ (quote_body_bytes _ Hn)).
    rewrite (Forall_byte_forallb _ (QuoteJSONString_bytes _ lit_bytes_userId)).
    rewrite (Forall_byte_forallb _ (QuoteJSONString_bytes _ lit_bytes_nonce)).
    cbn. destruct (encodable userId); reflexivity. }
  rewrite Htest. reflexivity.
Qed.

Lemma bytes_encodable s : forallb (fun c => c <? 256) s = true -> encodable s = true.
Proof.
  induction s as [|c rest IH]; [reflexivity|].
  cbn [forallb]. intros H. apply andb_true_iff in H as [Hc Hrest].
  cbn [encodable]. pose proof Hc as Hc'. apply N.ltb_lt in Hc'.
  destruct (byte_not_surrogate c Hc') as [-> ->]. rewrite Hc. exact (IH Hrest).
Qed.

(** The state of a URL that was built, and its payload. *)
Lemma generateLinkedInAuthUrl_built random36 userId url :
  generateLinkedInAuthUrl random36 userId = inr url ->
  url_param url (lit "state")
  = Some (b64_encode (statePayload userId (substring random36 2 15)))
  /\ atob (b64_encode (statePayload userId (substring random36 2 15)))
     = Some (statePayload userId (substring random36 2 15)).
Proof.
  unfold generateLinkedInAuthUrl.
  destruct (btoa (statePayload userId (substring random36 2 15))) as [e|state] eqn:Hb;
    [discriminate|].
  intros H. apply (inj inr) in H. subst url.
  assert (Hbytes : Forall (fun c => c < 256) (statePayload userId (substring random36 2 15))).
  { unfold btoa in Hb. destruct (forallb _ _) eqn:Hall; [|discriminate].
    apply forallb_byte_Forall, Hall. }
  assert (Hstate : state = b64_encode (statePayload userId (substring random36 2 15))).
  { unfold btoa in Hb. destruct (forallb _ _); [|discriminate].
    apply (inj inr) in Hb. congruence. }
  subst state.
  rewrite authorization_url_param by (apply b64_encode_ascii, Hbytes).
  rewrite assoc_state. split; [reflexivity | apply atob_btoa, Hb].
Qed.

(** C7, as the code has it.  For every user id and every draw of
    [Math.random()], the builder throws an [InvalidCharacterError] exactly
    when the user id is not [encodable], that is, when it holds a code unit
    above 255 other than an unpaired surrogate; a user id made of code units
    up to 255 is always taken.  For a user id that is taken, the state of the
    URL decodes to exactly the user id and the nonce, the nonce being the
    characters 2 to 15 of the text of the draw in base 36.  The nonce is empty
    exactly when the draw is 0, and two calls for the same user id give the
    same state exactly when their nonces are the same. *)
Theorem C7_state_round_trip (random36 userId : jstring) :
  is_random36 random36 = true ->
  code_units userId = true ->
  let nonce := substring random36 2 15 in
  (forallb (fun c => c <? 256) userId = true -> encodable userId = true)
  /\ (encodable userId = false ->
      generateLinkedInAuthUrl random36 userId = inl InvalidCharacterError)
  /\ (encodable userId = true ->
      exists url state,
        generateLinkedInAuthUrl random36 userId = inr url
        /\ url_param url (lit "state") = Some state
        /\ decode_state url = Some [(lit "nonce", nonce); (lit "userId", userId)]
        /\ (nonce = [] <-> random36 = lit "0")
        /\ forall random36' url',
             is_random36 random36' = true ->
             generateLinkedInAuthUrl random36' userId = inr url' ->
             (url_param url' (lit "state") = Some state
              <-> substring random36' 2 15 = nonce)).
Proof.
  intros Hr Hu nonce. subst nonce.
  split; [apply bytes_encodable|].
  split.
  { intros Hno. unfold generateLinkedInAuthUrl.
    rewrite (btoa_statePayload random36 userId Hr Hu), Hno. reflexivity. }
  intros Hyes.
  assert (Hurl : generateLinkedInAuthUrl random36 userId
                 = inr (url_toString (lit "https://www.linkedin.com/oauth/v2/authorization")
                          (authorization_params
                             (b64_encode (statePayload userId (substring random36 2 15)))))).
  { unfold generateLinkedInAuthUrl.
    rewrite (btoa_statePayload random36 userId Hr Hu), Hyes. reflexivity. }
  destruct (generateLinkedInAuthUrl_built _ _ _ Hurl) as [Hstate Hatob].
  destruct (nonce_of_draw random36 Hr) as [_ Hempty].
  pose proof (JSON_parse_statePayload_units userId _ Hu (nonce_units _ Hr)) as Hparse.
  eexists _, _. split; [exact Hurl|]. split; [exact Hstate|].
  split.
  { unfold decode_state. rewrite Hstate, Hatob. exact Hparse. }
  split; [exact Hempty|].
  intros random36' url' Hr' Hurl'.
  destruct (generateLinkedInAuthUrl_built _ _ _ Hurl') as [Hstate' Hatob'].
  rewrite Hstate'. split.
  - intros Heq. apply (inj Some) in Heq.
    rewrite Heq in Hatob'. rewrite Hatob in Hatob'.
    apply (inj Some) in Hatob'.
    pose proof (JSON_parse_statePayload_units userId _ Hu (nonce_units _ Hr')) as Hparse'.
    rewrite <- Hatob' in Hparse'. rewrite Hparse in Hparse'. congruence.
  - intros ->. reflexivity.
Qed.

Lemma C7_state_round_trip_witness :
  exists url state,
    generateLinkedInAuthUrl draw_4fzyo user_id_odd = inr url
    /\ url_param url (lit "state") = Some state
    /\ decode_state url = Some [(lit "nonce", lit "4fzyo82mvyr"); (lit "userId", user_id_odd)].
Proof.
  destruct (C7_state_round_trip draw_4fzyo user_id_odd eq_refl eq_refl) as (_ & _ & Hbuilt).
  destruct (Hbuilt eq_refl) as (url & state & Hurl & Hstate & Hdecode & _).
  exists url, state. split; [exact Hurl|]. split; [exact Hstate|]. exact Hdecode.
Defined.
